(** * Garment layer mask pipeline (scripts/generate-clothing-masks.py)

    A shallow embedding of the mask generator: grayscale conversion,
    inverted thresholding, morphological clean-up, the split into row
    bands, the per-layer significance test, the RGBA encoder and the
    batch loop over the catalog, first on a map of files and then on a
    disk with directories where a call can raise, followed by the
    properties stated for them. *)

From stdpp Require Import base numbers list gmap strings.
From Stdlib Require Import ZArith Lia.

Local Open Scope Z_scope.

(** ** Arrays

    A two-dimensional [uint8] numpy array is a list of rows of integers in
    [0, 255]. Coordinates are integers so that neighbourhoods may reach
    outside the array. *)

Abbreviation image := (list (list Z)).

Definition rows {A : Type} (m : list (list A)) : nat := length m.

Definition cols {A : Type} (m : list (list A)) : nat :=
  match m with
  | [] => 0%nat
  | row :: _ => length row
  end.

(** [m.shape] *)
Definition shape {A : Type} (m : list (list A)) : nat * nat := (rows m, cols m).

Definition in_bounds (h w : nat) (r c : Z) : bool :=
  (0 <=? r) && (r <? Z.of_nat h) && (0 <=? c) && (c <? Z.of_nat w).

(** [m[r, c]] for an index inside the array. *)
Definition raw (m : image) (r c : Z) : Z :=
  (m !!! Z.to_nat r) !!! Z.to_nat c.

(** The cell at row [r] and column [c], when there is one. *)
Definition cell {A : Type} (m : list (list A)) (r c : nat) : option A :=
  m !! r ≫= fun row => row !! c.

(** Build an [h] by [w] array from a function of the coordinates. *)
Definition tabulate (h w : nat) (f : Z -> Z -> Z) : image :=
  (fun r => (fun c => f r c) <$> seqZ 0 (Z.of_nat w)) <$> seqZ 0 (Z.of_nat h).

(** [np.zeros_like(m)] and a constant array. *)
Definition const_image (h w : nat) (v : Z) : image := tabulate h w (fun _ _ => v).

Definition zeros_like (m : image) : image := const_image (rows m) (cols m) 0.

Definition uint8 (v : Z) : Prop := 0 <= v <= 255.

Definition uint8_image (m : image) : Prop := Forall (Forall uint8) m.

Definition rectangular {A : Type} (m : list (list A)) : Prop :=
  Forall (fun row => length row = cols m) m.

(** Every pixel of the array is [p]. *)
Definition uniform {A : Type} (p : A) (m : list (list A)) : Prop :=
  Forall (Forall (fun q => q = p)) m.

(** A BinaryMask: a rectangular array whose cells are 0 (background) or
    255 (foreground). *)
Definition binary_mask (m : image) : Prop :=
  rectangular m /\ Forall (Forall (fun v => v = 0 \/ v = 255)) m.

(** ** Grayscale conversion and thresholding *)

(** A colour pixel as [cv2.imread] delivers it: blue, green, red. *)
Definition bgr : Type := Z * Z * Z.

Abbreviation color_image := (list (list bgr)).

(** [cv2.cvtColor(img, cv2.COLOR_BGR2GRAY)] on 8-bit data: the fixed-point
    weighted sum with 15 fractional bits, rounded. *)
Definition BY15 : Z := 3735.
Definition GY15 : Z := 19235.
Definition RY15 : Z := 9798.

Definition descale (x n : Z) : Z := Z.shiftr (x + Z.shiftl 1 (n - 1)) n.

Definition bgr2gray (p : bgr) : Z :=
  let '(b, g, r) := p in descale (b * BY15 + g * GY15 + r * RY15) 15.

Definition cvtColor_BGR2GRAY (img : color_image) : image :=
  (fun row : list bgr => bgr2gray <$> row) <$> img.

(** [cv2.threshold(gray, thresh, maxval, cv2.THRESH_BINARY_INV)]:
    0 where the source exceeds [thresh], [maxval] elsewhere. *)
Definition threshold_binary_inv (thresh maxval : Z) (gray : image) : image :=
  (fun row : list Z => (fun v => if thresh <? v then 0 else maxval) <$> row) <$> gray.

(** ** Morphology

    [cv2.dilate] and [cv2.erode] with a structuring element, the anchor at
    its centre, one iteration, a constant border and the default border
    value: outside the array a dilation sees the least value and an erosion
    the greatest one. *)

Abbreviation kernel := (list (list Z)).

(** [np.ones((n, n), np.uint8)] *)
Definition ones (n : nat) : kernel := repeat (repeat 1 n) n.

(** Offsets, relative to the anchor, of the non-zero cells of a kernel. *)
Definition kernel_offsets (k : kernel) : list (Z * Z) :=
  let ar := Z.of_nat (length k) / 2 in
  let ac := Z.of_nat (cols k) / 2 in
  concat (imap (fun i row =>
            omap (fun '(j, v) => if v =? 0 then None
                                 else Some (Z.of_nat i - ar, Z.of_nat j - ac))
                 (imap (fun j v => (j, v)) row)) k).

Definition maximum (l : list Z) : Z := foldr Z.max 0 l.
Definition minimum (l : list Z) : Z := foldr Z.min 255 l.

Section Neighbourhood.
Variables (h w : nat) (offs : list (Z * Z)).

(** The array extended by a constant border. *)
Definition ext (b : Z) (f : Z -> Z -> Z) (r c : Z) : Z :=
  if in_bounds h w r c then f r c else b.

Definition window (b : Z) (f : Z -> Z -> Z) (r c : Z) : list Z :=
  (fun '(dr, dc) => ext b f (r + dr) (c + dc)) <$> offs.

Definition dilate_at (f : Z -> Z -> Z) (r c : Z) : Z := maximum (window 0 f r c).
Definition erode_at (f : Z -> Z -> Z) (r c : Z) : Z := minimum (window 255 f r c).

Definition close_at (f : Z -> Z -> Z) : Z -> Z -> Z := erode_at (dilate_at f).
Definition open_at (f : Z -> Z -> Z) : Z -> Z -> Z := dilate_at (erode_at f).
End Neighbourhood.

Definition dilate (k : kernel) (m : image) : image :=
  tabulate (rows m) (cols m) (dilate_at (rows m) (cols m) (kernel_offsets k) (raw m)).

Definition erode (k : kernel) (m : image) : image :=
  tabulate (rows m) (cols m) (erode_at (rows m) (cols m) (kernel_offsets k) (raw m)).

(** [cv2.morphologyEx] with [MORPH_CLOSE] (dilate, then erode) and
    [MORPH_OPEN] (erode, then dilate). *)
Definition morph_close (k : kernel) (m : image) : image := erode k (dilate k m).
Definition morph_open (k : kernel) (m : image) : image := dilate k (erode k m).

(** The clean-up of [remove_background]: closing, then opening, with the
    5 by 5 kernel. *)
Definition clean (m : image) : image :=
  let kernel := ones 5 in
  morph_open kernel (morph_close kernel m).

(** The part of [remove_background] after the image is read. *)
Definition segment (img : color_image) : image :=
  let gray := cvtColor_BGR2GRAY img in
  let mask := threshold_binary_inv 230 255 gray in
  clean mask.

(** The mask of [remove_background] as the threshold leaves it, before the
    clean-up (lines 52 to 57). *)
Definition threshold_mask (img : color_image) : image :=
  let gray := cvtColor_BGR2GRAY img in
  threshold_binary_inv 230 255 gray.

(** ** Binary64 arithmetic

    The script multiplies integers by the literals 0.45, 0.35, 0.05 and
    0.01. A non-negative finite double is kept exactly, as the fraction
    [num / 2 ^ exp2]; a product is the exact product rounded to 53
    significant bits, ties to even. Magnitudes stay far inside the normal
    range, so neither overflow nor gradual underflow is modelled. *)

Record float := Float { num : Z; exp2 : Z }.

Definition bit_length (x : Z) : Z := if x <=? 0 then 0 else Z.log2 x + 1.

(** [x / 2 ^ s] rounded to the nearest integer, ties to even. *)
Definition round_half_even (x s : Z) : Z :=
  let q := x / 2 ^ s in
  let r := x mod 2 ^ s in
  let half := 2 ^ (s - 1) in
  if r <? half then q
  else if half <? r then q + 1
  else if Z.even q then q else q + 1.

(** The nearest integer to [x] that has at most 53 significant bits. *)
Definition round53 (x : Z) : Z :=
  let s := bit_length x - 53 in
  if s <=? 0 then x else round_half_even x s * 2 ^ s.

(** Conversion of a Python integer to [float]. *)
Definition float_of_int (n : Z) : float := Float (round53 n) 0.

Definition float_mul (a b : float) : float :=
  Float (round53 (num a * num b)) (exp2 a + exp2 b).

(** [int(x)] for a non-negative [x]: truncation. *)
Definition int_of_float (x : float) : Z := num x / 2 ^ exp2 x.

Definition float_ltb (a b : float) : bool :=
  num a * 2 ^ exp2 b <? num b * 2 ^ exp2 a.

(** The literals, as the nearest doubles (0.35 is written over the same
    power of two as 0.45). *)
Definition f0_45 : float := Float 8106479329266893 54.
Definition f0_35 : float := Float 6305039478318694 54.
Definition f0_05 : float := Float 3602879701896397 56.
Definition f0_01 : float := Float 5764607523034235 59.

(** [int(h * c)] for a Python integer [h] and a float literal [c]. *)
Definition int_mul (h : Z) (c : float) : Z :=
  int_of_float (float_mul (float_of_int h) c).

(** ** Region decomposition *)

(** [dst[lo:hi, :] = src[lo:hi, :]] for arrays of one shape and
    non-negative bounds: rows [lo <= r < hi] are taken from [src]. *)
Definition assign_rows (dst src : image) (lo hi : Z) : image :=
  imap (fun i row =>
          if (lo <=? Z.of_nat i) && (Z.of_nat i <? hi) then src !!! i else row) dst.

(** The cut rows of [split_clothing_layers]. *)
Definition top_end (h : Z) : Z := int_mul h f0_45.
Definition base_start (h : Z) : Z := int_mul h f0_05.
Definition base_end (h : Z) : Z := int_mul h f0_35.

Definition split_clothing_layers (mask : image) (image_height : Z)
  : list (string * image) :=
  let h := Z.of_nat (rows mask) in
  let top_mask := assign_rows (zeros_like mask) mask 0 (top_end h) in
  let base_mask := assign_rows (zeros_like mask) mask (base_start h) (base_end h) in
  let bottom_mask := assign_rows (zeros_like mask) mask (top_end h) h in
  [("topLayer", top_mask); ("baseLayer", base_mask); ("bottom", bottom_mask)].

(** Row bands in which a layer may copy the mask. *)
Definition in_top_band (h r : Z) : bool := (0 <=? r) && (r <? top_end h) && (r <? h).
Definition in_base_band (h r : Z) : bool :=
  (0 <=? r) && (base_start h <=? r) && (r <? base_end h) && (r <? h).
Definition in_bottom_band (h r : Z) : bool := (0 <=? r) && (top_end h <=? r) && (r <? h).

(** ** Layer significance *)

(** [np.sum(mask == v)] *)
Definition count_eq (v : Z) (m : image) : Z :=
  Z.of_nat (length (filter (fun x => x = v) (concat m))).

(** [np.sum(mask)]: 8-bit cells are accumulated in an unsigned 64-bit sum. *)
Definition np_sum (m : image) : Z := foldr Z.add 0 (concat m) mod 2 ^ 64.

(** The two tests of the loop body of [process_clothing_image]; [true]
    when the layer reaches [save_mask]. *)
Definition layer_accepted (layer_name : string) (layer_mask : image) (h w : Z) : bool :=
  if bool_decide (layer_name = "baseLayer")
     && float_ltb (float_of_int (count_eq 255 layer_mask))
                  (float_mul (float_of_int (h * w)) f0_01)
  then false
  else if np_sum layer_mask =? 0 then false
  else true.

(** ** Encoding and files *)

Definition rgba : Type := Z * Z * Z * Z.

Inductive file :=
  | Picture (px : list (list rgba))   (* a raster image with its pixels *)
  | Other.                            (* anything that is not an image *)

Definition set_rgb (v : Z) (p : rgba) : rgba := let '(_, _, _, a) := p in (v, v, v, a).
Definition set_alpha (v : Z) (p : rgba) : rgba := let '(r, g, b, _) := p in (r, g, b, v).
Definition alpha (p : rgba) : Z := let '(_, _, _, a) := p in a.

(** The array that [save_mask] hands to the PNG writer. *)
Definition encode_mask (mask : image) : list (list rgba) :=
  let '(h, w) := shape mask in
  let rgba0 := replicate h (replicate w (0, 0, 0, 0)) in
  let rgba1 := (fun row : list rgba => set_rgb 255 <$> row) <$> rgba0 in
  imap (fun r (row : list rgba) =>
          imap (fun c p => set_alpha (raw mask (Z.of_nat r) (Z.of_nat c)) p) row) rgba1.

(** Reading the alpha channel of a stored picture back. *)
Definition alpha_channel (px : list (list rgba)) : image :=
  (fun row : list rgba => alpha <$> row) <$> px.

(** The files after [save_mask] has written the picture. When the write
    itself raises is the matter of [IO.save_mask] below. *)
Definition save_mask (fs : gmap string file) (mask : image) (output_path : string)
  : gmap string file :=
  <[output_path := Picture (encode_mask mask)]> fs.

(** [cv2.imread]: a colour image without its alpha channel, or nothing
    when the file is absent or does not decode. An image file has at least
    one row and one column. *)
Definition imread (fs : gmap string file) (path : string) : option color_image :=
  match fs !! path with
  | Some (Picture px) =>
      if bool_decide (px = [] \/ [] ∈ px) then None
      else Some ((fun row : list rgba => (fun '(r, g, b, _) => (b, g, r)) <$> row) <$> px)
  | _ => None
  end.

Definition remove_background (fs : gmap string file) (image_path : string)
  : option image :=
  match imread fs image_path with
  | None => None
  | Some img => Some (segment img)
  end.

(** ** The batch *)

(** [dir / name] for a name that is a single path component (see
    [no_slash]); [pathlib] would drop the component [.] and let an absolute
    name replace [dir]. *)
Definition path_join (dir name : string) : string := dir +:+ "/" +:+ name.

Definition PUBLIC_DIR : string := "public/images/clothing".
Definition MASKS_DIR : string := path_join PUBLIC_DIR "masks".

Definition template_id (style detail : string) : string := style +:+ "-" +:+ detail.

Definition source_path (style detail : string) : string :=
  path_join PUBLIC_DIR (template_id style detail +:+ ".png").

Definition mask_path (style detail layer_name : string) : string :=
  path_join MASKS_DIR (template_id style detail +:+ "-" +:+ layer_name +:+ ".png").

(** A call either returns or raises. *)
Inductive outcome (A : Type) :=
  | Returned (a : A)
  | Raised.
Arguments Returned {A} a.
Arguments Raised {A}.

(** The loop over [layers.items()]. *)
Definition save_layers (fs : gmap string file) (style detail : string)
    (layers : list (string * image)) (h w : Z) : gmap string file :=
  foldl (fun fs '(layer_name, layer_mask) =>
           if layer_accepted layer_name layer_mask h w
           then save_mask fs layer_mask (mask_path style detail layer_name)
           else fs) fs layers.

Definition process_clothing_image (fs : gmap string file) (style detail : string)
  : outcome (gmap string file * bool) :=
  let image_path := source_path style detail in
  if bool_decide (fs !! image_path = None) then Returned (fs, false)
  else match remove_background fs image_path with
       | None => Returned (fs, false)
       | Some clothing_mask =>
           match imread fs image_path with
           | None => Raised        (* [img.shape] of [None] *)
           | Some img =>
               let h := Z.of_nat (length img) in
               let w := Z.of_nat (length (default [] (head img))) in
               let layers := split_clothing_layers clothing_mask h in
               Returned (save_layers fs style detail layers h w, true)
           end
       end.

Definition CLOTHING_IMAGES : list (string * string) :=
  [("startup", "hoodie"); ("startup", "polo"); ("startup", "button_down");
   ("business", "casual")].

(** The loop of [main] over a catalog when every write succeeds: the files
    afterwards and the success count. *)
Fixpoint process_all (catalog : list (string * string)) (fs : gmap string file)
    (success_count : nat) : outcome (gmap string file * nat) :=
  match catalog with
  | [] => Returned (fs, success_count)
  | (style, detail) :: rest =>
      match process_clothing_image fs style detail with
      | Raised => Raised
      | Returned (fs', ok) =>
          process_all rest fs' (if ok then S success_count else success_count)
      end
  end.

(** The keys of the dictionary built by [split_clothing_layers]. *)
Definition layer_names : list string := ["topLayer"; "baseLayer"; "bottom"].

(** The source image of a template is present and decodes. *)
Definition loadable (fs : gmap string file) (t : string * string) : Prop :=
  is_Some (imread fs (source_path t.1 t.2)).

(** No source image of the catalog is itself a mask file of the catalog. *)
Definition independent (catalog : list (string * string)) : Prop :=
  forall t t' name,
    t ∈ catalog -> t' ∈ catalog -> name ∈ layer_names ->
    source_path t.1 t.2 <> mask_path t'.1 t'.2 name.

(** A catalog directory with a white image, a file that is not an image
    and a dark image; the third template of the catalog has no file. *)
Definition sample_files : gmap string file :=
  <[source_path "startup" "hoodie" :=
      Picture [[(255, 255, 255, 255); (255, 255, 255, 255)];
               [(255, 255, 255, 255); (255, 255, 255, 255)]]]>
  (<[source_path "startup" "polo" := Other]>
  (<[source_path "business" "casual" := Picture [[(10, 10, 10, 255)]]]> ∅)).

(** The mask that is foreground exactly in the rows [lo <= r < hi]. *)
Definition band_mask (h w : nat) (lo hi : Z) : image :=
  tabulate h w (fun r _ => if (lo <=? r) && (r <? hi) then 255 else 0).

(** A catalog directory whose only file is a mid-gray image of 200 rows
    and 100 columns. *)
Definition gray_files : gmap string file :=
  {[ source_path "startup" "hoodie"
     := Picture (replicate 200 (replicate 100 (128, 128, 128, 255))) ]}.

(** The cell at row [r] and column [c] is a foreground pixel. *)
Definition foreground (m : image) (r c : nat) : Prop := cell m r c = Some 255.

(** A small mask with a hole in a block and an isolated speck. *)
Definition sample_mask : image :=
  [[0; 0; 0; 0; 0; 0; 0; 0; 0];
   [0; 255; 255; 255; 255; 255; 255; 0; 0];
   [0; 255; 255; 255; 255; 255; 255; 0; 0];
   [0; 255; 255; 0; 255; 255; 255; 0; 0];
   [0; 255; 255; 255; 255; 255; 255; 0; 0];
   [0; 255; 255; 255; 255; 255; 255; 0; 0];
   [0; 255; 255; 255; 255; 255; 255; 0; 0];
   [0; 0; 0; 0; 0; 0; 0; 0; 0];
   [0; 0; 0; 0; 0; 0; 0; 0; 255];
   [0; 0; 0; 0; 0; 0; 0; 0; 0]].

(** Pointwise comparison of arrays given as functions on an [h] by [w]
    domain. *)
Definition bounded (h w : nat) (f : Z -> Z -> Z) : Prop :=
  forall r c, in_bounds h w r c = true -> uint8 (f r c).

Definition le_on (h w : nat) (f g : Z -> Z -> Z) : Prop :=
  forall r c, in_bounds h w r c = true -> f r c <= g r c.

Definition eq_on (h w : nat) (f g : Z -> Z -> Z) : Prop :=
  forall r c, in_bounds h w r c = true -> f r c = g r c.

(** The array takes only the values 0 and 255 on the domain. *)
Definition binary_on (h w : nat) (f : Z -> Z -> Z) : Prop :=
  forall r c, in_bounds h w r c = true -> f r c = 0 \/ f r c = 255.

Definition symmetric (offs : list (Z * Z)) : Prop :=
  forall dr dc, (dr, dc) ∈ offs -> (- dr, - dc) ∈ offs.

(** The layers for which [generate_preview_html] puts a mask-preview block
    of a template on the page, in page order: those whose mask file
    exists. The markup around the blocks is not modelled. *)
Definition preview_blocks (fs : gmap string file) (style detail : string) : list string :=
  filter (fun layer => is_Some (fs !! mask_path style detail layer))
         ["topLayer"; "baseLayer"; "bottom"; "shoes"].

(** ** Directories, and calls that raise

    The file map above has no directories, and a write into it cannot
    fail. Here a disk has regular files and directories: creating a
    directory raises when a regular file is in the way, and opening a file
    for writing raises when its directory is missing. *)

(** The character [/] that separates path components. *)
Definition slash : Ascii.ascii := Ascii.ascii_of_nat 47.

(** The name is a single path component: it has no [/]. *)
Fixpoint no_slash (s : string) : bool :=
  match s with
  | EmptyString => true
  | String c rest => negb (Ascii.eqb c slash) && no_slash rest
  end.

(** Every style and detail of the catalog is a single path component, so
    that a source image lies in [PUBLIC_DIR] and a mask in [MASKS_DIR]. *)
Definition plain_names (catalog : list (string * string)) : Prop :=
  Forall (fun t => no_slash t.1 = true /\ no_slash t.2 = true) catalog.

Module IO.

Record disk := Disk { files : gmap string file; dirs : gset string }.

(** What precedes the last [/] of a path, if it has one. *)
Fixpoint dirname (p : string) : option string :=
  match p with
  | EmptyString => None
  | String c rest =>
      match dirname rest with
      | Some dir => Some (String c dir)
      | None => if Ascii.eqb c slash then Some EmptyString else None
      end
  end.

(** The ancestors of a path, outermost first, and the path itself. *)
Fixpoint path_prefixes (p : string) : list string :=
  match p with
  | EmptyString => [EmptyString]
  | String c rest =>
      (if Ascii.eqb c slash then [EmptyString] else []) ++ (String c <$> path_prefixes rest)
  end.

(** [Path.exists] *)
Definition path_exists (d : disk) (p : string) : bool :=
  bool_decide (is_Some (files d !! p) \/ p ∈ dirs d).

(** [Path.mkdir(parents=True, exist_ok=True)]: the missing ancestors and
    the directory are created, an existing directory is left alone, and a
    regular file at the path or at an ancestor makes the call raise. *)
Definition mkdir_parents (d : disk) (p : string) : outcome disk :=
  if bool_decide (Exists (fun q => is_Some (files d !! q)) (path_prefixes p)) then Raised
  else Returned (Disk (files d) (dirs d ∪ list_to_set (path_prefixes p))).

Definition create_mask_directories (d : disk) : outcome disk :=
  mkdir_parents d MASKS_DIR.

(** Opening a path for writing creates or truncates a regular file; it
    raises when the directory of the path is missing or the path is a
    directory. *)
Definition can_open_for_writing (d : disk) (p : string) : bool :=
  match dirname p with
  | Some dir => bool_decide (dir ∈ dirs d)
  | None => true
  end && negb (bool_decide (p ∈ dirs d)).

(** [save_mask]: an array without rows or columns makes no picture. *)
Definition save_mask (d : disk) (mask : image) (output_path : string) : outcome disk :=
  if bool_decide (rows mask = 0 \/ cols mask = 0)%nat then Raised
  else if can_open_for_writing d output_path
       then Returned (Disk (<[output_path := Picture (encode_mask mask)]> (files d)) (dirs d))
       else Raised.

(** The loop over [layers.items()]; a write that raises ends the call. *)
Fixpoint save_layers (d : disk) (style detail : string)
    (layers : list (string * image)) (h w : Z) : outcome disk :=
  match layers with
  | [] => Returned d
  | (layer_name, layer_mask) :: rest =>
      if layer_accepted layer_name layer_mask h w then
        match save_mask d layer_mask (mask_path style detail layer_name) with
        | Raised => Raised
        | Returned d' => save_layers d' style detail rest h w
        end
      else save_layers d style detail rest h w
  end.

Definition process_clothing_image (d : disk) (style detail : string)
  : outcome (disk * bool) :=
  let image_path := source_path style detail in
  if negb (path_exists d image_path) then Returned (d, false)
  else match remove_background (files d) image_path with
       | None => Returned (d, false)
       | Some clothing_mask =>
           match imread (files d) image_path with
           | None => Raised        (* [img.shape] of [None] *)
           | Some img =>
               let h := Z.of_nat (length img) in
               let w := Z.of_nat (length (default [] (head img))) in
               let layers := split_clothing_layers clothing_mask h in
               match save_layers d style detail layers h w with
               | Raised => Raised
               | Returned d' => Returned (d', true)
               end
           end
       end.

(** The loop of [main] over a catalog. *)
Fixpoint process_all (catalog : list (string * string)) (d : disk)
    (success_count : nat) : outcome (disk * nat) :=
  match catalog with
  | [] => Returned (d, success_count)
  | (style, detail) :: rest =>
      match process_clothing_image d style detail with
      | Raised => Raised
      | Returned (d', ok) =>
          process_all rest d' (if ok then S success_count else success_count)
      end
  end.

(** [generate_preview_html] writes one page next to the images; the
    markup is not modelled. *)
Definition generate_preview_html (d : disk) : outcome disk :=
  let preview_path := path_join PUBLIC_DIR "masks-preview.html" in
  if can_open_for_writing d preview_path
  then Returned (Disk (<[preview_path := Other]> (files d)) (dirs d))
  else Raised.

(** [main] for a given catalog: the disk afterwards and the count that is
    printed. *)
Definition main_with (catalog : list (string * string)) (d : disk)
  : outcome (disk * nat) :=
  match create_mask_directories d with
  | Raised => Raised
  | Returned d1 =>
      match process_all catalog d1 0 with
      | Raised => Raised
      | Returned (d2, success_count) =>
          match generate_preview_html d2 with
          | Raised => Raised
          | Returned d3 => Returned (d3, success_count)
          end
      end
  end.

Definition main (d : disk) : outcome (disk * nat) := main_with CLOTHING_IMAGES d.

(** The masks directory is there and no mask path of the template is a
    directory. *)
Definition masks_ready (d : disk) (style detail : string) : Prop :=
  MASKS_DIR ∈ dirs d /\
  forall name, name ∈ layer_names -> mask_path style detail name ∉ dirs d.

(** Nothing stands in the way of [main]: no regular file sits at the masks
    directory or at an ancestor of it, and no directory sits at a path that
    [main] writes. *)
Definition unobstructed (d : disk) (catalog : list (string * string)) : Prop :=
  (forall q, q ∈ path_prefixes MASKS_DIR -> files d !! q = None) /\
  (forall t name, t ∈ catalog -> name ∈ layer_names ->
                  mask_path t.1 t.2 name ∉ dirs d) /\
  path_join PUBLIC_DIR "masks-preview.html" ∉ dirs d.

End IO.

(** The sample catalog directory on a disk without any directory, and on
    one where only the masks directory is missing. *)
Definition sample_disk : IO.disk := IO.Disk sample_files ∅.

Definition no_masks_disk : IO.disk := IO.Disk sample_files {[ PUBLIC_DIR ]}.

(** The same files with the masks directory in place, and with a regular
    file where the masks directory should be. *)
Definition ready_disk : IO.disk := IO.Disk sample_files {[ PUBLIC_DIR; MASKS_DIR ]}.

Definition blocked_disk : IO.disk := IO.Disk (<[MASKS_DIR := Other]> sample_files) ∅.

(** A white image with one dark pixel in the middle. *)
Definition speck_image : color_image :=
  <[3%nat := <[3%nat := (0, 0, 0)]> (replicate 7 (255, 255, 255))]>
    (replicate 7 (replicate 7 (255, 255, 255))).

(** ** scripts/remove-clothing-background.py

    The sibling script cuts the background out of layer images in place:
    the same steps with the threshold 240 and a 3 by 3 kernel, and the
    picture keeps its colours. *)

Module RemoveClothingBackground.

Definition CLOTHING_IMAGES : list string :=
  ["startup-hoodie-toplayer"; "startup-hoodie-bottom"].

(** [cv2.cvtColor(img, cv2.COLOR_BGR2RGB)] *)
Definition cvtColor_BGR2RGB (img : color_image) : list (list (Z * Z * Z)) :=
  (fun row : list bgr => (fun '(b, g, r) => (r, g, b)) <$> row) <$> img.

Definition clean (m : image) : image :=
  let kernel := ones 3 in
  morph_open kernel (morph_close kernel m).

(** The array handed to the PNG writer: the colours of [img_rgb] and the
    mask as alpha channel. *)
Definition encode (img_rgb : list (list (Z * Z * Z))) (mask : image) : list (list rgba) :=
  let '(h, w) := shape img_rgb in
  let rgba0 := replicate h (replicate w (0, 0, 0, 0)) in
  let rgba1 :=
    imap (fun r (row : list rgba) =>
            imap (fun c (p : rgba) =>
                    let '(x, y, z) := (img_rgb !!! r) !!! c in
                    let '(_, _, _, a) := p in (x, y, z, a)) row) rgba0 in
  imap (fun r (row : list rgba) =>
          imap (fun c p => set_alpha (raw mask (Z.of_nat r) (Z.of_nat c)) p) row) rgba1.

Definition remove_white_background (fs : gmap string file)
    (image_path output_path : string) : gmap string file * bool :=
  match imread fs image_path with
  | None => (fs, false)
  | Some img =>
      let img_rgb := cvtColor_BGR2RGB img in
      let gray := cvtColor_BGR2GRAY img in
      let mask := threshold_binary_inv 240 255 gray in
      let mask := clean mask in
      (<[output_path := Picture (encode img_rgb mask)]> fs, true)
  end.

(** The loop of [main]: each image is replaced by its cut-out. *)
Fixpoint process_all (names : list string) (fs : gmap string file)
    (success_count : nat) : gmap string file * nat :=
  match names with
  | [] => (fs, success_count)
  | image_name :: rest =>
      let input_path := path_join PUBLIC_DIR (image_name +:+ ".png") in
      let output_path := path_join PUBLIC_DIR (image_name +:+ ".png") in
      if bool_decide (fs !! input_path = None) then process_all rest fs success_count
      else
        let '(fs', ok) := remove_white_background fs input_path output_path in
        process_all rest fs' (if ok then S success_count else success_count)
  end.

Definition main_with (names : list string) (fs : gmap string file)
  : gmap string file * nat :=
  process_all names fs 0.

Definition main (fs : gmap string file) : gmap string file * nat :=
  main_with CLOTHING_IMAGES fs.

(** The image file of a name is present and decodes. *)
Definition loadable (fs : gmap string file) (image_name : string) : Prop :=
  is_Some (imread fs (path_join PUBLIC_DIR (image_name +:+ ".png"))).

End RemoveClothingBackground.

(** * Properties *)

(** ** Arrays built from functions *)

Lemma in_bounds_spec h w r c :
  in_bounds h w r c = true <-> 0 <= r < Z.of_nat h /\ 0 <= c < Z.of_nat w.
Proof. unfold in_bounds. rewrite !andb_true_iff. lia. Qed.

Lemma rows_tabulate h w f : rows (tabulate h w f) = h.
Proof. unfold rows, tabulate. rewrite length_fmap, length_seqZ. lia. Qed.

Lemma cols_tabulate h w f : (0 < h)%nat -> cols (tabulate h w f) = w.
Proof.
  intros Hh. unfold cols, tabulate.
  destruct h as [|h']; [lia|].
  unfold seqZ at 2. rewrite Nat2Z.id. simpl.
  rewrite length_fmap, length_seqZ. lia.
Qed.

Lemma raw_tabulate h w f r c :
  in_bounds h w r c = true -> raw (tabulate h w f) r c = f r c.
Proof.
  intros [Hr Hc]%in_bounds_spec. unfold raw, tabulate.
  erewrite (list_lookup_total_correct _ (Z.to_nat r)); last first.
  { rewrite list_lookup_fmap, lookup_seqZ_lt by lia. reflexivity. }
  apply list_lookup_total_correct.
  rewrite list_lookup_fmap, lookup_seqZ_lt by lia. simpl.
  do 2 f_equal; lia.
Qed.

Lemma tabulate_ext h w f g :
  (forall r c, in_bounds h w r c = true -> f r c = g r c) ->
  tabulate h w f = tabulate h w g.
Proof.
  intros Hfg. unfold tabulate.
  apply list_eq; intros i. rewrite !list_lookup_fmap.
  destruct (seqZ 0 (Z.of_nat h) !! i) as [r|] eqn:Hr; [|done].
  apply lookup_seqZ in Hr as [-> Hi]. simpl. f_equal.
  apply list_eq; intros j. rewrite !list_lookup_fmap.
  destruct (seqZ 0 (Z.of_nat w) !! j) as [c|] eqn:Hc; [|done].
  apply lookup_seqZ in Hc as [-> Hj]. simpl. f_equal.
  apply Hfg, in_bounds_spec. lia.
Qed.

(** ** Greatest and least element of a list of [uint8] values *)

Lemma maximum_nonneg l : 0 <= maximum l.
Proof. induction l as [|x l IH]; simpl; lia. Qed.

Lemma maximum_ge l x : x ∈ l -> x <= maximum l.
Proof.
  induction l as [|y l IH]; [by intros ?%elem_of_nil|].
  intros [->|Hx]%elem_of_cons; simpl; [lia|]. specialize (IH Hx). lia.
Qed.

Lemma maximum_le l b : 0 <= b -> (forall x, x ∈ l -> x <= b) -> maximum l <= b.
Proof.
  intros Hb. induction l as [|y l IH]; intros Hl; simpl; [lia|].
  pose proof (Hl y (list_elem_of_here _ _)).
  assert (maximum l <= b) by (apply IH; intros; apply Hl; by right).
  lia.
Qed.

Lemma minimum_le_255 l : minimum l <= 255.
Proof. induction l as [|x l IH]; simpl; lia. Qed.

Lemma minimum_le l x : x ∈ l -> minimum l <= x.
Proof.
  induction l as [|y l IH]; [by intros ?%elem_of_nil|].
  intros [->|Hx]%elem_of_cons; simpl; [lia|]. specialize (IH Hx). lia.
Qed.

Lemma minimum_ge l b : b <= 255 -> (forall x, x ∈ l -> b <= x) -> b <= minimum l.
Proof.
  intros Hb. induction l as [|y l IH]; intros Hl; simpl; [lia|].
  pose proof (Hl y (list_elem_of_here _ _)).
  assert (b <= minimum l) by (apply IH; intros; apply Hl; by right).
  lia.
Qed.

(** ** Dilation and erosion as maps on functions *)

Section Lattice.
Variables (h w : nat) (offs : list (Z * Z)).
Hypothesis offs_sym : symmetric offs.

Lemma window_elem b f r c x :
  x ∈ window h w offs b f r c <->
  exists dr dc, (dr, dc) ∈ offs /\ x = ext h w b f (r + dr) (c + dc).
Proof.
  unfold window. rewrite list_elem_of_fmap. split.
  - intros [[dr dc] [-> Ho]]. eauto.
  - intros (dr & dc & Ho & ->). by exists (dr, dc).
Qed.

Lemma dilate_at_nonneg f r c : 0 <= dilate_at h w offs f r c.
Proof. apply maximum_nonneg. Qed.

Lemma erode_at_le_255 f r c : erode_at h w offs f r c <= 255.
Proof. apply minimum_le_255. Qed.

Lemma dilate_at_ge f r c dr dc :
  (dr, dc) ∈ offs -> in_bounds h w (r + dr) (c + dc) = true ->
  f (r + dr) (c + dc) <= dilate_at h w offs f r c.
Proof.
  intros Ho Hd. apply maximum_ge, window_elem.
  exists dr, dc. split; [done|]. unfold ext. by rewrite Hd.
Qed.

Lemma dilate_at_le f r c b :
  0 <= b ->
  (forall dr dc,
      (dr, dc) ∈ offs -> in_bounds h w (r + dr) (c + dc) = true ->
      f (r + dr) (c + dc) <= b) ->
  dilate_at h w offs f r c <= b.
Proof.
  intros Hb Hf. apply maximum_le; [done|].
  intros x (dr & dc & Ho & ->)%window_elem. unfold ext.
  destruct (in_bounds h w (r + dr) (c + dc)) eqn:Hd; [by apply Hf | done].
Qed.

Lemma erode_at_le f r c dr dc :
  (dr, dc) ∈ offs -> in_bounds h w (r + dr) (c + dc) = true ->
  erode_at h w offs f r c <= f (r + dr) (c + dc).
Proof.
  intros Ho Hd. apply minimum_le, window_elem.
  exists dr, dc. split; [done|]. unfold ext. by rewrite Hd.
Qed.

Lemma erode_at_ge f r c b :
  b <= 255 ->
  (forall dr dc,
      (dr, dc) ∈ offs -> in_bounds h w (r + dr) (c + dc) = true ->
      b <= f (r + dr) (c + dc)) ->
  b <= erode_at h w offs f r c.
Proof.
  intros Hb Hf. apply minimum_ge; [done|].
  intros x (dr & dc & Ho & ->)%window_elem. unfold ext.
  destruct (in_bounds h w (r + dr) (c + dc)) eqn:Hd; [by apply Hf | done].
Qed.

Lemma dilate_bounded f : bounded h w f -> bounded h w (dilate_at h w offs f).
Proof.
  intros Hf r c _. split; [apply dilate_at_nonneg|].
  apply dilate_at_le; [lia|]. intros dr dc _ Hd. apply Hf, Hd.
Qed.

Lemma erode_bounded f : bounded h w f -> bounded h w (erode_at h w offs f).
Proof.
  intros Hf r c _. split; [|apply erode_at_le_255].
  apply erode_at_ge; [lia|]. intros dr dc _ Hd. apply Hf, Hd.
Qed.

Lemma dilate_mono f g :
  le_on h w f g -> le_on h w (dilate_at h w offs f) (dilate_at h w offs g).
Proof.
  intros Hfg r c _. apply dilate_at_le; [apply dilate_at_nonneg|].
  intros dr dc Ho Hd. etrans; [apply Hfg, Hd|]. by apply dilate_at_ge.
Qed.

Lemma erode_mono f g :
  le_on h w f g -> le_on h w (erode_at h w offs f) (erode_at h w offs g).
Proof.
  intros Hfg r c _. apply erode_at_ge; [apply erode_at_le_255|].
  intros dr dc Ho Hd. etrans; [|apply Hfg, Hd]. by apply erode_at_le.
Qed.

(** Opening shrinks and closing grows: the neighbourhood is symmetric,
    so a cell lies in the window of each of its neighbours. *)
Lemma open_le f :
  bounded h w f -> le_on h w (dilate_at h w offs (erode_at h w offs f)) f.
Proof.
  intros Hf r c Hrc. apply dilate_at_le; [apply Hf, Hrc|].
  intros dr dc Ho Hd.
  pose proof (erode_at_le f (r + dr) (c + dc) (- dr) (- dc)) as Hle.
  replace (r + dr + - dr) with r in Hle by lia.
  replace (c + dc + - dc) with c in Hle by lia.
  apply Hle; [by apply offs_sym | done].
Qed.

Lemma close_ge f :
  bounded h w f -> le_on h w f (erode_at h w offs (dilate_at h w offs f)).
Proof.
  intros Hf r c Hrc. apply erode_at_ge; [apply Hf, Hrc|].
  intros dr dc Ho Hd.
  pose proof (dilate_at_ge f (r + dr) (c + dc) (- dr) (- dc)) as Hle.
  replace (r + dr + - dr) with r in Hle by lia.
  replace (c + dc + - dc) with c in Hle by lia.
  apply Hle; [by apply offs_sym | done].
Qed.

Lemma le_on_antisym f g : le_on h w f g -> le_on h w g f -> eq_on h w f g.
Proof. intros H1 H2 r c Hrc. specialize (H1 r c Hrc). specialize (H2 r c Hrc). lia. Qed.

Lemma le_on_trans f g k : le_on h w f g -> le_on h w g k -> le_on h w f k.
Proof. intros H1 H2 r c Hrc. specialize (H1 r c Hrc). specialize (H2 r c Hrc). lia. Qed.

Lemma eq_on_le f g : eq_on h w f g -> le_on h w f g.
Proof. intros H1 r c Hrc. specialize (H1 r c Hrc). lia. Qed.

Lemma eq_on_ge f g : eq_on h w f g -> le_on h w g f.
Proof. intros H1 r c Hrc. specialize (H1 r c Hrc). lia. Qed.

Lemma dilate_ext f g :
  eq_on h w f g -> eq_on h w (dilate_at h w offs f) (dilate_at h w offs g).
Proof.
  intros Hfg. apply le_on_antisym; apply dilate_mono;
    [by apply eq_on_le | by apply eq_on_ge].
Qed.

Lemma erode_ext f g :
  eq_on h w f g -> eq_on h w (erode_at h w offs f) (erode_at h w offs g).
Proof.
  intros Hfg. apply le_on_antisym; apply erode_mono;
    [by apply eq_on_le | by apply eq_on_ge].
Qed.

Lemma dilate_erode_dilate f :
  bounded h w f ->
  eq_on h w (dilate_at h w offs (erode_at h w offs (dilate_at h w offs f)))
           (dilate_at h w offs f).
Proof.
  intros Hf. apply le_on_antisym.
  - apply open_le, dilate_bounded, Hf.
  - apply dilate_mono, close_ge, Hf.
Qed.

Lemma erode_dilate_erode f :
  bounded h w f ->
  eq_on h w (erode_at h w offs (dilate_at h w offs (erode_at h w offs f)))
           (erode_at h w offs f).
Proof.
  intros Hf. apply le_on_antisym.
  - apply erode_mono, open_le, Hf.
  - apply close_ge, erode_bounded, Hf.
Qed.

(** Closing followed by opening is idempotent. *)
Lemma open_close_idempotent f :
  bounded h w f ->
  eq_on h w
    (open_at h w offs (close_at h w offs (open_at h w offs (close_at h w offs f))))
    (open_at h w offs (close_at h w offs f)).
Proof.
  intros Hf. unfold open_at, close_at.
  assert (bounded h w (dilate_at h w offs f)) as HD by by apply dilate_bounded.
  assert (bounded h w (erode_at h w offs (dilate_at h w offs f))) as Hg
    by by apply erode_bounded.
  assert (bounded h w (erode_at h w offs (erode_at h w offs (dilate_at h w offs f))))
    as HEg by by apply erode_bounded.
  assert (bounded h w
            (dilate_at h w offs
               (erode_at h w offs (erode_at h w offs (dilate_at h w offs f)))))
    as Hc by by apply dilate_bounded.
  apply le_on_antisym.
  - (* the opened array lies below the closed one, which closing fixes *)
    apply dilate_mono, erode_mono.
    eapply le_on_trans.
    + apply erode_mono, dilate_mono, open_le, Hg.
    + apply eq_on_le, erode_dilate_erode, HD.
  - (* closing grows the cleaned array, and opening fixes it *)
    eapply le_on_trans.
    + apply eq_on_ge, dilate_erode_dilate, HEg.
    + apply dilate_mono, erode_mono, close_ge, Hc.
Qed.
End Lattice.

(** ** From functions back to arrays *)

Lemma raw_uint8 m r c : uint8_image m -> uint8 (raw m r c).
Proof.
  intros Hm. unfold raw.
  destruct (m !! Z.to_nat r) as [row|] eqn:Hrow.
  - rewrite (list_lookup_total_correct _ _ _ Hrow).
    assert (Forall uint8 row) as Hu by (eapply Forall_lookup_1 in Hm; eauto).
    destruct (row !! Z.to_nat c) as [v|] eqn:Hv.
    + rewrite (list_lookup_total_correct _ _ _ Hv).
      eapply Forall_lookup_1 in Hu; eauto.
    + rewrite list_lookup_total_alt, Hv. simpl. unfold uint8. lia.
  - rewrite (list_lookup_total_alt m), Hrow. simpl.
    rewrite list_lookup_total_alt, lookup_nil. simpl. unfold uint8. lia.
Qed.

Lemma raw_bounded m : uint8_image m -> bounded (rows m) (cols m) (raw m).
Proof. intros Hm r c _. by apply raw_uint8. Qed.

Lemma dilate_tabulate k h w f :
  dilate k (tabulate h w f) = tabulate h w (dilate_at h w (kernel_offsets k) f).
Proof.
  destruct h as [|h']; [reflexivity|].
  unfold dilate. rewrite rows_tabulate, cols_tabulate by lia.
  apply tabulate_ext, dilate_ext. intros r c Hrc. by apply raw_tabulate.
Qed.

Lemma erode_tabulate k h w f :
  erode k (tabulate h w f) = tabulate h w (erode_at h w (kernel_offsets k) f).
Proof.
  destruct h as [|h']; [reflexivity|].
  unfold erode. rewrite rows_tabulate, cols_tabulate by lia.
  apply tabulate_ext, erode_ext. intros r c Hrc. by apply raw_tabulate.
Qed.

Lemma clean_tabulate h w f :
  clean (tabulate h w f) =
  tabulate h w
    (dilate_at h w (kernel_offsets (ones 5))
       (erode_at h w (kernel_offsets (ones 5))
          (erode_at h w (kernel_offsets (ones 5))
             (dilate_at h w (kernel_offsets (ones 5)) f)))).
Proof.
  unfold clean, morph_open, morph_close.
  by rewrite dilate_tabulate, !erode_tabulate, dilate_tabulate.
Qed.

Lemma clean_unfold m :
  clean m =
  tabulate (rows m) (cols m)
    (dilate_at (rows m) (cols m) (kernel_offsets (ones 5))
       (erode_at (rows m) (cols m) (kernel_offsets (ones 5))
          (erode_at (rows m) (cols m) (kernel_offsets (ones 5))
             (dilate_at (rows m) (cols m) (kernel_offsets (ones 5)) (raw m))))).
Proof.
  unfold clean, morph_open, morph_close.
  unfold dilate at 2. by rewrite !erode_tabulate, dilate_tabulate.
Qed.

Lemma square5_symmetric : symmetric (kernel_offsets (ones 5)).
Proof.
  intros dr dc Ho.
  assert (Forall (fun o => (- o.1, - o.2) ∈ kernel_offsets (ones 5))
                 (kernel_offsets (ones 5))) as Hall.
  { vm_compute kernel_offsets. repeat constructor. }
  rewrite Forall_forall in Hall. apply (Hall (dr, dc) Ho).
Qed.

Lemma clean_idempotent_uint8 m : uint8_image m -> clean (clean m) = clean m.
Proof.
  intros Hm. rewrite (clean_unfold m) at 1. rewrite clean_tabulate, clean_unfold.
  apply tabulate_ext.
  apply open_close_idempotent; [apply square5_symmetric | by apply raw_bounded].
Qed.

(** On the sample, closing fills the hole and opening removes the speck;
    near the border the block grows to the edge. *)
Example clean_sample_mask :
  clean sample_mask
  = replicate 7 (replicate 9 255) ++ replicate 3 (replicate 9 0).
Proof. vm_compute. reflexivity. Qed.

Lemma binary_mask_uint8 m : binary_mask m -> uint8_image m.
Proof.
  intros [_ Hb]. unfold uint8_image.
  eapply Forall_impl; [exact Hb|]. intros row Hrow. simpl in *.
  eapply Forall_impl; [exact Hrow|]. intros v [-> | ->]; unfold uint8; lia.
Qed.

(** ** Constant arrays *)

Lemma const_image_replicate h w v : const_image h w v = replicate h (replicate w v).
Proof.
  unfold const_image, tabulate.
  assert (forall (A : Type) (x : A) n, (fun _ : Z => x) <$> seqZ 0 (Z.of_nat n) = replicate n x)
    as Hrep.
  { intros A x n. apply list_eq. intros i. rewrite list_lookup_fmap.
    destruct (decide (i < n)%nat).
    - rewrite lookup_seqZ_lt, lookup_replicate_2 by lia. done.
    - rewrite lookup_seqZ_ge by lia. symmetry. apply lookup_replicate_None. lia. }
  by rewrite !Hrep.
Qed.

Lemma dilate_at_const h w offs v r c :
  (0, 0) ∈ offs -> 0 <= v -> in_bounds h w r c = true ->
  dilate_at h w offs (fun _ _ => v) r c = v.
Proof.
  intros Ho Hv Hrc. apply Z.le_antisymm.
  - apply dilate_at_le; [done|]. intros; lia.
  - apply (dilate_at_ge h w offs (fun _ _ => v) r c 0 0 Ho).
    by rewrite !Z.add_0_r.
Qed.

Lemma erode_at_const h w offs v r c :
  (0, 0) ∈ offs -> v <= 255 -> in_bounds h w r c = true ->
  erode_at h w offs (fun _ _ => v) r c = v.
Proof.
  intros Ho Hv Hrc. apply Z.le_antisymm.
  - apply (erode_at_le h w offs (fun _ _ => v) r c 0 0 Ho).
    by rewrite !Z.add_0_r.
  - apply erode_at_ge; [done|]. intros; lia.
Qed.

Lemma square5_centre : (0, 0) ∈ kernel_offsets (ones 5).
Proof. vm_compute kernel_offsets. do 12 right. left. Qed.

Lemma clean_const h w v : uint8 v -> clean (const_image h w v) = const_image h w v.
Proof.
  intros [Hlo Hhi]. unfold const_image. rewrite clean_tabulate.
  apply tabulate_ext. intros r c Hrc.
  pose proof square5_centre as Ho.
  set (offs := kernel_offsets (ones 5)) in *.
  assert (eq_on h w (dilate_at h w offs (fun _ _ => v)) (fun _ _ => v)) as H1
    by (intros ???; by apply dilate_at_const).
  assert (eq_on h w (erode_at h w offs (fun _ _ => v)) (fun _ _ => v)) as H2
    by (intros ???; by apply erode_at_const).
  assert (eq_on h w (erode_at h w offs (dilate_at h w offs (fun _ _ => v)))
                    (fun _ _ => v)) as H3.
  { intros r1 c1 Hrc1. rewrite (erode_ext h w offs _ _ H1 r1 c1 Hrc1). by apply H2. }
  assert (eq_on h w (erode_at h w offs
                       (erode_at h w offs (dilate_at h w offs (fun _ _ => v))))
                    (fun _ _ => v)) as H4.
  { intros r1 c1 Hrc1. rewrite (erode_ext h w offs _ _ H3 r1 c1 Hrc1). by apply H2. }
  rewrite (dilate_ext h w offs _ _ H4 r c Hrc). by apply H1.
Qed.

Lemma segment_uniform h w p :
  segment (replicate h (replicate w p)) =
  const_image h w (if 230 <? bgr2gray p then 0 else 255).
Proof.
  unfold segment, cvtColor_BGR2GRAY, threshold_binary_inv.
  rewrite !fmap_replicate, <- const_image_replicate.
  apply clean_const. unfold uint8. destruct (230 <? bgr2gray p); lia.
Qed.

Lemma filter_eq_absent (v : Z) (l : list Z) :
  Forall (fun x => x <> v) l -> filter (fun x => x = v) l = [].
Proof.
  induction 1 as [|x l Hx _ IH]; [done|]. by rewrite filter_cons_False.
Qed.

Lemma count_eq_const h w v u : u <> v -> count_eq v (const_image h w u) = 0.
Proof.
  intros Hne. rewrite const_image_replicate. unfold count_eq.
  rewrite filter_eq_absent; [done|].
  apply Forall_concat, Forall_replicate, Forall_replicate, Hne.
Qed.

(** ** Thresholding *)

Lemma cell_threshold t mv (gray : image) r c :
  cell (threshold_binary_inv t mv gray) r c =
  (fun v => if t <? v then 0 else mv) <$> cell gray r c.
Proof.
  unfold cell, threshold_binary_inv. rewrite list_lookup_fmap.
  destruct (gray !! r) as [row|]; [|done]. simpl. by rewrite list_lookup_fmap.
Qed.

Lemma uniform_replicate {A : Type} (p : A) (m : list (list A)) :
  rectangular m -> uniform p m -> m = replicate (rows m) (replicate (cols m) p).
Proof.
  intros Hrect Hun. symmetry. apply replicate_as_Forall. split; [done|].
  unfold rectangular in Hrect. unfold uniform in Hun.
  rewrite Forall_forall in Hrect, Hun. apply Forall_forall. intros row Hrow.
  apply replicate_as_Forall. split; [by apply Hrect|].
  eapply Forall_impl; [by apply Hun|]. done.
Qed.

Ltac solve_mask :=
  repeat first
    [ apply Forall_nil_2 | apply Forall_cons_2 | reflexivity
    | by left | by right ].

(** ** Thresholding, clean-up and uniform images *)

(** C6. Cleaning (closing, then opening, with the 5 by 5 square) a binary
    mask twice gives the same mask as cleaning it once. *)
Theorem C6_cleaner_idempotent (m : image) :
  binary_mask m -> clean (clean m) = clean m.
Proof. intros Hm. by apply clean_idempotent_uint8, binary_mask_uint8. Qed.

Lemma C6_cleaner_idempotent_witness :
  binary_mask sample_mask /\ clean (clean sample_mask) = clean sample_mask.
Proof.
  assert (binary_mask sample_mask) as Hm by (split; solve_mask).
  split; [exact Hm | exact (C6_cleaner_idempotent sample_mask Hm)].
Defined.

(** C9. A uniformly white image is segmented to an all-background mask
    with no foreground pixel, and a uniformly black image to an
    all-foreground mask. *)
Theorem C9_uniform_segmentation (img : color_image) :
  rectangular img ->
  (uniform (255, 255, 255) img ->
     segment img = const_image (rows img) (cols img) 0 /\
     count_eq 255 (segment img) = 0) /\
  (uniform (0, 0, 0) img ->
     segment img = const_image (rows img) (cols img) 255).
Proof.
  intros Hrect. split.
  - intros Hun. pose proof (uniform_replicate _ _ Hrect Hun) as Heq.
    generalize dependent (rows img). generalize dependent (cols img).
    intros w h ->. rewrite segment_uniform.
    change (230 <? bgr2gray (255, 255, 255)) with true.
    split; [done|]. by apply count_eq_const.
  - intros Hun. pose proof (uniform_replicate _ _ Hrect Hun) as Heq.
    generalize dependent (rows img). generalize dependent (cols img).
    intros w h ->. by rewrite segment_uniform.
Qed.

Lemma C9_uniform_segmentation_witness :
  (rectangular (replicate 3%nat (replicate 4%nat (255, 255, 255))) /\
   uniform (255, 255, 255) (replicate 3%nat (replicate 4%nat (255, 255, 255))) /\
   segment (replicate 3%nat (replicate 4%nat (255, 255, 255))) = const_image 3 4 0) /\
  (rectangular (replicate 3%nat (replicate 4%nat (0, 0, 0))) /\
   uniform (0, 0, 0) (replicate 3%nat (replicate 4%nat (0, 0, 0))) /\
   segment (replicate 3%nat (replicate 4%nat (0, 0, 0))) = const_image 3 4 255).
Proof.
  assert (rectangular (replicate 3%nat (replicate 4%nat (255, 255, 255)))) as Hr1
    by solve_mask.
  assert (uniform (255, 255, 255) (replicate 3%nat (replicate 4%nat (255, 255, 255))))
    as Hu1 by solve_mask.
  assert (rectangular (replicate 3%nat (replicate 4%nat (0, 0, 0)))) as Hr2
    by solve_mask.
  assert (uniform (0, 0, 0) (replicate 3%nat (replicate 4%nat (0, 0, 0))))
    as Hu2 by solve_mask.
  split.
  - split; [exact Hr1|]. split; [exact Hu1|].
    exact (proj1 (proj1 (C9_uniform_segmentation _ Hr1) Hu1)).
  - split; [exact Hr2|]. split; [exact Hu2|].
    exact (proj2 (C9_uniform_segmentation _ Hr2) Hu2).
Defined.

(** ** The encoder *)

Lemma raw_lookup (m : image) (i j : nat) row v :
  m !! i = Some row -> row !! j = Some v -> raw m (Z.of_nat i) (Z.of_nat j) = v.
Proof.
  intros Hrow Hv. unfold raw. rewrite !Nat2Z.id.
  rewrite (list_lookup_total_correct _ _ _ Hrow).
  by apply list_lookup_total_correct.
Qed.

Lemma encode_mask_rect (m : image) :
  rectangular m ->
  encode_mask m = (fun row : list Z => (fun v => (255, 255, 255, v)) <$> row) <$> m.
Proof.
  intros Hrect. unfold encode_mask, shape. rewrite !fmap_replicate. simpl.
  apply list_eq. intros i. rewrite list_lookup_imap, list_lookup_fmap.
  destruct (m !! i) as [row|] eqn:Hrow.
  - assert (i < rows m)%nat as Hi by (by eapply lookup_lt_Some).
    rewrite lookup_replicate_2 by done. simpl. f_equal.
    assert (length row = cols m) as Hlen
      by (unfold rectangular in Hrect; eapply Forall_lookup_1 in Hrect; eauto).
    apply list_eq. intros j. rewrite list_lookup_imap, list_lookup_fmap.
    destruct (row !! j) as [v|] eqn:Hv.
    + assert (j < cols m)%nat as Hj by (rewrite <- Hlen; by eapply lookup_lt_Some).
      rewrite lookup_replicate_2 by done. simpl.
      by rewrite (raw_lookup m i j row v).
    + apply lookup_ge_None in Hv.
      rewrite (proj1 (lookup_replicate_None (cols m) _ j)) by lia. done.
  - apply lookup_ge_None in Hrow.
    rewrite (proj1 (lookup_replicate_None (rows m) _ i)) by (unfold rows; lia). done.
Qed.

Lemma alpha_channel_encode (m : image) : rectangular m -> alpha_channel (encode_mask m) = m.
Proof.
  intros Hrect. rewrite encode_mask_rect by done. unfold alpha_channel.
  rewrite <- list_fmap_compose. rewrite <- (list_fmap_id m) at 2.
  apply list_fmap_ext. intros _ row _. simpl.
  rewrite <- list_fmap_compose. rewrite <- (list_fmap_id row) at 2.
  by apply list_fmap_ext.
Qed.

(** C1. The picture written for a binary mask has the shape of the mask,
    is white in its three colour channels, and its alpha channel is the
    mask itself, so every alpha value is 0 or 255. *)
Theorem C1_encoder_round_trip (fs : gmap string file) (mask : image) (path : string) :
  binary_mask mask ->
  exists px,
    save_mask fs mask path !! path = Some (Picture px) /\
    shape px = shape mask /\
    rectangular px /\
    Forall (Forall (fun p => exists a, p = (255, 255, 255, a) /\ (a = 0 \/ a = 255))) px /\
    alpha_channel px = mask.
Proof.
  intros [Hrect Hbin]. exists (encode_mask mask).
  split; [apply lookup_insert_eq|].
  rewrite (encode_mask_rect mask Hrect) at 1 2 3.
  split; [|split; [|split]].
  - unfold shape, rows, cols. rewrite length_fmap. f_equal.
    destruct mask as [|row rest]; [done|]. simpl. by rewrite length_fmap.
  - unfold rectangular in *. apply Forall_fmap.
    eapply Forall_impl; [exact Hrect|]. intros row Hlen. simpl.
    rewrite length_fmap, Hlen.
    destruct mask as [|row0 rest]; [done|]. simpl. by rewrite length_fmap.
  - apply Forall_fmap. eapply Forall_impl; [exact Hbin|]. intros row Hrow. simpl.
    apply Forall_fmap. eapply Forall_impl; [exact Hrow|]. intros v Hv. simpl. eauto.
  - by apply alpha_channel_encode.
Qed.

Lemma C1_encoder_round_trip_witness :
  binary_mask sample_mask /\
  exists px,
    save_mask ∅ sample_mask "out.png" !! "out.png" = Some (Picture px) /\
    shape px = shape sample_mask /\
    rectangular px /\
    Forall (Forall (fun p => exists a, p = (255, 255, 255, a) /\ (a = 0 \/ a = 255))) px /\
    alpha_channel px = sample_mask.
Proof.
  assert (binary_mask sample_mask) as Hm by (split; solve_mask).
  split; [exact Hm | exact (C1_encoder_round_trip ∅ sample_mask "out.png" Hm)].
Defined.

(** ** Rounding to 53 bits *)

Lemma pow2_split s : 0 < s -> 2 ^ s = 2 * 2 ^ (s - 1) /\ 0 < 2 ^ (s - 1).
Proof.
  intros Hs. split.
  - replace s with (Z.succ (s - 1)) at 1 by lia. apply Z.pow_succ_r. lia.
  - apply Z.pow_pos_nonneg; lia.
Qed.

Lemma round_half_even_bounds x s :
  x / 2 ^ s <= round_half_even x s <= x / 2 ^ s + 1.
Proof.
  unfold round_half_even.
  destruct (_ <? _); [lia|]. destruct (_ <? _); [lia|]. destruct (Z.even _); lia.
Qed.

Lemma round_half_even_mono x y s :
  0 < s -> x <= y -> round_half_even x s <= round_half_even y s.
Proof.
  intros Hs Hxy. destruct (pow2_split s Hs) as [HP HH].
  unfold round_half_even.
  assert (0 < 2 ^ s) as HPpos by lia.
  pose proof (Z.div_mod x (2 ^ s) ltac:(lia)) as Hx.
  pose proof (Z.div_mod y (2 ^ s) ltac:(lia)) as Hy.
  pose proof (Z.mod_pos_bound x (2 ^ s) HPpos) as Hrx.
  pose proof (Z.mod_pos_bound y (2 ^ s) HPpos) as Hry.
  pose proof (Z.div_le_mono x y (2 ^ s) HPpos Hxy) as Hq.
  revert Hx Hy Hrx Hry Hq.
  generalize (x / 2 ^ s) (x mod 2 ^ s) (y / 2 ^ s) (y mod 2 ^ s).
  intros qx rx qy ry Hx Hy Hrx Hry Hq.
  destruct (Z.eq_dec qx qy) as [->|Hne].
  - assert (rx <= ry) by lia.
    repeat match goal with
           | |- context [?a <? ?b] => destruct (Z.ltb_spec a b)
           end; destruct (Z.even qy); lia.
  - repeat match goal with
           | |- context [?a <? ?b] => destruct (Z.ltb_spec a b)
           end; destruct (Z.even qx); destruct (Z.even qy); lia.
Qed.

Lemma round_half_even_error x s :
  0 < s ->
  x - 2 ^ (s - 1) <= round_half_even x s * 2 ^ s <= x + 2 ^ (s - 1).
Proof.
  intros Hs. destruct (pow2_split s Hs) as [HP HH].
  unfold round_half_even.
  assert (0 < 2 ^ s) as HPpos by lia.
  pose proof (Z.div_mod x (2 ^ s) ltac:(lia)) as Hx.
  pose proof (Z.mod_pos_bound x (2 ^ s) HPpos) as Hrx.
  revert Hx Hrx. generalize (x / 2 ^ s) (x mod 2 ^ s). intros q r Hx Hrx.
  repeat match goal with
         | |- context [?a <? ?b] => destruct (Z.ltb_spec a b)
         end; try destruct (Z.even q); lia.
Qed.

Lemma bit_length_spec x : 0 < x -> 2 ^ (bit_length x - 1) <= x < 2 ^ bit_length x.
Proof.
  intros Hx. unfold bit_length. destruct (Z.leb_spec x 0); [lia|].
  replace (Z.log2 x + 1 - 1) with (Z.log2 x) by lia.
  replace (Z.log2 x + 1) with (Z.succ (Z.log2 x)) by lia.
  by apply Z.log2_spec.
Qed.

Lemma bit_length_nonneg x : 0 <= bit_length x.
Proof.
  unfold bit_length. destruct (Z.leb_spec x 0); [lia|].
  pose proof (Z.log2_nonneg x). lia.
Qed.

Lemma bit_length_mono x y : x <= y -> bit_length x <= bit_length y.
Proof.
  intros Hxy. unfold bit_length.
  destruct (Z.leb_spec x 0), (Z.leb_spec y 0); try lia.
  - pose proof (Z.log2_nonneg y). lia.
  - pose proof (Z.log2_le_mono x y Hxy). lia.
Qed.

Lemma bit_length_lt x n : 0 <= n -> x < 2 ^ n -> bit_length x <= n.
Proof.
  intros Hn Hx. unfold bit_length. destruct (Z.leb_spec x 0); [lia|].
  assert (Z.log2 x < n) by (apply Z.log2_lt_pow2; lia). lia.
Qed.

Lemma bit_length_ge x n : 0 <= n -> 2 ^ n <= x -> n < bit_length x.
Proof.
  intros Hn Hx.
  assert (0 < x) by (pose proof (Z.pow_pos_nonneg 2 n); lia).
  destruct (bit_length_spec x) as [_ Hhi]; [done|].
  apply (Z.pow_lt_mono_r_iff 2); [lia| apply bit_length_nonneg | lia].
Qed.

Lemma round53_small x : x < 2 ^ 53 -> round53 x = x.
Proof.
  intros Hx. unfold round53.
  pose proof (bit_length_lt x 53 ltac:(lia) Hx).
  destruct (Z.leb_spec (bit_length x - 53) 0); [done | lia].
Qed.

Lemma round53_large x :
  53 < bit_length x ->
  round53 x = round_half_even x (bit_length x - 53) * 2 ^ (bit_length x - 53).
Proof.
  intros Hx. unfold round53.
  destruct (Z.leb_spec (bit_length x - 53) 0); [lia | done].
Qed.

Lemma round53_range x :
  53 < bit_length x -> 2 ^ (bit_length x - 1) <= round53 x <= 2 ^ bit_length x.
Proof.
  intros Hbl. rewrite round53_large by done.
  assert (0 < x) as Hx.
  { destruct (Z.leb_spec x 0) as [Hle|]; [|done].
    unfold bit_length in Hbl. apply Z.leb_le in Hle. rewrite Hle in Hbl. lia. }
  destruct (bit_length_spec x Hx) as [Hlo Hhi].
  set (n := bit_length x) in *. set (s := n - 53).
  assert (0 < 2 ^ s) as HP by (apply Z.pow_pos_nonneg; lia).
  assert (2 ^ (n - 1) = 2 ^ 52 * 2 ^ s) as E1
    by (rewrite <- Z.pow_add_r by lia; f_equal; lia).
  assert (2 ^ n = 2 ^ 53 * 2 ^ s) as E2
    by (rewrite <- Z.pow_add_r by lia; f_equal; lia).
  pose proof (round_half_even_bounds x s) as [Hb1 Hb2].
  assert (2 ^ 52 <= x / 2 ^ s).
  { apply Z.div_le_lower_bound; lia. }
  assert (x / 2 ^ s < 2 ^ 53).
  { apply Z.div_lt_upper_bound; lia. }
  rewrite E1, E2. split; apply Z.mul_le_mono_nonneg_r; lia.
Qed.

Lemma round53_mono x y : x <= y -> round53 x <= round53 y.
Proof.
  intros Hxy. pose proof (bit_length_mono x y Hxy) as Hbl.
  destruct (Z.le_gt_cases (bit_length y) 53) as [Hy|Hy].
  - rewrite !round53_small; [done| |].
    + destruct (Z.le_gt_cases y 0); [lia|].
      destruct (bit_length_spec y) as [_ Hhi]; [lia|].
      assert (2 ^ bit_length y <= 2 ^ 53)
        by (apply Z.pow_le_mono_r; lia). lia.
    + destruct (Z.le_gt_cases x 0); [lia|].
      destruct (bit_length_spec x) as [_ Hhi]; [lia|].
      assert (2 ^ bit_length x <= 2 ^ 53)
        by (apply Z.pow_le_mono_r; [lia | lia]). lia.
  - pose proof (round53_range y Hy) as [Hylo _].
    destruct (Z.le_gt_cases (bit_length x) 53) as [Hx|Hx].
    + assert (x < 2 ^ 53) as Hx53.
      { destruct (Z.le_gt_cases x 0); [lia|].
        destruct (bit_length_spec x) as [_ Hhi]; [lia|].
        assert (2 ^ bit_length x <= 2 ^ 53) by (apply Z.pow_le_mono_r; lia). lia. }
      rewrite (round53_small x) by done.
      assert (2 ^ 53 <= 2 ^ (bit_length y - 1)) by (apply Z.pow_le_mono_r; lia).
      lia.
    + destruct (Z.eq_dec (bit_length x) (bit_length y)) as [Heq|Hne].
      * rewrite !round53_large by done. rewrite Heq.
        apply Z.mul_le_mono_nonneg_r; [apply Z.pow_nonneg; lia|].
        apply round_half_even_mono; lia.
      * pose proof (round53_range x Hx) as [_ Hxhi].
        assert (2 ^ bit_length x <= 2 ^ (bit_length y - 1))
          by (apply Z.pow_le_mono_r; lia).
        lia.
Qed.

Lemma round53_nonneg x : 0 <= x -> 0 <= round53 x.
Proof.
  intros Hx. change 0 with (round53 0) at 1. by apply round53_mono.
Qed.

(** The product of a multiple of 100 with the literal 0.01 rounds to the
    exact quotient. *)
Lemma round53_hundredth c :
  0 <= c < 2 ^ 52 -> round53 (c * 2 ^ 59 + 12 * c) = c * 2 ^ 59.
Proof.
  intros [Hc0 Hc].
  destruct (Z.eq_dec c 0) as [->|Hne]; [reflexivity|].
  set (y := c * 2 ^ 59 + 12 * c).
  assert (2 ^ 59 <= y) as Hy59 by (unfold y; lia).
  assert (y < 2 ^ 112) as Hy112 by (unfold y; lia).
  pose proof (bit_length_ge y 59 ltac:(lia) Hy59) as Hn1.
  pose proof (bit_length_lt y 112 ltac:(lia) Hy112) as Hn2.
  destruct (bit_length_spec y ltac:(lia)) as [Hlo Hhi].
  rewrite round53_large by lia.
  set (s := bit_length y - 53) in *.
  assert (7 <= s <= 59) as Hs by lia.
  destruct (pow2_split s ltac:(lia)) as [HP HH].
  assert (2 ^ bit_length y = 2 ^ 53 * 2 ^ s) as E2
    by (rewrite <- Z.pow_add_r by lia; f_equal; lia).
  assert (2 ^ 59 = 2 ^ (59 - s) * 2 ^ s) as E3
    by (rewrite <- Z.pow_add_r by lia; f_equal; lia).
  assert (64 * c < 2 ^ s) as Hsmall.
  { assert (c * 2 ^ 59 < 2 ^ 53 * 2 ^ s) as Hlt by (rewrite E2 in Hhi; unfold y in Hhi; lia).
    change (2 ^ 59) with (64 * 2 ^ 53) in Hlt.
    apply (Z.mul_lt_mono_pos_r (2 ^ 53)); lia. }
  assert (y = c * 2 ^ (59 - s) * 2 ^ s + 12 * c) as Hdecomp.
  { unfold y. rewrite E3 at 1. lia. }
  assert (y / 2 ^ s = c * 2 ^ (59 - s)) as Hq.
  { symmetry. apply (Z.div_unique_pos y (2 ^ s) _ (12 * c)); lia. }
  assert (y mod 2 ^ s = 12 * c) as Hr.
  { symmetry. apply (Z.mod_unique_pos y (2 ^ s) (c * 2 ^ (59 - s))); lia. }
  unfold round_half_even. rewrite Hq, Hr.
  destruct (Z.ltb_spec (12 * c) (2 ^ (s - 1))); [|lia].
  rewrite E3. lia.
Qed.

(** The density test of the base layer: a count is below the product
    [n * 0.01] exactly when it is below one hundredth of [n]. *)
Lemma density_test c n :
  0 <= c <= n -> n < 2 ^ 52 ->
  float_ltb (float_of_int c) (float_mul (float_of_int n) f0_01) = true
  <-> 100 * c < n.
Proof.
  intros Hc Hn. unfold float_ltb, float_mul, float_of_int, f0_01. simpl num. simpl exp2.
  rewrite (round53_small c), (round53_small n) by lia.
  rewrite Z.ltb_lt. change (2 ^ 0) with 1. change (2 ^ (0 + 59)) with (2 ^ 59).
  set (M := 5764607523034235).
  assert (100 * M = 2 ^ 59 + 12) as HM by reflexivity.
  split.
  - intros Hlt. destruct (Z.lt_ge_cases (100 * c) n) as [|Hge]; [done|].
    exfalso.
    assert (n * M <= c * 2 ^ 59 + 12 * c) as Hle by lia.
    apply round53_mono in Hle. rewrite round53_hundredth in Hle by lia. lia.
  - intros Hlt.
    assert (c * 2 ^ 59 + 12 * c + M <= n * M) as Hx by lia.
    destruct (Z.le_gt_cases (bit_length (n * M)) 53) as [Hbl|Hbl].
    + rewrite round53_small; [lia|].
      destruct (bit_length_spec (n * M)) as [_ Hhi]; [lia|].
      assert (2 ^ bit_length (n * M) <= 2 ^ 53) by (apply Z.pow_le_mono_r; lia).
      lia.
    + rewrite round53_large by done.
      set (s := bit_length (n * M) - 53) in *.
      assert (n * M < 2 ^ 105) as Hub by (unfold M; lia).
      pose proof (bit_length_lt (n * M) 105 ltac:(lia) Hub).
      pose proof (round_half_even_error (n * M) s ltac:(lia)) as [Herr _].
      assert (2 ^ (s - 1) <= 2 ^ 51) by (apply Z.pow_le_mono_r; lia).
      unfold M in *. lia.
Qed.

Lemma int_mul_mono_literal h a b e :
  0 <= h -> 0 <= a <= b -> 0 <= e ->
  int_mul h (Float a e) <= int_mul h (Float b e).
Proof.
  intros Hh Hab He. unfold int_mul, int_of_float, float_mul, float_of_int. simpl.
  apply Z.div_le_mono; [apply Z.pow_pos_nonneg; lia|].
  apply round53_mono. apply Z.mul_le_mono_nonneg_l; [by apply round53_nonneg | lia].
Qed.

(** The cut rows for some heights; [180 * 0.35] rounds below 63. *)
Example cut_rows :
  (top_end 200, base_start 200, base_end 200) = (90, 10, 70) /\
  (top_end 10, base_start 10, base_end 10) = (4, 0, 3) /\
  base_end 180 = 62.
Proof. repeat split; vm_compute; reflexivity. Qed.

Lemma base_end_le_top_end h : 0 <= h -> base_end h <= top_end h.
Proof.
  intros Hh. unfold base_end, top_end, f0_35, f0_45.
  apply int_mul_mono_literal; lia.
Qed.

(** ** Region decomposition *)

Lemma zeros_like_lookup (m : image) (r : nat) :
  zeros_like m !! r =
  if bool_decide (r < rows m)%nat then Some (replicate (cols m) 0) else None.
Proof.
  unfold zeros_like. rewrite const_image_replicate. case_bool_decide.
  - by apply lookup_replicate_2.
  - apply lookup_replicate_None. lia.
Qed.

Lemma cell_assign_rows (m : image) (lo hi : Z) (r c : nat) :
  rectangular m ->
  cell (assign_rows (zeros_like m) m lo hi) r c =
  (fun v => if (lo <=? Z.of_nat r) && (Z.of_nat r <? hi) then v else 0) <$> cell m r c.
Proof.
  intros Hrect. unfold cell, assign_rows.
  rewrite list_lookup_imap, zeros_like_lookup.
  destruct (m !! r) as [row|] eqn:Hrow.
  - assert (r < rows m)%nat as Hr by (by eapply lookup_lt_Some).
    rewrite bool_decide_eq_true_2 by done. simpl.
    rewrite (list_lookup_total_correct _ _ _ Hrow).
    assert (length row = cols m) as Hlen
      by (unfold rectangular in Hrect; eapply Forall_lookup_1 in Hrect; eauto).
    destruct ((lo <=? Z.of_nat r) && (Z.of_nat r <? hi)).
    + by destruct (row !! c).
    + destruct (row !! c) as [v|] eqn:Hv; simpl.
      * apply lookup_replicate_2. rewrite <- Hlen. by eapply lookup_lt_Some.
      * apply lookup_replicate_None. apply lookup_ge_None in Hv. lia.
  - apply lookup_ge_None in Hrow.
    rewrite bool_decide_eq_false_2 by (unfold rows; lia). done.
Qed.

Lemma rows_assign_rows (dst src : image) lo hi : rows (assign_rows dst src lo hi) = rows dst.
Proof. unfold rows, assign_rows. apply length_imap. Qed.

Lemma top_end_nonneg h : 0 <= h -> 0 <= top_end h.
Proof.
  intros Hh. unfold top_end, int_mul, int_of_float, float_mul, float_of_int, f0_45. simpl.
  apply Z.div_pos; [|lia].
  apply round53_nonneg, Z.mul_nonneg_nonneg; [by apply round53_nonneg | lia].
Qed.

Lemma split_cells (mask : image) (ih : Z) :
  rectangular mask ->
  let h := Z.of_nat (rows mask) in
  exists top base bottom,
    split_clothing_layers mask ih
    = [("topLayer", top); ("baseLayer", base); ("bottom", bottom)] /\
    forall r c : nat,
      cell top r c
      = (fun v => if in_top_band h (Z.of_nat r) then v else 0) <$> cell mask r c /\
      cell base r c
      = (fun v => if in_base_band h (Z.of_nat r) then v else 0) <$> cell mask r c /\
      cell bottom r c
      = (fun v => if in_bottom_band h (Z.of_nat r) then v else 0) <$> cell mask r c.
Proof.
  intros Hrect h. eexists _, _, _. split; [reflexivity|]. intros r c.
  rewrite !cell_assign_rows by done. fold h.
  destruct (cell mask r c) as [v|] eqn:Hv; [|done]. simpl.
  assert (Z.of_nat r < h) as Hr.
  { unfold cell in Hv. destruct (mask !! r) as [row|] eqn:Hrow; [|done].
    apply lookup_lt_Some in Hrow. unfold h, rows. lia. }
  unfold in_top_band, in_base_band, in_bottom_band.
  repeat split; f_equal;
    repeat match goal with
           | |- context [?a <=? ?b] => destruct (Z.leb_spec a b)
           | |- context [?a <? ?b] => destruct (Z.ltb_spec a b)
           end; simpl; try done; lia.
Qed.

Lemma binary_mask_rectangular (m : image) : binary_mask m -> rectangular m.
Proof. by intros [? _]. Qed.

(** C10. The foreground pixels of the top layer and of the bottom layer
    are disjoint and together are the foreground pixels of the mask, and
    every foreground pixel of the base layer is one of the top layer. *)
Theorem C10_mask_partition (mask : image) (ih : Z) :
  binary_mask mask ->
  exists top base bottom,
    split_clothing_layers mask ih
    = [("topLayer", top); ("baseLayer", base); ("bottom", bottom)] /\
    forall r c : nat,
      (foreground mask r c <-> foreground top r c \/ foreground bottom r c) /\
      ~ (foreground top r c /\ foreground bottom r c) /\
      (foreground base r c -> foreground top r c).
Proof.
  intros Hmask.
  destruct (split_cells mask ih (binary_mask_rectangular _ Hmask))
    as (top & base & bottom & Heq & Hcells).
  exists top, base, bottom. split; [exact Heq|]. intros r c.
  destruct (Hcells r c) as (Ht & Hb & Hbt).
  set (h := Z.of_nat (rows mask)) in *.
  unfold foreground. rewrite Ht, Hb, Hbt.
  destruct (cell mask r c) as [v|] eqn:Hv; simpl.
  - assert (0 <= Z.of_nat r < h) as Hr.
    { unfold cell in Hv. destruct (mask !! r) as [row|] eqn:Hrow; [|done].
      apply lookup_lt_Some in Hrow. unfold h, rows. lia. }
    pose proof (base_end_le_top_end h ltac:(lia)) as Hle.
    unfold in_top_band, in_base_band, in_bottom_band.
    repeat match goal with
           | |- context [?a <=? ?b] => destruct (Z.leb_spec a b)
           | |- context [?a <? ?b] => destruct (Z.ltb_spec a b)
           end; simpl; try lia;
      (split; [split; [auto | intros [?|?]; congruence]
              | split; [intros [? ?]; congruence | try done; congruence]]).
  - split; [split; [done | by intros [?|?]] | split; [by intros [? ?] | done]].
Qed.

Lemma C10_mask_partition_witness :
  binary_mask sample_mask /\
  exists top base bottom,
    split_clothing_layers sample_mask 10
    = [("topLayer", top); ("baseLayer", base); ("bottom", bottom)] /\
    forall r c : nat,
      (foreground sample_mask r c <-> foreground top r c \/ foreground bottom r c) /\
      ~ (foreground top r c /\ foreground bottom r c) /\
      (foreground base r c -> foreground top r c).
Proof.
  assert (binary_mask sample_mask) as Hm by (split; solve_mask).
  split; [exact Hm | exact (C10_mask_partition sample_mask 10 Hm)].
Defined.

(** ** The segmenter yields binary masks *)

Lemma maximum_binary l :
  Forall (fun v => v = 0 \/ v = 255) l -> maximum l = 0 \/ maximum l = 255.
Proof. induction 1 as [|v l Hv _ IH]; [by left|]. simpl. lia. Qed.

Lemma minimum_binary l :
  Forall (fun v => v = 0 \/ v = 255) l -> minimum l = 0 \/ minimum l = 255.
Proof. induction 1 as [|v l Hv _ IH]; [by right|]. simpl. lia. Qed.

Lemma window_binary h w offs b f r c :
  b = 0 \/ b = 255 -> binary_on h w f ->
  Forall (fun v => v = 0 \/ v = 255) (window h w offs b f r c).
Proof.
  intros Hb Hf. apply Forall_forall. intros v (dr & dc & _ & ->)%window_elem.
  unfold ext. destruct (in_bounds h w (r + dr) (c + dc)) eqn:Hd; [by apply Hf | done].
Qed.

Lemma dilate_at_binary h w offs f :
  binary_on h w f -> binary_on h w (dilate_at h w offs f).
Proof. intros Hf r c _. apply maximum_binary, window_binary; [by left | done]. Qed.

Lemma erode_at_binary h w offs f :
  binary_on h w f -> binary_on h w (erode_at h w offs f).
Proof. intros Hf r c _. apply minimum_binary, window_binary; [by right | done]. Qed.

Lemma tabulate_binary h w f : binary_on h w f -> binary_mask (tabulate h w f).
Proof.
  intros Hf. split.
  - destruct h as [|h']; [by apply Forall_nil_2|].
    unfold rectangular. rewrite cols_tabulate by lia.
    unfold tabulate. apply Forall_fmap, Forall_forall. intros r _. simpl.
    rewrite length_fmap, length_seqZ. lia.
  - unfold tabulate. apply Forall_fmap, Forall_forall. intros r Hr. simpl.
    apply Forall_fmap, Forall_forall. intros c Hc. simpl.
    apply elem_of_seqZ in Hr. apply elem_of_seqZ in Hc.
    apply Hf, in_bounds_spec. lia.
Qed.

Lemma raw_binary m : binary_mask m -> binary_on (rows m) (cols m) (raw m).
Proof.
  intros [Hrect Hbin] r c [Hr Hc]%in_bounds_spec.
  destruct (lookup_lt_is_Some_2 m (Z.to_nat r)) as [row Hrow]; [unfold rows in Hr; lia|].
  assert (length row = cols m) as Hlen
    by (unfold rectangular in Hrect; eapply Forall_lookup_1 in Hrect; eauto).
  destruct (lookup_lt_is_Some_2 row (Z.to_nat c)) as [v Hv]; [lia|].
  replace r with (Z.of_nat (Z.to_nat r)) by lia.
  replace c with (Z.of_nat (Z.to_nat c)) by lia.
  rewrite (raw_lookup m _ _ row v Hrow Hv).
  eapply Forall_lookup_1 in Hbin; [|exact Hrow].
  eapply Forall_lookup_1 in Hbin; [|exact Hv]. done.
Qed.

Lemma clean_binary m : binary_mask m -> binary_mask (clean m).
Proof.
  intros Hm. rewrite clean_unfold. apply tabulate_binary.
  by apply dilate_at_binary, erode_at_binary, erode_at_binary, dilate_at_binary,
    raw_binary.
Qed.

Lemma shape_clean (m : image) : rows (clean m) = rows m /\ cols (clean m) = cols m.
Proof.
  rewrite clean_unfold. split; [apply rows_tabulate|].
  destruct m as [|row rest]; [done|]. apply cols_tabulate. simpl. lia.
Qed.

Lemma threshold_binary (gray : image) :
  rectangular gray ->
  binary_mask (threshold_binary_inv 230 255 gray) /\
  rows (threshold_binary_inv 230 255 gray) = rows gray /\
  cols (threshold_binary_inv 230 255 gray) = cols gray.
Proof.
  intros Hrect.
  assert (cols (threshold_binary_inv 230 255 gray) = cols gray) as Hc.
  { destruct gray as [|row rest]; [done|]. simpl. by rewrite length_fmap. }
  split; [|split; [apply length_fmap | done]]. split.
  - unfold rectangular. rewrite Hc. unfold threshold_binary_inv.
    apply Forall_fmap. eapply Forall_impl; [exact Hrect|].
    intros row Hlen. simpl. by rewrite length_fmap.
  - unfold threshold_binary_inv. apply Forall_fmap, Forall_forall. intros row _. simpl.
    apply Forall_fmap, Forall_forall. intros v _. simpl.
    destruct (230 <? v); auto.
Qed.

(** The mask of a rectangular image is a binary mask of the same shape. *)
Lemma segment_binary (img : color_image) :
  rectangular img ->
  binary_mask (segment img) /\
  rows (segment img) = rows img /\ cols (segment img) = cols img.
Proof.
  intros Hrect. unfold segment.
  assert (rectangular (cvtColor_BGR2GRAY img) /\
          rows (cvtColor_BGR2GRAY img) = rows img /\
          cols (cvtColor_BGR2GRAY img) = cols img) as (Hg & Hgr & Hgc).
  { assert (cols (cvtColor_BGR2GRAY img) = cols img) as Hc.
    { destruct img as [|row rest]; [done|]. simpl. by rewrite length_fmap. }
    split; [|split; [apply length_fmap | done]].
    unfold rectangular. rewrite Hc. unfold cvtColor_BGR2GRAY.
    apply Forall_fmap. eapply Forall_impl; [exact Hrect|].
    intros row Hlen. simpl. by rewrite length_fmap. }
  destruct (threshold_binary _ Hg) as (Ht & Htr & Htc).
  destruct (shape_clean (threshold_binary_inv 230 255 (cvtColor_BGR2GRAY img)))
    as [Hsr Hsc].
  split; [by apply clean_binary|]. split; congruence.
Qed.

(** ** Layer significance *)

Lemma sum_binary_list (l : list Z) :
  Forall (fun v => v = 0 \/ v = 255) l ->
  foldr Z.add 0 l = 255 * Z.of_nat (length (filter (fun x => x = 255) l)).
Proof.
  induction 1 as [|v l Hv _ IH]; [done|]. simpl. rewrite IH.
  destruct Hv as [-> | ->].
  - rewrite filter_cons_False by done. lia.
  - rewrite filter_cons_True by done. simpl. lia.
Qed.

Lemma sum_binary (m : image) :
  Forall (Forall (fun v => v = 0 \/ v = 255)) m ->
  foldr Z.add 0 (concat m) = 255 * count_eq 255 m.
Proof. intros Hm. apply sum_binary_list. by apply Forall_concat. Qed.

Lemma length_concat_rectangular {A : Type} (m : list (list A)) (w : nat) :
  Forall (fun row => length row = w) m -> length (concat m) = (rows m * w)%nat.
Proof.
  induction 1 as [|row m Hrow _ IH]; [done|].
  simpl. rewrite length_app, IH, Hrow. unfold rows. lia.
Qed.

Lemma count_eq_bounds (v : Z) (m : image) :
  rectangular m -> 0 <= count_eq v m <= Z.of_nat (rows m) * Z.of_nat (cols m).
Proof.
  intros Hrect. unfold count_eq.
  pose proof (length_filter (fun x => x = v) (concat m)) as Hle.
  rewrite (length_concat_rectangular m (cols m) Hrect) in Hle. lia.
Qed.

Lemma np_sum_binary (m : image) :
  binary_mask m -> Z.of_nat (rows m) * Z.of_nat (cols m) < 2 ^ 52 ->
  np_sum m = 255 * count_eq 255 m.
Proof.
  intros [Hrect Hbin] Hsize. unfold np_sum. rewrite sum_binary by done.
  pose proof (count_eq_bounds 255 m Hrect).
  apply Z.mod_small. lia.
Qed.

Lemma np_sum_no_foreground (m : image) :
  binary_mask m -> count_eq 255 m = 0 -> np_sum m = 0.
Proof.
  intros [_ Hbin] Hcount. unfold np_sum. rewrite sum_binary by done.
  by rewrite Hcount.
Qed.

(** The layers of a binary mask are binary masks of its shape. *)
Lemma assign_rows_binary (m : image) (lo hi : Z) :
  binary_mask m ->
  binary_mask (assign_rows (zeros_like m) m lo hi) /\
  rows (assign_rows (zeros_like m) m lo hi) = rows m /\
  cols (assign_rows (zeros_like m) m lo hi) = cols m.
Proof.
  intros [Hrect Hbin].
  assert (forall i row, assign_rows (zeros_like m) m lo hi !! i = Some row ->
            length row = cols m /\ Forall (fun v => v = 0 \/ v = 255) row) as Hrows.
  { intros i row. unfold assign_rows. rewrite list_lookup_imap, zeros_like_lookup.
    case_bool_decide as Hi; [|done]. simpl.
    destruct (lookup_lt_is_Some_2 m i Hi) as [src Hsrc].
    rewrite (list_lookup_total_correct _ _ _ Hsrc).
    destruct ((lo <=? Z.of_nat i) && (Z.of_nat i <? hi)); intros [= <-].
    - split.
      + unfold rectangular in Hrect. eapply Forall_lookup_1 in Hrect; eauto.
      + eapply Forall_lookup_1 in Hbin; eauto.
    - split; [apply length_replicate|]. apply Forall_replicate. by left. }
  assert (rows (assign_rows (zeros_like m) m lo hi) = rows m) as Hr.
  { rewrite rows_assign_rows. unfold zeros_like. apply rows_tabulate. }
  assert (cols (assign_rows (zeros_like m) m lo hi) = cols m) as Hc.
  { destruct m as [|row0 rest]; [done|].
    destruct (lookup_lt_is_Some_2 (assign_rows (zeros_like (row0 :: rest)) (row0 :: rest) lo hi)
                0%nat) as [row Hrow]; [unfold rows in Hr; rewrite Hr; simpl; lia|].
    destruct (Hrows _ _ Hrow) as [Hlen _].
    destruct (assign_rows _ _ lo hi) as [|x xs]; [done|].
    simpl in Hrow. injection Hrow as ->. exact Hlen. }
  split; [|done]. split.
  - unfold rectangular. rewrite Hc. apply Forall_lookup. intros i row Hrow.
    by apply (Hrows i row).
  - apply Forall_lookup. intros i row Hrow. by apply (Hrows i row).
Qed.

Lemma split_layers_binary (mask : image) (ih : Z) (name : string) (m : image) :
  binary_mask mask -> (name, m) ∈ split_clothing_layers mask ih ->
  name ∈ ["topLayer"; "baseLayer"; "bottom"] /\
  binary_mask m /\ rows m = rows mask /\ cols m = cols mask.
Proof.
  intros Hmask. unfold split_clothing_layers.
  rewrite !elem_of_cons, elem_of_nil.
  intros [[= -> ->] | [[= -> ->] | [[= -> ->] | []]]];
    (split; [set_solver | by apply assign_rows_binary]).
Qed.

Lemma layer_accepted_base (m : image) (h w : Z) :
  binary_mask m -> h = Z.of_nat (rows m) -> w = Z.of_nat (cols m) ->
  0 < h * w < 2 ^ 52 ->
  layer_accepted "baseLayer" m h w = false <-> 100 * count_eq 255 m < h * w.
Proof.
  intros Hmask -> -> Hsize. unfold layer_accepted.
  rewrite bool_decide_eq_true_2 by done. simpl.
  pose proof (count_eq_bounds 255 m (binary_mask_rectangular _ Hmask)) as Hc.
  pose proof (density_test (count_eq 255 m) _ Hc (proj2 Hsize)) as Hd.
  destruct (float_ltb _ _).
  - split; [intros _; by apply Hd | done].
  - rewrite np_sum_binary by (done || lia).
    assert (~ 100 * count_eq 255 m < Z.of_nat (rows m) * Z.of_nat (cols m)) as Hn
      by (intros Hlt; apply Hd in Hlt; done).
    destruct (Z.eqb_spec (255 * count_eq 255 m) 0); split; try done; lia.
Qed.

Lemma layer_accepted_other (name : string) (m : image) (h w : Z) :
  binary_mask m -> name <> "baseLayer" ->
  Z.of_nat (rows m) * Z.of_nat (cols m) < 2 ^ 52 ->
  layer_accepted name m h w = false <-> count_eq 255 m = 0.
Proof.
  intros Hmask Hname Hsize. unfold layer_accepted.
  rewrite bool_decide_eq_false_2 by done. simpl.
  rewrite np_sum_binary by done.
  destruct (Z.eqb_spec (255 * count_eq 255 m) 0); split; try done; lia.
Qed.

Lemma layer_rejected_empty (name : string) (m : image) (h w : Z) :
  binary_mask m -> count_eq 255 m = 0 -> layer_accepted name m h w = false.
Proof.
  intros Hmask Hcount. unfold layer_accepted.
  destruct (_ && _); [done|]. by rewrite np_sum_no_foreground.
Qed.

Lemma save_layers_app fs style detail l1 l2 h w :
  save_layers fs style detail (l1 ++ l2) h w
  = save_layers (save_layers fs style detail l1 h w) style detail l2 h w.
Proof. unfold save_layers. apply foldl_app. Qed.

Lemma save_layers_single fs style detail name m h w :
  save_layers fs style detail [(name, m)] h w
  = if layer_accepted name m h w
    then save_mask fs m (mask_path style detail name) else fs.
Proof. reflexivity. Qed.

(** C4. [layer_accepted] guards [save_mask] in the loop over the layers.
    Among the layers of a mask of height [h] and width [w], the base layer
    is rejected exactly when its foreground count is below one hundredth
    of [h * w]; the top and bottom layers are rejected exactly when their
    foreground count is zero. *)
Theorem C4_density_rule (mask : image) (ih : Z) (name : string) (m : image) :
  binary_mask mask ->
  let h := Z.of_nat (rows mask) in
  let w := Z.of_nat (cols mask) in
  0 < h * w < 2 ^ 52 ->
  (name, m) ∈ split_clothing_layers mask ih ->
  (name = "baseLayer" ->
     (layer_accepted name m h w = false <-> 100 * count_eq 255 m < h * w)) /\
  (name = "topLayer" \/ name = "bottom" ->
     (layer_accepted name m h w = false <-> count_eq 255 m = 0)).
Proof.
  intros Hmask h w Hsize Hin.
  destruct (split_layers_binary mask ih name m Hmask Hin) as (_ & Hm & Hr & Hc).
  split.
  - intros ->. apply layer_accepted_base; [done | | | done].
    + unfold h. by rewrite Hr.
    + unfold w. by rewrite Hc.
  - intros Hname. apply layer_accepted_other; [done | | ].
    + by destruct Hname as [-> | ->].
    + rewrite Hr, Hc. fold h w. lia.
Qed.

Lemma C4_density_rule_witness :
  binary_mask sample_mask /\
  0 < 10 * 9 < 2 ^ 52 /\
  (layer_accepted "baseLayer"
     (assign_rows (zeros_like sample_mask) sample_mask (base_start 10) (base_end 10))
     10 9 = false
   <-> 100 * count_eq 255
         (assign_rows (zeros_like sample_mask) sample_mask (base_start 10) (base_end 10))
       < 10 * 9).
Proof.
  assert (binary_mask sample_mask) as Hm by (split; solve_mask).
  assert (0 < 10 * 9 < 2 ^ 52) as Hs by (vm_compute; split; reflexivity).
  split; [exact Hm|]. split; [exact Hs|].
  refine (proj1 (C4_density_rule sample_mask 10 "baseLayer" _ Hm Hs _) eq_refl).
  right. left.
Defined.

(** C5. A layer without any foreground pixel is rejected whatever its
    name, and the loop over the layers writes nothing for it. *)
Theorem C5_zero_pixel_rejection (fs : gmap string file) (style detail name : string)
    (m : image) (h w : Z) (before after : list (string * image)) :
  binary_mask m -> count_eq 255 m = 0 ->
  layer_accepted name m h w = false /\
  save_layers fs style detail (before ++ (name, m) :: after) h w
  = save_layers fs style detail (before ++ after) h w.
Proof.
  intros Hmask Hcount.
  pose proof (layer_rejected_empty name m h w Hmask Hcount) as Hrej.
  split; [exact Hrej|].
  rewrite (save_layers_app fs style detail before ((name, m) :: after)).
  rewrite (save_layers_app fs style detail before after).
  unfold save_layers at 1. simpl. by rewrite Hrej.
Qed.

Lemma C5_zero_pixel_rejection_witness :
  binary_mask (const_image 4 3 0) /\ count_eq 255 (const_image 4 3 0) = 0 /\
  layer_accepted "topLayer" (const_image 4 3 0) 4 3 = false /\
  layer_accepted "baseLayer" (const_image 4 3 0) 4 3 = false /\
  layer_accepted "bottom" (const_image 4 3 0) 4 3 = false.
Proof.
  assert (binary_mask (const_image 4 3 0)) as Hm by (split; solve_mask).
  assert (count_eq 255 (const_image 4 3 0) = 0) as Hc by reflexivity.
  split; [exact Hm|]. split; [exact Hc|].
  split; [|split].
  - exact (proj1 (C5_zero_pixel_rejection ∅ "s" "d" "topLayer" _ 4 3 [] [] Hm Hc)).
  - exact (proj1 (C5_zero_pixel_rejection ∅ "s" "d" "baseLayer" _ 4 3 [] [] Hm Hc)).
  - exact (proj1 (C5_zero_pixel_rejection ∅ "s" "d" "bottom" _ 4 3 [] [] Hm Hc)).
Defined.

(** ** The batch *)

Lemma imread_frame (fs fs' : gmap string file) (p : string) :
  fs' !! p = fs !! p -> imread fs' p = imread fs p.
Proof. intros Heq. unfold imread. by rewrite Heq. Qed.

Lemma imread_absent (fs : gmap string file) (p : string) :
  fs !! p = None -> imread fs p = None.
Proof. intros Heq. unfold imread. by rewrite Heq. Qed.

Lemma save_layers_frame (fs : gmap string file) style detail layers h w (p : string) :
  (forall name m, (name, m) ∈ layers -> p <> mask_path style detail name) ->
  save_layers fs style detail layers h w !! p = fs !! p.
Proof.
  revert fs. induction layers as [|[name m] layers IH]; intros fs Hp; [done|].
  unfold save_layers. simpl. fold (save_layers
    (if layer_accepted name m h w
     then save_mask fs m (mask_path style detail name) else fs)
    style detail layers h w).
  rewrite IH by (intros name' m' Hin; apply (Hp name' m'); by right).
  destruct (layer_accepted name m h w); [|done].
  unfold save_mask. apply lookup_insert_ne.
  intros Heq. apply (Hp name m); [by left | done].
Qed.

Lemma split_layer_names (mask : image) (ih : Z) (name : string) (m : image) :
  (name, m) ∈ split_clothing_layers mask ih -> name ∈ layer_names.
Proof.
  unfold split_clothing_layers, layer_names.
  intros Hin. apply elem_of_cons in Hin as [Hin|Hin]; [injection Hin as -> _; by left|].
  apply elem_of_cons in Hin as [Hin|Hin]; [injection Hin as -> _; right; by left|].
  apply elem_of_cons in Hin as [Hin|Hin]; [injection Hin as -> _; do 2 right; by left|].
  by apply elem_of_nil in Hin.
Qed.

(** One template: the call returns, and succeeds exactly when the source
    image is there and decodes; apart from the mask files of the template
    nothing is written. *)
Lemma process_clothing_image_spec (fs : gmap string file) (style detail : string) :
  exists fs',
    process_clothing_image fs style detail
    = Returned (fs', bool_decide (loadable fs (style, detail))) /\
    forall p, (forall name, name ∈ layer_names -> p <> mask_path style detail name) ->
              fs' !! p = fs !! p.
Proof.
  unfold process_clothing_image, loadable, remove_background. cbn [fst snd].
  case_bool_decide as Hex.
  - exists fs. rewrite imread_absent by done.
    rewrite bool_decide_eq_false_2 by (by intros [? ?]). done.
  - destruct (imread fs (source_path style detail)) as [img|] eqn:Himg.
    + rewrite bool_decide_eq_true_2 by done.
      exists (save_layers fs style detail
                (split_clothing_layers (segment img) (Z.of_nat (length img)))
                (Z.of_nat (length img))
                (Z.of_nat (length (default [] (head img))))).
      split; [reflexivity|].
      intros p Hp. apply save_layers_frame. intros name m Hin. apply Hp.
      by apply split_layer_names in Hin.
    + exists fs. rewrite bool_decide_eq_false_2 by (by intros [? ?]). done.
Qed.

Lemma filter_loadable_frame (fs fs' : gmap string file) (l : list (string * string)) :
  (forall t, t ∈ l -> fs' !! source_path t.1 t.2 = fs !! source_path t.1 t.2) ->
  filter (loadable fs') l = filter (loadable fs) l.
Proof.
  intros Hfr. induction l as [|t l IH]; [done|].
  assert (loadable fs' t <-> loadable fs t) as Hiff.
  { unfold loadable. rewrite (imread_frame fs fs'); [done|]. apply Hfr. by left. }
  rewrite !filter_cons. rewrite IH by (intros; apply Hfr; by right).
  destruct (decide (loadable fs' t)), (decide (loadable fs t)); tauto.
Qed.

Lemma process_all_spec (catalog : list (string * string))
    (fs : gmap string file) (n : nat) :
  independent catalog ->
  exists fs',
    process_all catalog fs n
    = Returned (fs', (n + length (filter (loadable fs) catalog))%nat) /\
    forall p, (forall t name, t ∈ catalog -> name ∈ layer_names ->
                              p <> mask_path t.1 t.2 name) ->
              fs' !! p = fs !! p.
Proof.
  revert fs n. induction catalog as [|[style detail] rest IH]; intros fs n Hind.
  - exists fs. simpl. split; [f_equal; f_equal; lia | done].
  - destruct (process_clothing_image_spec fs style detail) as (fs1 & Hrun & Hframe).
    assert (forall t, t ∈ rest ->
              fs1 !! source_path t.1 t.2 = fs !! source_path t.1 t.2) as Hsrc.
    { intros t Ht. apply Hframe. intros name Hname.
      apply (Hind t (style, detail) name); [by right | by left | done]. }
    destruct (IH fs1 (if bool_decide (loadable fs (style, detail)) then S n else n))
      as (fs2 & Hrest & Hframe2).
    { intros t t' name Ht Ht'. apply Hind; by right. }
    exists fs2. split.
    + simpl. rewrite Hrun, Hrest. f_equal. f_equal.
      rewrite (filter_loadable_frame fs fs1 rest) by done.
      rewrite filter_cons.
      case_bool_decide; destruct (decide (loadable fs (style, detail))); simpl;
        try tauto; lia.
    + intros p Hp. rewrite Hframe2 by (intros t name Ht; apply Hp; by right).
      apply Hframe. intros name Hname. apply (Hp (style, detail) name); [by left | done].
Qed.

(** ** A uniformly gray image, end to end *)

Lemma segment_uniform_gray (img : color_image) (g : Z) :
  rectangular img ->
  Forall (Forall (fun p => bgr2gray p = g)) img ->
  segment img = const_image (rows img) (cols img) (if 230 <? g then 0 else 255).
Proof.
  intros Hrect Hgray.
  assert (cvtColor_BGR2GRAY img = replicate (rows img) (replicate (cols img) g)) as Hg.
  { unfold cvtColor_BGR2GRAY. symmetry. apply replicate_as_Forall.
    split; [unfold rows; by rewrite length_fmap|].
    apply Forall_fmap, Forall_forall. intros row Hrow. simpl.
    apply replicate_as_Forall. split.
    - rewrite length_fmap. unfold rectangular in Hrect.
      rewrite Forall_forall in Hrect. by apply Hrect.
    - apply Forall_fmap. rewrite Forall_forall in Hgray.
      eapply Forall_impl; [by apply Hgray|]. intros p Hp. simpl. by symmetry. }
  unfold segment. rewrite Hg. unfold threshold_binary_inv.
  rewrite !fmap_replicate, <- const_image_replicate.
  apply clean_const. unfold uint8. destruct (230 <? g); lia.
Qed.

Lemma head_row_length {A : Type} (m : list (list A)) :
  length (default [] (head m)) = cols m.
Proof. by destruct m. Qed.

Lemma imread_present (fs : gmap string file) (p : string) (img : color_image) :
  imread fs p = Some img -> fs !! p <> None.
Proof. unfold imread. by destruct (fs !! p). Qed.

Lemma mid_gray_layers :
  split_clothing_layers (const_image 200 100 255) 200
  = [("topLayer", band_mask 200 100 0 90);
     ("baseLayer", band_mask 200 100 10 70);
     ("bottom", band_mask 200 100 90 200)].
Proof. vm_compute. reflexivity. Qed.

Lemma mid_gray_accepted :
  layer_accepted "topLayer" (band_mask 200 100 0 90) 200 100 = true /\
  layer_accepted "baseLayer" (band_mask 200 100 10 70) 200 100 = true /\
  layer_accepted "bottom" (band_mask 200 100 90 200) 200 100 = true.
Proof. repeat split; vm_compute; reflexivity. Qed.

(** ** The cut rows as integer quotients *)

Lemma round53_exact a t :
  0 <= a < 2 ^ 53 -> 0 <= t -> round53 (a * 2 ^ t) = a * 2 ^ t.
Proof.
  intros [Ha0 Ha] Ht.
  destruct (Z.le_gt_cases (bit_length (a * 2 ^ t)) 53) as [Hbl|Hbl].
  - unfold round53. destruct (Z.leb_spec (bit_length (a * 2 ^ t) - 53) 0); [done | lia].
  - rewrite round53_large by done.
    set (x := a * 2 ^ t) in *. set (s := bit_length x - 53) in *.
    assert (0 < 2 ^ t) as HPt by (apply Z.pow_pos_nonneg; lia).
    assert (x < 2 ^ (53 + t)) as Hx.
    { rewrite Z.pow_add_r by lia. unfold x. apply Z.mul_lt_mono_pos_r; lia. }
    pose proof (bit_length_lt x (53 + t) ltac:(lia) Hx) as Hs.
    destruct (pow2_split s ltac:(lia)) as [HP HH].
    assert (2 ^ t = 2 ^ (t - s) * 2 ^ s) as Et
      by (rewrite <- Z.pow_add_r by lia; f_equal; lia).
    assert (x = a * 2 ^ (t - s) * 2 ^ s) as Hdecomp by (unfold x; rewrite Et at 1; lia).
    assert (x / 2 ^ s = a * 2 ^ (t - s)) as Hq
      by (rewrite Hdecomp; apply Z.div_mul; lia).
    assert (x mod 2 ^ s = 0) as Hr
      by (rewrite Hdecomp; apply Z.mod_mul; lia).
    unfold round_half_even. rewrite Hq, Hr.
    destruct (Z.ltb_spec 0 (2 ^ (s - 1))); [lia | lia].
Qed.

(** Rounding moves a value by at most half a unit in the last place. *)
Lemma round53_error x e :
  0 <= x < 2 ^ (31 + e) -> 53 <= e ->
  x - 2 ^ (e - 23) <= round53 x <= x + 2 ^ (e - 23).
Proof.
  intros [Hx0 Hx] He.
  assert (0 < 2 ^ (e - 23)) by (apply Z.pow_pos_nonneg; lia).
  destruct (Z.le_gt_cases (bit_length x) 53) as [Hbl|Hbl].
  - unfold round53. destruct (Z.leb_spec (bit_length x - 53) 0); lia.
  - rewrite round53_large by done.
    pose proof (bit_length_lt x (31 + e) ltac:(lia) Hx) as Hs.
    pose proof (round_half_even_error x (bit_length x - 53) ltac:(lia)) as Herr.
    assert (2 ^ (bit_length x - 53 - 1) <= 2 ^ (e - 23))
      by (apply Z.pow_le_mono_r; lia).
    lia.
Qed.

(** [int(h * c)] for a literal [c = m / 2 ^ e] that lies within
    [1 / 2 ^ e] of the fraction [n / 100]: the quotient [n * h / 100],
    or one less when the literal is below the fraction and the quotient
    is exact. *)
Lemma int_mul_hundredths h m e n d :
  0 <= h < 2 ^ 31 -> 53 <= e -> 0 < n < 100 -> -100 <= d <= 100 ->
  100 * m = n * 2 ^ e + d ->
  n * h / 100 - 1 <= int_mul h (Float m e) <= n * h / 100 /\
  (0 <= d \/ (n * h) mod 100 <> 0 -> int_mul h (Float m e) = n * h / 100).
Proof.
  intros Hh He Hn Hd Hm.
  unfold int_mul, int_of_float, float_mul, float_of_int. simpl.
  rewrite ?Z.add_0_l. rewrite (round53_small h) by lia.
  assert (2 ^ e = 2 ^ 23 * 2 ^ (e - 23)) as EP
    by (rewrite <- Z.pow_add_r by lia; f_equal; lia).
  assert (2 ^ 30 <= 2 ^ (e - 23)) as HQ by (apply Z.pow_le_mono_r; lia).
  assert (2 ^ (31 + e) = 2 ^ 31 * 2 ^ e) as E31 by (apply Z.pow_add_r; lia).
  set (P := 2 ^ e) in *. set (Q := 2 ^ (e - 23)) in *.
  pose proof (Z.div_mod (n * h) 100 ltac:(lia)) as Hdm.
  pose proof (Z.mod_pos_bound (n * h) 100 ltac:(lia)) as Hj.
  set (K := n * h / 100) in *. set (j := (n * h) mod 100) in *.
  assert (0 <= K <= h) as HK by (unfold K; split; [apply Z.div_pos; lia|];
    apply Z.div_le_upper_bound; nia).
  assert (2 ^ 53 <= P) as HP53 by lia.
  assert (0 < m < P) as Hmr by nia.
  assert (100 * (h * m) = (100 * K + j) * P + d * h) as Hx by lia.
  assert (0 <= h * m < 2 ^ 31 * P) as Hxr by nia.
  pose proof (round53_error (h * m) e ltac:(rewrite E31; lia) He) as [Hlo Hhi].
  fold Q in Hlo, Hhi.
  assert (round53 (h * m) < (K + 1) * P) as Hupper by nia.
  assert (0 <= K - 1 -> (K - 1) * P <= round53 (h * m)) as Hlower1.
  { intros HK1. pose proof (round53_exact (K - 1) e ltac:(lia) ltac:(lia)) as Hex.
    fold P in Hex. rewrite <- Hex. apply round53_mono. nia. }
  assert (0 <= d \/ j <> 0 -> K * P <= round53 (h * m)) as Hlower.
  { intros Hcase. pose proof (round53_exact K e ltac:(lia) ltac:(lia)) as Hex.
    fold P in Hex. rewrite <- Hex. apply round53_mono. destruct Hcase; nia. }
  assert (0 <= round53 (h * m)) as Hnn by (apply round53_nonneg; lia).
  assert (0 < P) by lia.
  split; [split|].
  - destruct (Z.le_gt_cases 1 K).
    + apply Z.div_le_lower_bound; [lia|]. specialize (Hlower1 ltac:(lia)). lia.
    + assert (0 <= round53 (h * m) / P) by (apply Z.div_pos; lia). lia.
  - assert (round53 (h * m) / P < K + 1); [|lia].
    apply Z.div_lt_upper_bound; lia.
  - intros Hcase. specialize (Hlower Hcase).
    symmetry. apply (Z.div_unique_pos _ _ _ (round53 (h * m) - K * P)); lia.
Qed.

Lemma base_end_nonneg h : 0 <= h -> 0 <= base_end h.
Proof.
  intros Hh. unfold base_end, int_mul, int_of_float, float_mul, float_of_int, f0_35. simpl.
  apply Z.div_pos; [|lia].
  apply round53_nonneg, Z.mul_nonneg_nonneg; [by apply round53_nonneg | lia].
Qed.

Lemma cut_rows_quotient (h : Z) :
  0 <= h < 2 ^ 31 ->
  top_end h = 45 * h / 100 /\ base_start h = 5 * h / 100.
Proof.
  intros Hh. split.
  - apply (int_mul_hundredths h _ 54 45 20); [done | lia | lia | lia | reflexivity | lia].
  - apply (int_mul_hundredths h _ 56 5 20); [done | lia | lia | lia | reflexivity | lia].
Qed.

Lemma base_end_quotient (h : Z) :
  0 <= h < 2 ^ 31 ->
  35 * h / 100 - 1 <= base_end h <= 35 * h / 100 /\
  (h mod 20 <> 0 -> base_end h = 35 * h / 100).
Proof.
  intros Hh.
  destruct (int_mul_hundredths h 6305039478318694 54 35 (-40))
    as [Hb Hex]; [done | lia | lia | lia | reflexivity |].
  split; [exact Hb|]. intros Hmod. apply Hex. right. intros Heq. apply Hmod.
  pose proof (Z.div_mod (35 * h) 100 ltac:(lia)) as Hdm. rewrite Heq in Hdm.
  assert (h = (3 * (35 * h / 100) - h) * 20) as -> by lia.
  apply Z.mod_mul. lia.
Qed.

(** X1. For heights below 2^31 the cut between the top and the bottom
    layer is the integer quotient [45 * h / 100], and the base layer starts
    at row [5 * h / 100]: the binary64 products truncate to the exact
    quotients. *)
Theorem X1_cut_rows_exact (h : Z) :
  0 <= h < 2 ^ 31 ->
  top_end h = 45 * h / 100 /\ base_start h = 5 * h / 100.
Proof. apply cut_rows_quotient. Qed.

Lemma X1_cut_rows_exact_witness :
  0 <= 1080 < 2 ^ 31 /\ top_end 1080 = 486 /\ base_start 1080 = 54.
Proof.
  assert (0 <= 1080 < 2 ^ 31) as Hh by (split; [lia | reflexivity]).
  split; [exact Hh|]. exact (X1_cut_rows_exact 1080 Hh).
Defined.

(** X2. The literal 0.35 lies below 35/100, so the end row of the base
    layer is [35 * h / 100] or one less; it is the quotient whenever the
    height is not a multiple of 20. At height 180 it is 62, one less. *)
Theorem X2_base_end_bounds (h : Z) :
  0 <= h < 2 ^ 31 ->
  35 * h / 100 - 1 <= base_end h <= 35 * h / 100 /\
  (h mod 20 <> 0 -> base_end h = 35 * h / 100).
Proof. apply base_end_quotient. Qed.

Lemma X2_base_end_bounds_witness :
  0 <= 180 < 2 ^ 31 /\ 35 * 180 / 100 - 1 <= base_end 180 <= 35 * 180 / 100 /\
  base_end 180 = 62.
Proof.
  assert (0 <= 180 < 2 ^ 31) as Hh by (split; [lia | reflexivity]).
  split; [exact Hh|]. split; [exact (proj1 (X2_base_end_bounds 180 Hh)) | reflexivity].
Defined.

(** X3. The cut rows are ordered and lie inside the mask, so no slice of
    [split_clothing_layers] is clamped or reversed. *)
Theorem X3_cut_rows_ordered (h : Z) :
  0 <= h < 2 ^ 31 ->
  0 <= base_start h <= base_end h /\ base_end h <= top_end h /\ top_end h <= h.
Proof.
  intros Hh.
  destruct (cut_rows_quotient h Hh) as [Ht Hs].
  destruct (base_end_quotient h Hh) as [Hb _].
  pose proof (base_end_nonneg h ltac:(lia)) as Hnn.
  rewrite Ht, Hs.
  pose proof (Z.div_mod (5 * h) 100 ltac:(lia)) as H5.
  pose proof (Z.mod_pos_bound (5 * h) 100 ltac:(lia)) as H5r.
  pose proof (Z.div_mod (35 * h) 100 ltac:(lia)) as H35.
  pose proof (Z.mod_pos_bound (35 * h) 100 ltac:(lia)) as H35r.
  pose proof (Z.div_mod (45 * h) 100 ltac:(lia)) as H45.
  pose proof (Z.mod_pos_bound (45 * h) 100 ltac:(lia)) as H45r.
  revert Hb H5 H5r H35 H35r H45 H45r.
  generalize (5 * h / 100) ((5 * h) mod 100) (35 * h / 100) ((35 * h) mod 100)
    (45 * h / 100) ((45 * h) mod 100).
  intros q5 r5 q35 r35 q45 r45. lia.
Qed.

Lemma X3_cut_rows_ordered_witness :
  0 <= 200 < 2 ^ 31 /\
  0 <= base_start 200 <= base_end 200 /\ base_end 200 <= top_end 200 /\ top_end 200 <= 200.
Proof.
  assert (0 <= 200 < 2 ^ 31) as Hh by (split; [lia | reflexivity]).
  split; [exact Hh|]. exact (X3_cut_rows_ordered 200 Hh).
Defined.

(** ** Closing and opening on arrays *)

Lemma cell_tabulate h w f (r c : nat) :
  cell (tabulate h w f) r c
  = if bool_decide (r < h /\ c < w)%nat then Some (f (Z.of_nat r) (Z.of_nat c)) else None.
Proof.
  unfold cell, tabulate. rewrite list_lookup_fmap.
  destruct (decide (r < h)%nat) as [Hr|Hr].
  - rewrite lookup_seqZ_lt by lia. simpl. rewrite list_lookup_fmap.
    destruct (decide (c < w)%nat) as [Hc|Hc].
    + rewrite lookup_seqZ_lt by lia. simpl.
      rewrite bool_decide_eq_true_2 by done. do 2 f_equal; lia.
    + rewrite lookup_seqZ_ge by lia. simpl.
      rewrite bool_decide_eq_false_2 by lia. done.
  - rewrite lookup_seqZ_ge by lia. simpl.
    rewrite bool_decide_eq_false_2 by lia. done.
Qed.

Lemma cell_in_bounds (m : image) (r c : nat) (v : Z) :
  rectangular m -> cell m r c = Some v ->
  in_bounds (rows m) (cols m) (Z.of_nat r) (Z.of_nat c) = true /\
  raw m (Z.of_nat r) (Z.of_nat c) = v.
Proof.
  intros Hrect Hv. unfold cell in Hv.
  destruct (m !! r) as [row|] eqn:Hrow; [|done]. simpl in Hv.
  assert (length row = cols m) as Hlen
    by (unfold rectangular in Hrect; eapply Forall_lookup_1 in Hrect; eauto).
  apply lookup_lt_Some in Hrow as Hr. apply lookup_lt_Some in Hv as Hc.
  split; [apply in_bounds_spec; unfold rows; lia|]. by eapply raw_lookup.
Qed.

Lemma cell_of_raw (m : image) (r c : nat) :
  rectangular m ->
  in_bounds (rows m) (cols m) (Z.of_nat r) (Z.of_nat c) = true ->
  cell m r c = Some (raw m (Z.of_nat r) (Z.of_nat c)).
Proof.
  intros Hrect [Hr Hc]%in_bounds_spec. unfold cell.
  destruct (lookup_lt_is_Some_2 m r) as [row Hrow]; [unfold rows in Hr; lia|].
  assert (length row = cols m) as Hlen
    by (unfold rectangular in Hrect; eapply Forall_lookup_1 in Hrect; eauto).
  destruct (lookup_lt_is_Some_2 row c) as [v Hv]; [lia|].
  rewrite Hrow. simpl. rewrite Hv. f_equal. symmetry. by eapply raw_lookup.
Qed.

Lemma morph_close_unfold k (m : image) :
  morph_close k m
  = tabulate (rows m) (cols m) (close_at (rows m) (cols m) (kernel_offsets k) (raw m)).
Proof. unfold morph_close. unfold dilate. by rewrite erode_tabulate. Qed.

Lemma morph_open_unfold k (m : image) :
  morph_open k m
  = tabulate (rows m) (cols m) (open_at (rows m) (cols m) (kernel_offsets k) (raw m)).
Proof. unfold morph_open. unfold erode. by rewrite dilate_tabulate. Qed.

Lemma morph_close_tabulate k h w f :
  morph_close k (tabulate h w f) = tabulate h w (close_at h w (kernel_offsets k) f).
Proof. unfold morph_close. by rewrite dilate_tabulate, erode_tabulate. Qed.

Lemma morph_open_tabulate k h w f :
  morph_open k (tabulate h w f) = tabulate h w (open_at h w (kernel_offsets k) f).
Proof. unfold morph_open. by rewrite erode_tabulate, dilate_tabulate. Qed.

Lemma in_bounds_nat h w (r c : nat) :
  in_bounds h w (Z.of_nat r) (Z.of_nat c) = true <-> (r < h /\ c < w)%nat.
Proof. rewrite in_bounds_spec. lia. Qed.

(** X4. With a centrally symmetric kernel, closing never turns a
    foreground pixel of a binary mask into background, and opening never
    turns a background pixel into foreground. *)
Theorem X4_closing_grows_opening_shrinks (k : kernel) (m : image) (r c : nat) :
  symmetric (kernel_offsets k) -> binary_mask m ->
  (foreground m r c -> foreground (morph_close k m) r c) /\
  (foreground (morph_open k m) r c -> foreground m r c).
Proof.
  intros Hsym Hm. pose proof (binary_mask_rectangular _ Hm) as Hrect.
  pose proof (raw_bounded m (binary_mask_uint8 _ Hm)) as Hb.
  unfold foreground. rewrite morph_close_unfold, morph_open_unfold, !cell_tabulate.
  split.
  - intros Hfg. destruct (cell_in_bounds m r c 255 Hrect Hfg) as [Hin Hraw].
    rewrite bool_decide_eq_true_2 by (by apply in_bounds_nat). f_equal.
    pose proof (close_ge _ _ _ Hsym (raw m) Hb _ _ Hin) as Hge.
    pose proof (erode_bounded _ _ (kernel_offsets k) _
                  (dilate_bounded _ _ (kernel_offsets k) _ Hb) _ _ Hin) as [_ Hle].
    unfold close_at. lia.
  - case_bool_decide as Hin; [|done]. apply in_bounds_nat in Hin. intros [= Hopen].
    rewrite (cell_of_raw m r c Hrect Hin). f_equal.
    pose proof (open_le _ _ _ Hsym (raw m) Hb _ _ Hin) as Hle.
    destruct (Hb _ _ Hin) as [_ Hhi]. unfold open_at in Hopen. lia.
Qed.

Lemma X4_closing_grows_opening_shrinks_witness :
  symmetric (kernel_offsets (ones 5)) /\ binary_mask sample_mask /\
  (foreground sample_mask 1 1 -> foreground (morph_close (ones 5) sample_mask) 1 1).
Proof.
  assert (binary_mask sample_mask) as Hm by (split; solve_mask).
  split; [exact square5_symmetric|]. split; [exact Hm|].
  exact (proj1 (X4_closing_grows_opening_shrinks (ones 5) sample_mask 1 1
                  square5_symmetric Hm)).
Defined.

Lemma square3_symmetric : symmetric (kernel_offsets (ones 3)).
Proof.
  intros dr dc Ho.
  assert (Forall (fun o => (- o.1, - o.2) ∈ kernel_offsets (ones 3))
                 (kernel_offsets (ones 3))) as Hall.
  { vm_compute kernel_offsets. repeat constructor. }
  rewrite Forall_forall in Hall. apply (Hall (dr, dc) Ho).
Qed.

Lemma open_close_idempotent_image (k : kernel) (m : image) :
  symmetric (kernel_offsets k) -> uint8_image m ->
  morph_open k (morph_close k (morph_open k (morph_close k m)))
  = morph_open k (morph_close k m).
Proof.
  intros Hsym Hm.
  rewrite (morph_close_unfold k m).
  rewrite !morph_open_tabulate, !morph_close_tabulate, !morph_open_tabulate.
  apply tabulate_ext.
  apply open_close_idempotent; [done | by apply raw_bounded].
Qed.

(** X5. Closing followed by opening is idempotent for every centrally
    symmetric kernel, among them the 3 by 3 square. *)
Theorem X5_clean_idempotent_any_symmetric_kernel (k : kernel) (m : image) :
  symmetric (kernel_offsets k) -> uint8_image m ->
  morph_open k (morph_close k (morph_open k (morph_close k m)))
  = morph_open k (morph_close k m).
Proof. apply open_close_idempotent_image. Qed.

(** ** Files written for one template *)

Lemma string_length_app (s1 s2 : string) :
  String.length (s1 +:+ s2) = (String.length s1 + String.length s2)%nat.
Proof. induction s1 as [|a s1 IH]; simpl; [done|]. by rewrite IH. Qed.

Lemma source_path_not_own_mask (style detail name : string) :
  source_path style detail <> mask_path style detail name.
Proof.
  intros Heq. apply (f_equal String.length) in Heq.
  unfold source_path, mask_path, MASKS_DIR, path_join in Heq.
  rewrite !string_length_app in Heq. simpl in Heq. lia.
Qed.

Lemma mask_path_cancel (style detail name name' : string) :
  mask_path style detail name = mask_path style detail name' ->
  name +:+ ".png" = name' +:+ ".png".
Proof.
  unfold mask_path, path_join. intros Heq.
  do 4 apply String.app_inj in Heq. exact Heq.
Qed.

Lemma mask_paths_distinct (style detail name name' : string) :
  name ∈ ["topLayer"; "baseLayer"; "bottom"; "shoes"] ->
  name' ∈ ["topLayer"; "baseLayer"; "bottom"; "shoes"] ->
  name <> name' -> mask_path style detail name <> mask_path style detail name'.
Proof.
  intros Hn Hn' Hne Heq. apply mask_path_cancel in Heq.
  rewrite !elem_of_cons, elem_of_nil in Hn, Hn'.
  destruct Hn as [->|[->|[->|[->|[]]]]], Hn' as [->|[->|[->|[->|[]]]]];
    try done; vm_compute in Heq; discriminate.
Qed.

Lemma save_layers_cons fs style detail name m layers h w :
  save_layers fs style detail ((name, m) :: layers) h w
  = save_layers (if layer_accepted name m h w
                 then save_mask fs m (mask_path style detail name) else fs)
                style detail layers h w.
Proof. reflexivity. Qed.

Lemma save_layers_keeps fs style detail layers h w (p : string) :
  is_Some (fs !! p) -> is_Some (save_layers fs style detail layers h w !! p).
Proof.
  revert fs. induction layers as [|[name m] layers IH]; intros fs Hp; [done|].
  rewrite save_layers_cons. apply IH.
  destruct (layer_accepted name m h w); [|done].
  unfold save_mask. rewrite lookup_insert. case_decide; [by eexists | done].
Qed.

(** At a given path the loop either writes nothing or leaves a content
    that does not depend on the files before. *)
Lemma save_layers_dichotomy style detail layers h w (p : string) :
  (forall fs, save_layers fs style detail layers h w !! p = fs !! p) \/
  (forall fs fs2, save_layers fs style detail layers h w !! p
                  = save_layers fs2 style detail layers h w !! p).
Proof.
  induction layers as [|[name m] layers [IH|IH]]; [by left | |].
  - destruct (layer_accepted name m h w) eqn:Hacc.
    + destruct (decide (mask_path style detail name = p)) as [<-|Hne].
      * right. intros fs fs2. rewrite !save_layers_cons, Hacc, !IH.
        unfold save_mask. by rewrite !lookup_insert_eq.
      * left. intros fs. rewrite save_layers_cons, Hacc, IH.
        unfold save_mask. by rewrite lookup_insert_ne.
    + left. intros fs. by rewrite save_layers_cons, Hacc, IH.
  - right. intros fs fs2. rewrite !save_layers_cons. apply IH.
Qed.

Lemma save_layers_twice fs style detail layers h w :
  save_layers (save_layers fs style detail layers h w) style detail layers h w
  = save_layers fs style detail layers h w.
Proof.
  apply map_eq. intros p.
  destruct (save_layers_dichotomy style detail layers h w p) as [H|H]; [apply H|].
  apply H.
Qed.

Lemma save_layers_lookup fs style detail layers h w name m :
  NoDup layers.*1 ->
  (forall n, n ∈ layers.*1 -> n ∈ ["topLayer"; "baseLayer"; "bottom"; "shoes"]) ->
  (name, m) ∈ layers ->
  save_layers fs style detail layers h w !! mask_path style detail name
  = if layer_accepted name m h w then Some (Picture (encode_mask m))
    else fs !! mask_path style detail name.
Proof.
  revert fs. induction layers as [|[n0 m0] layers IH]; intros fs Hnd Hnames Hin;
    [by apply elem_of_nil in Hin|].
  apply NoDup_cons in Hnd as [Hn0 Hnd]. rewrite save_layers_cons.
  apply elem_of_cons in Hin as [[= -> ->]|Hin].
  - rewrite save_layers_frame.
    + destruct (layer_accepted n0 m0 h w); [|done].
      unfold save_mask. by rewrite lookup_insert_eq.
    + intros n' m' Hin'. apply mask_paths_distinct.
      * apply Hnames. by left.
      * apply Hnames. right. apply list_elem_of_fmap. by exists (n', m').
      * intros ->. apply Hn0. apply list_elem_of_fmap. by exists (n', m').
  - rewrite IH; [|done | intros; apply Hnames; by right | done].
    destruct (layer_accepted name m h w); [done|].
    destruct (layer_accepted n0 m0 h w); [|done].
    unfold save_mask. apply lookup_insert_ne. apply mask_paths_distinct.
    + apply Hnames. by left.
    + apply Hnames. right. apply list_elem_of_fmap. by exists (name, m).
    + intros ->. apply Hn0. apply list_elem_of_fmap. by exists (name, m).
Qed.

Lemma split_layers_keys (mask : image) (ih : Z) :
  (split_clothing_layers mask ih).*1 = ["topLayer"; "baseLayer"; "bottom"].
Proof. reflexivity. Qed.

Lemma shape_encode_mask (m : image) : rectangular m -> shape (encode_mask m) = shape m.
Proof.
  intros Hrect. rewrite encode_mask_rect by done.
  unfold shape, rows, cols. rewrite length_fmap. f_equal.
  destruct m as [|row rest]; [done|]. simpl. by rewrite length_fmap.
Qed.

(** The outcome of a call whose source image loads. *)
Lemma process_loaded (fs : gmap string file) (style detail : string) (img : color_image) :
  imread fs (source_path style detail) = Some img ->
  process_clothing_image fs style detail
  = Returned (save_layers fs style detail
                (split_clothing_layers (segment img) (Z.of_nat (rows img)))
                (Z.of_nat (rows img)) (Z.of_nat (cols img)), true).
Proof.
  intros Hread. unfold process_clothing_image, remove_background.
  rewrite bool_decide_eq_false_2 by (by eapply imread_present).
  by rewrite Hread, head_row_length.
Qed.

Lemma process_not_loaded (fs : gmap string file) (style detail : string) :
  imread fs (source_path style detail) = None ->
  process_clothing_image fs style detail = Returned (fs, false).
Proof.
  intros Hread. unfold process_clothing_image, remove_background.
  case_bool_decide; [done|]. by rewrite Hread.
Qed.

Lemma split_keys_NoDup (mask : image) (ih : Z) :
  NoDup (split_clothing_layers mask ih).*1.
Proof. rewrite split_layers_keys. apply (bool_decide_unpack _). vm_compute. exact I. Qed.

Lemma split_keys_known (mask : image) (ih : Z) (n : string) :
  n ∈ (split_clothing_layers mask ih).*1 ->
  n ∈ ["topLayer"; "baseLayer"; "bottom"; "shoes"].
Proof.
  rewrite split_layers_keys, !elem_of_cons, elem_of_nil. tauto.
Qed.

Lemma process_clothing_image_frame (fs : gmap string file) (style detail : string) :
  exists fs' ok,
    process_clothing_image fs style detail = Returned (fs', ok) /\
    (forall p, (forall name, name ∈ layer_names -> p <> mask_path style detail name) ->
               fs' !! p = fs !! p) /\
    fs' !! source_path style detail = fs !! source_path style detail /\
    (forall p, is_Some (fs !! p) -> is_Some (fs' !! p)).
Proof.
  destruct (imread fs (source_path style detail)) as [img|] eqn:Hread.
  - eexists _, true. split; [by apply process_loaded|].
    assert (forall p, (forall name, name ∈ layer_names -> p <> mask_path style detail name) ->
              save_layers fs style detail
                (split_clothing_layers (segment img) (Z.of_nat (rows img)))
                (Z.of_nat (rows img)) (Z.of_nat (cols img)) !! p = fs !! p) as Hframe.
    { intros p Hp. apply save_layers_frame. intros name m Hin. apply Hp.
      by apply split_layer_names in Hin. }
    split; [exact Hframe|]. split.
    + apply Hframe. intros name _. apply source_path_not_own_mask.
    + intros p. apply save_layers_keeps.
  - exists fs, false. split; [by apply process_not_loaded | done].
Qed.

(** X7. Processing a template a second time changes nothing: the same
    result is returned and the files stay as the first call left them. *)
Theorem X7_process_twice (fs : gmap string file) (style detail : string) :
  exists fs1 ok,
    process_clothing_image fs style detail = Returned (fs1, ok) /\
    process_clothing_image fs1 style detail = Returned (fs1, ok).
Proof.
  destruct (imread fs (source_path style detail)) as [img|] eqn:Hread.
  - eexists _, true. split; [by apply process_loaded|].
    rewrite (process_loaded _ style detail img).
    + by rewrite save_layers_twice.
    + rewrite <- Hread. apply imread_frame, save_layers_frame.
      intros name m _. apply source_path_not_own_mask.
  - exists fs, false. split; by apply process_not_loaded.
Qed.

(** X8. When the source image loads, every layer is a binary mask with the
    dimensions of the image; an accepted layer's file holds a picture of
    those dimensions whose alpha channel is the layer, and a rejected
    layer's file is left as it was. *)
Theorem X8_written_masks (fs : gmap string file) (style detail : string)
    (img : color_image) :
  imread fs (source_path style detail) = Some img -> rectangular img ->
  exists fs',
    process_clothing_image fs style detail = Returned (fs', true) /\
    forall name m,
      (name, m) ∈ split_clothing_layers (segment img) (Z.of_nat (rows img)) ->
      binary_mask m /\ shape m = shape img /\
      if layer_accepted name m (Z.of_nat (rows img)) (Z.of_nat (cols img))
      then exists px,
          fs' !! mask_path style detail name = Some (Picture px) /\
          shape px = shape img /\ alpha_channel px = m
      else fs' !! mask_path style detail name = fs !! mask_path style detail name.
Proof.
  intros Hread Hrect. eexists. split; [by apply process_loaded|].
  intros name m Hin.
  destruct (segment_binary img Hrect) as (Hseg & Hsr & Hsc).
  destruct (split_layers_binary _ _ name m Hseg Hin) as (_ & Hm & Hr & Hc).
  assert (shape m = shape img) as Hshape by (unfold shape; congruence).
  split; [exact Hm|]. split; [exact Hshape|].
  rewrite (save_layers_lookup fs style detail _ _ _ name m
             (split_keys_NoDup _ _) (split_keys_known _ _) Hin).
  destruct (layer_accepted name m _ _); [|done].
  exists (encode_mask m). split; [done|].
  pose proof (binary_mask_rectangular _ Hm) as Hmr.
  split; [by rewrite shape_encode_mask | by apply alpha_channel_encode].
Qed.

Lemma process_all_keeps (catalog : list (string * string)) (fs : gmap string file)
    (n : nat) :
  exists fs' n',
    process_all catalog fs n = Returned (fs', n') /\
    (n <= n' <= n + length catalog)%nat /\
    forall p, is_Some (fs !! p) -> is_Some (fs' !! p).
Proof.
  revert fs n. induction catalog as [|[style detail] rest IH]; intros fs n.
  - exists fs, n. simpl. split; [done|]. split; [lia | done].
  - destruct (process_clothing_image_frame fs style detail)
      as (fs1 & ok & Hrun & _ & _ & Hkeep).
    destruct (IH fs1 (if ok then S n else n)) as (fs2 & n2 & Hrest & Hn & Hkeep2).
    exists fs2, n2. simpl. rewrite Hrun, Hrest. split; [done|].
    split; [destruct ok; lia | auto].
Qed.

(** ** The preview *)

Lemma preview_blocks_elem (fs : gmap string file) (style detail name : string) :
  name ∈ preview_blocks fs style detail <->
  is_Some (fs !! mask_path style detail name) /\
  name ∈ ["topLayer"; "baseLayer"; "bottom"; "shoes"].
Proof.
  unfold preview_blocks.
  apply (list_elem_of_filter (fun layer => is_Some (fs !! mask_path style detail layer))).
Qed.

(** X10. Processing a template never creates or removes its shoes mask, so
    the preview shows a shoes block afterwards exactly when it would have
    shown one before; and a block shown before is still shown. *)
Theorem X10_preview_shoes_unchanged (fs : gmap string file) (style detail : string) :
  exists fs' ok,
    process_clothing_image fs style detail = Returned (fs', ok) /\
    ("shoes" ∈ preview_blocks fs' style detail
     <-> "shoes" ∈ preview_blocks fs style detail) /\
    (forall name, name ∈ preview_blocks fs style detail ->
                  name ∈ preview_blocks fs' style detail).
Proof.
  destruct (process_clothing_image_frame fs style detail)
    as (fs' & ok & Hrun & Hframe & _ & Hkeep).
  exists fs', ok. split; [exact Hrun|]. split.
  - rewrite !preview_blocks_elem. rewrite Hframe; [done|].
    intros name Hname. apply mask_paths_distinct.
    + do 3 right. by left.
    + unfold layer_names in Hname. rewrite !elem_of_cons, elem_of_nil in Hname.
      rewrite !elem_of_cons. tauto.
    + intros Heq. rewrite <- Heq in Hname. unfold layer_names in Hname.
      rewrite !elem_of_cons, elem_of_nil in Hname.
      destruct Hname as [?|[?|[?|[]]]]; discriminate.
  - intros name. rewrite !preview_blocks_elem. intros [Hsome Hin].
    split; [by apply Hkeep | done].
Qed.

Lemma preview_blocks_fresh_step (fs : gmap string file) (style detail : string) :
  preview_blocks fs style detail
  = filter (fun layer => is_Some (fs !! mask_path style detail layer))
           ["topLayer"; "baseLayer"; "bottom"; "shoes"].
Proof. reflexivity. Qed.

(** X11. In a directory that has no mask file of the template yet, the
    preview after processing lists exactly the layers that were accepted,
    in the order top, base, bottom, and never shoes. *)
Theorem X11_preview_lists_accepted (fs : gmap string file) (style detail : string)
    (img : color_image) :
  imread fs (source_path style detail) = Some img ->
  preview_blocks fs style detail = [] ->
  exists fs',
    process_clothing_image fs style detail = Returned (fs', true) /\
    preview_blocks fs' style detail
    = (filter (fun l => layer_accepted l.1 l.2 (Z.of_nat (rows img)) (Z.of_nat (cols img)))
              (split_clothing_layers (segment img) (Z.of_nat (rows img)))).*1.
Proof.
  intros Hread Hfresh. eexists. split; [by apply process_loaded|].
  set (L := split_clothing_layers (segment img) (Z.of_nat (rows img))).
  set (h := Z.of_nat (rows img)). set (w := Z.of_nat (cols img)).
  assert (forall name, name ∈ ["topLayer"; "baseLayer"; "bottom"; "shoes"] ->
            fs !! mask_path style detail name = None) as Hnone.
  { intros name Hname. destruct (fs !! mask_path style detail name) eqn:Hl; [|done].
    assert (name ∈ preview_blocks fs style detail) as Hin
      by (apply preview_blocks_elem; split; [by rewrite Hl | done]).
    rewrite Hfresh in Hin. by apply elem_of_nil in Hin. }
  assert (forall name m, (name, m) ∈ L ->
            save_layers fs style detail L h w !! mask_path style detail name
            = if layer_accepted name m h w then Some (Picture (encode_mask m)) else None)
    as Hlook.
  { intros name m Hin.
    rewrite (save_layers_lookup fs style detail L h w name m
               (split_keys_NoDup _ _) (split_keys_known _ _) Hin).
    destruct (layer_accepted name m h w); [done|].
    apply Hnone, (split_keys_known (segment img) h).
    apply list_elem_of_fmap. by exists (name, m). }
  assert (save_layers fs style detail L h w !! mask_path style detail "shoes" = None)
    as Hshoes.
  { rewrite save_layers_frame; [apply Hnone; do 3 right; by left|].
    intros name m Hin. apply mask_paths_distinct.
    - do 3 right. by left.
    - apply (split_keys_known (segment img) h), list_elem_of_fmap. by exists (name, m).
    - intros Heq. rewrite <- Heq in Hin.
      apply split_layer_names in Hin. unfold layer_names in Hin.
      rewrite !elem_of_cons, elem_of_nil in Hin.
      destruct Hin as [?|[?|[?|[]]]]; discriminate. }
  assert (exists top base bottom,
            L = [("topLayer", top); ("baseLayer", base); ("bottom", bottom)])
    as (top & base & bottom & HL) by (eexists _, _, _; reflexivity).
  pose proof (Hlook "topLayer" top ltac:(rewrite HL; by left)) as Ht.
  pose proof (Hlook "baseLayer" base ltac:(rewrite HL; right; by left)) as Hb.
  pose proof (Hlook "bottom" bottom ltac:(rewrite HL; do 2 right; by left)) as Hbt.
  unfold preview_blocks. clearbody L.
  rewrite !filter_cons, !filter_nil. rewrite Ht, Hb, Hbt, Hshoes. subst L.
  rewrite !filter_cons, !filter_nil. cbn [fst snd].
  destruct (layer_accepted "topLayer" top h w),
    (layer_accepted "baseLayer" base h w),
    (layer_accepted "bottom" bottom h w);
    repeat case_decide; try done;
    repeat match goal with
           | H : ~ is_Some (Some _) |- _ => exfalso; apply H; by eexists
           | H : is_Some None |- _ => by destruct H
           | H : ~ Is_true true |- _ => exfalso; by apply H
           | H : Is_true false |- _ => by destruct H
           end.
Qed.

Lemma X8_written_masks_witness :
  imread sample_files (source_path "business" "casual") = Some [[(10, 10, 10)]] /\
  rectangular [[(10, 10, 10)]] /\
  exists fs',
    process_clothing_image sample_files "business" "casual" = Returned (fs', true).
Proof.
  assert (imread sample_files (source_path "business" "casual") = Some [[(10, 10, 10)]])
    as Hread by (vm_compute; reflexivity).
  assert (rectangular [[(10, 10, 10)]]) as Hrect by solve_mask.
  split; [exact Hread|]. split; [exact Hrect|].
  destruct (X8_written_masks sample_files "business" "casual" _ Hread Hrect)
    as (fs' & Hrun & _).
  exists fs'. exact Hrun.
Defined.

Lemma X11_preview_lists_accepted_witness :
  imread sample_files (source_path "business" "casual") = Some [[(10, 10, 10)]] /\
  preview_blocks sample_files "business" "casual" = [] /\
  exists fs',
    process_clothing_image sample_files "business" "casual" = Returned (fs', true) /\
    preview_blocks fs' "business" "casual" = ["bottom"].
Proof.
  assert (imread sample_files (source_path "business" "casual") = Some [[(10, 10, 10)]])
    as Hread by (vm_compute; reflexivity).
  assert (preview_blocks sample_files "business" "casual" = []) as Hfresh
    by (vm_compute; reflexivity).
  split; [exact Hread|]. split; [exact Hfresh|].
  destruct (X11_preview_lists_accepted sample_files "business" "casual" _ Hread Hfresh)
    as (fs' & Hrun & Hblocks).
  exists fs'. split; [exact Hrun|]. rewrite Hblocks. vm_compute. reflexivity.
Defined.

(** X12. [remove_background] gives nothing when the image does not load;
    for an image that loads it gives a binary mask with the dimensions of
    the image. *)
Theorem X12_remove_background_mask (fs : gmap string file) (image_path : string) :
  (imread fs image_path = None -> remove_background fs image_path = None) /\
  (forall img,
      imread fs image_path = Some img -> rectangular img ->
      exists mask,
        remove_background fs image_path = Some mask /\
        binary_mask mask /\ shape mask = shape img).
Proof.
  unfold remove_background. split; [by intros ->|].
  intros img -> Hrect. exists (segment img). split; [done|].
  destruct (segment_binary img Hrect) as (Hb & Hr & Hc).
  split; [done|]. unfold shape. congruence.
Qed.

Lemma X12_remove_background_mask_witness :
  imread sample_files (source_path "business" "casual") = Some [[(10, 10, 10)]] /\
  rectangular [[(10, 10, 10)]] /\
  exists mask,
    remove_background sample_files (source_path "business" "casual") = Some mask /\
    binary_mask mask /\ shape mask = shape [[(10, 10, 10)]].
Proof.
  assert (imread sample_files (source_path "business" "casual") = Some [[(10, 10, 10)]])
    as Hread by (vm_compute; reflexivity).
  assert (rectangular [[(10, 10, 10)]]) as Hrect by solve_mask.
  split; [exact Hread|]. split; [exact Hrect|].
  exact (proj2 (X12_remove_background_mask sample_files _) _ Hread Hrect).
Defined.

(** ** Cutting the background out in place *)

Lemma encode_cutout_rect (img : color_image) (mask : image) :
  rectangular img ->
  RemoveClothingBackground.encode (RemoveClothingBackground.cvtColor_BGR2RGB img) mask
  = imap (fun r (row : list bgr) =>
            imap (fun c '(b, g, x) => (x, g, b, raw mask (Z.of_nat r) (Z.of_nat c))) row)
         img.
Proof.
  intros Hrect. unfold RemoveClothingBackground.encode, shape.
  set (rgb := RemoveClothingBackground.cvtColor_BGR2RGB img).
  assert (rows rgb = rows img) as Hr by apply length_fmap.
  assert (cols rgb = cols img) as Hc.
  { destruct img as [|row rest]; [done|]. simpl. by rewrite length_fmap. }
  rewrite Hr, Hc. apply list_eq. intros i.
  rewrite !list_lookup_imap.
  destruct (img !! i) as [row|] eqn:Hrow.
  - assert (i < rows img)%nat as Hi by (by eapply lookup_lt_Some).
    rewrite lookup_replicate_2 by done. simpl. f_equal.
    assert (length row = cols img) as Hlen
      by (unfold rectangular in Hrect; eapply Forall_lookup_1 in Hrect; eauto).
    assert (rgb !! i = Some ((fun '(b, g, x) => (x, g, b)) <$> row)) as Hrgb
      by (unfold rgb, RemoveClothingBackground.cvtColor_BGR2RGB;
          by rewrite list_lookup_fmap, Hrow).
    apply list_eq. intros j. rewrite !list_lookup_imap.
    destruct (row !! j) as [[[b g] x]|] eqn:Hv.
    + assert (j < cols img)%nat as Hj by (rewrite <- Hlen; by eapply lookup_lt_Some).
      rewrite lookup_replicate_2 by done. simpl.
      rewrite (list_lookup_total_correct _ _ _ Hrgb).
      unfold bgr in *.
      erewrite (list_lookup_total_correct _ j (x, g, b)); [by rewrite Hv|].
      rewrite list_lookup_fmap. by rewrite Hv.
    + unfold bgr in *. rewrite Hv. apply lookup_ge_None in Hv.
      rewrite (proj1 (lookup_replicate_None (cols img) _ j)) by lia. done.
  - apply lookup_ge_None in Hrow.
    rewrite (proj1 (lookup_replicate_None (rows img) _ i)) by (unfold rows; lia). done.
Qed.

Lemma imread_cutout (fs : gmap string file) (p : string) (img : color_image)
    (mask : image) :
  rectangular img -> img <> [] -> [] ∉ img ->
  imread (<[p := Picture (RemoveClothingBackground.encode
                            (RemoveClothingBackground.cvtColor_BGR2RGB img) mask)]> fs) p
  = Some img.
Proof.
  intros Hrect Hne Hrows. unfold imread. rewrite lookup_insert_eq.
  rewrite encode_cutout_rect by done.
  rewrite bool_decide_eq_false_2.
  - f_equal. apply list_eq. intros i.
    rewrite list_lookup_fmap, list_lookup_imap. unfold bgr in *.
    destruct (img !! i) as [row|]; [|done]. simpl. f_equal.
    apply list_eq. intros j. rewrite list_lookup_fmap, list_lookup_imap.
    by destruct (row !! j) as [[[b g] x]|].
  - intros [Hnil|Hin].
    + destruct img; [done | discriminate].
    + apply list_elem_of_lookup in Hin as [i Hi]. rewrite list_lookup_imap in Hi.
      destruct (img !! i) as [row|] eqn:Hrow; [|done]. simpl in Hi.
      injection Hi as Hi. destruct row as [|x row]; [|discriminate].
      apply Hrows, list_elem_of_lookup. eauto.
Qed.

Lemma imread_nonempty (fs : gmap string file) (p : string) (img : color_image) :
  imread fs p = Some img -> img <> [] /\ [] ∉ img.
Proof.
  unfold imread. destruct (fs !! p) as [[px|]|]; [|done..].
  case_bool_decide as Hpx; [done|]. intros [= <-]. split.
  - intros Hnil. apply Hpx. left. by destruct px.
  - intros Hin. apply Hpx. right.
    apply list_elem_of_fmap in Hin as (row & Hrow & Hin).
    destruct row; [done | discriminate].
Qed.

Lemma threshold_inv_binary (t : Z) (gray : image) :
  rectangular gray ->
  binary_mask (threshold_binary_inv t 255 gray) /\
  rows (threshold_binary_inv t 255 gray) = rows gray /\
  cols (threshold_binary_inv t 255 gray) = cols gray.
Proof.
  intros Hrect.
  assert (cols (threshold_binary_inv t 255 gray) = cols gray) as Hc.
  { destruct gray as [|row rest]; [done|]. simpl. by rewrite length_fmap. }
  split; [|split; [apply length_fmap | done]]. split.
  - unfold rectangular. rewrite Hc. unfold threshold_binary_inv.
    apply Forall_fmap. eapply Forall_impl; [exact Hrect|].
    intros row Hlen. simpl. by rewrite length_fmap.
  - unfold threshold_binary_inv. apply Forall_fmap, Forall_forall. intros row _. simpl.
    apply Forall_fmap, Forall_forall. intros v _. simpl.
    destruct (t <? v); auto.
Qed.

Lemma open_close_binary (k : kernel) (m : image) :
  binary_mask m ->
  binary_mask (morph_open k (morph_close k m)) /\
  rows (morph_open k (morph_close k m)) = rows m /\
  cols (morph_open k (morph_close k m)) = cols m.
Proof.
  intros Hm. rewrite morph_close_unfold, morph_open_tabulate. split; [|split].
  - apply tabulate_binary. unfold open_at, close_at.
    by apply dilate_at_binary, erode_at_binary, erode_at_binary, dilate_at_binary,
      raw_binary.
  - apply rows_tabulate.
  - destruct m as [|row rest]; [done|]. apply cols_tabulate. simpl. lia.
Qed.

Lemma gray_rectangular (img : color_image) :
  rectangular img ->
  rectangular (cvtColor_BGR2GRAY img) /\
  rows (cvtColor_BGR2GRAY img) = rows img /\ cols (cvtColor_BGR2GRAY img) = cols img.
Proof.
  intros Hrect.
  assert (cols (cvtColor_BGR2GRAY img) = cols img) as Hc.
  { destruct img as [|row rest]; [done|]. simpl. by rewrite length_fmap. }
  split; [|split; [apply length_fmap | done]].
  unfold rectangular. rewrite Hc. unfold cvtColor_BGR2GRAY.
  apply Forall_fmap. eapply Forall_impl; [exact Hrect|].
  intros row Hlen. simpl. by rewrite length_fmap.
Qed.

(** The mask of the sibling script is a binary mask of the image's shape. *)
Lemma cutout_mask_binary (img : color_image) :
  rectangular img ->
  let mask := RemoveClothingBackground.clean
                (threshold_binary_inv 240 255 (cvtColor_BGR2GRAY img)) in
  binary_mask mask /\ rows mask = rows img /\ cols mask = cols img.
Proof.
  intros Hrect mask. destruct (gray_rectangular img Hrect) as (Hg & Hgr & Hgc).
  destruct (threshold_inv_binary 240 _ Hg) as (Ht & Htr & Htc).
  destruct (open_close_binary (ones 3) _ Ht) as (Hb & Hr & Hc).
  unfold mask, RemoveClothingBackground.clean. split; [done|]. split; congruence.
Qed.

Lemma cell_imap2 {A B : Type} (f : nat -> nat -> A -> B) (m : list (list A)) (r c : nat) :
  cell (imap (fun r (row : list A) => imap (fun c x => f r c x) row) m) r c
  = f r c <$> cell m r c.
Proof.
  unfold cell. rewrite list_lookup_imap.
  destruct (m !! r) as [row|]; [|done]. simpl. apply list_lookup_imap.
Qed.

(** X13. The sibling script keeps every pixel's colour and the image's
    dimensions, gives each pixel the alpha value 0 or 255, and reading the
    written picture back gives the image that was read. *)
Theorem X13_cutout_keeps_colours (fs : gmap string file) (image_path output_path : string)
    (img : color_image) :
  imread fs image_path = Some img -> rectangular img ->
  exists px,
    RemoveClothingBackground.remove_white_background fs image_path output_path
    = (<[output_path := Picture px]> fs, true) /\
    shape px = shape img /\
    (forall (r c : nat) (b g x : Z),
        cell img r c = Some (b, g, x) ->
        exists a, cell px r c = Some (x, g, b, a) /\ (a = 0 \/ a = 255)) /\
    imread (<[output_path := Picture px]> fs) output_path = Some img.
Proof.
  intros Hread Hrect.
  destruct (imread_nonempty _ _ _ Hread) as [Hne Hrows].
  destruct (cutout_mask_binary img Hrect) as (Hb & Hr & Hc).
  set (mask := RemoveClothingBackground.clean _) in *.
  exists (RemoveClothingBackground.encode
            (RemoveClothingBackground.cvtColor_BGR2RGB img) mask).
  split; [unfold RemoveClothingBackground.remove_white_background; by rewrite Hread|].
  split; [|split; [|by apply imread_cutout]].
  - rewrite encode_cutout_rect by done. unfold shape, rows, cols.
    rewrite length_imap. f_equal. destruct img as [|row rest]; [done|].
    simpl. by rewrite length_imap.
  - clearbody mask. intros r c b g x Hcell. rewrite encode_cutout_rect by done.
    unfold cell in *. rewrite list_lookup_imap.
    destruct (img !! r) as [row|] eqn:Hrow; [|done]. simpl in *.
    unfold bgr in *. rewrite list_lookup_imap, Hcell. simpl.
    eexists. split; [reflexivity|].
    apply (raw_binary mask Hb). rewrite Hr, Hc. apply in_bounds_nat.
    apply lookup_lt_Some in Hrow as Hlt. apply lookup_lt_Some in Hcell.
    assert (length row = cols img) as Hlen
      by (unfold rectangular in Hrect; eapply Forall_lookup_1 in Hrect; eauto).
    unfold rows. lia.
Qed.

(** X14. Running the sibling script on an image it has already cut out
    leaves the file as it is: the alpha channel is dropped on reading, so
    the second run computes the same picture. *)
Theorem X14_cutout_twice (fs : gmap string file) (path : string) (img : color_image) :
  imread fs path = Some img -> rectangular img ->
  exists fs1,
    RemoveClothingBackground.remove_white_background fs path path = (fs1, true) /\
    RemoveClothingBackground.remove_white_background fs1 path path = (fs1, true).
Proof.
  intros Hread Hrect.
  destruct (imread_nonempty _ _ _ Hread) as [Hne Hrows].
  eexists. split.
  - unfold RemoveClothingBackground.remove_white_background. rewrite Hread. reflexivity.
  - unfold RemoveClothingBackground.remove_white_background at 1.
    rewrite imread_cutout by done. by rewrite insert_insert_eq.
Qed.

Lemma encode_cutout_decodes (fs : gmap string file) (p : string)
    (img : color_image) (mask : image) :
  img <> [] -> [] ∉ img ->
  is_Some (imread (<[p := Picture (RemoveClothingBackground.encode
                                     (RemoveClothingBackground.cvtColor_BGR2RGB img) mask)]>
                     fs) p).
Proof.
  intros Hne Hrows. unfold imread. rewrite lookup_insert_eq.
  rewrite bool_decide_eq_false_2; [by eexists|].
  unfold RemoveClothingBackground.encode, shape.
  set (rgb := RemoveClothingBackground.cvtColor_BGR2RGB img).
  assert (0 < rows rgb)%nat as Hr.
  { unfold rgb, rows, RemoveClothingBackground.cvtColor_BGR2RGB.
    rewrite length_fmap. destruct img; [done | simpl; lia]. }
  assert (0 < cols rgb)%nat as Hc.
  { unfold rgb. destruct img as [|row rest]; [done|]. simpl. rewrite length_fmap.
    destruct row; [|simpl; lia]. exfalso. apply Hrows. by left. }
  intros [Hnil|Hin].
  - apply (f_equal length) in Hnil. rewrite !length_imap, length_replicate in Hnil.
    simpl in Hnil. lia.
  - apply list_elem_of_lookup in Hin as [i Hi].
    rewrite !list_lookup_imap in Hi.
    destruct (replicate _ _ !! i) as [row|] eqn:Hrow; [|done].
    apply lookup_replicate in Hrow as [-> _]. simpl in Hi. injection Hi as Hi.
    apply (f_equal length) in Hi. rewrite !length_imap, length_replicate in Hi.
    simpl in Hi. lia.
Qed.

Lemma cutout_step (fs : gmap string file) (path : string) :
  exists fs1,
    RemoveClothingBackground.remove_white_background fs path path
    = (fs1, bool_decide (is_Some (imread fs path))) /\
    (forall q, is_Some (imread fs1 q) <-> is_Some (imread fs q)) /\
    (forall q, is_Some (fs1 !! q) <-> is_Some (fs !! q)).
Proof.
  unfold RemoveClothingBackground.remove_white_background.
  destruct (imread fs path) as [img|] eqn:Hread.
  - eexists. rewrite bool_decide_eq_true_2 by done. split; [reflexivity|].
    destruct (imread_nonempty _ _ _ Hread) as [Hne Hrows].
    split; intros q; destruct (decide (q = path)) as [->|Hq].
    + rewrite Hread. split; [done|]. intros _. by apply encode_cutout_decodes.
    + by rewrite (imread_frame fs _ q) by (by apply lookup_insert_ne).
    + rewrite lookup_insert_eq. split; [|by eexists]. intros _.
      apply imread_present in Hread. by destruct (fs !! path).
    + by rewrite lookup_insert_ne.
  - exists fs. rewrite bool_decide_eq_false_2 by (by intros [? ?]). done.
Qed.

Lemma cutout_process_all (names : list string) (fs : gmap string file) (n : nat) :
  exists fs',
    RemoveClothingBackground.process_all names fs n
    = (fs', (n + length (filter (RemoveClothingBackground.loadable fs) names))%nat) /\
    (forall q, is_Some (fs' !! q) <-> is_Some (fs !! q)).
Proof.
  revert fs n. induction names as [|name rest IH]; intros fs n.
  - exists fs. simpl. split; [f_equal; lia | done].
  - simpl. rewrite filter_cons.
    set (path := path_join PUBLIC_DIR (name +:+ ".png")).
    case_bool_decide as Hex.
    + destruct (IH fs n) as (fs' & Hrun & Hdom). exists fs'. split; [|done].
      rewrite Hrun. destruct (decide _) as [Hl|Hl]; [|done].
      unfold RemoveClothingBackground.loadable in Hl. fold path in Hl.
      rewrite (imread_absent _ _ Hex) in Hl. by destruct Hl.
    + destruct (cutout_step fs path) as (fs1 & Hstep & Hload & Hdom1).
      rewrite Hstep.
      destruct (IH fs1 (if bool_decide (is_Some (imread fs path)) then S n else n))
        as (fs' & Hrun & Hdom).
      exists fs'. split; [|intros q; by rewrite Hdom, Hdom1].
      rewrite Hrun. f_equal.
      rewrite (list_filter_iff (RemoveClothingBackground.loadable fs1)
                 (RemoveClothingBackground.loadable fs))
        by (intros x; apply Hload).
      unfold RemoveClothingBackground.loadable at 2. fold path.
      case_bool_decide; destruct (decide _); simpl; try tauto; lia.
Qed.

(** X15. The sibling script's count is the number of listed images that
    are present and decode, whatever the list and the files; a missing
    image is skipped, and no file is created or deleted. *)
Theorem X15_cutout_batch_count (names : list string) (fs : gmap string file) :
  exists fs',
    RemoveClothingBackground.main_with names fs
    = (fs', length (filter (RemoveClothingBackground.loadable fs) names)) /\
    (forall q, is_Some (fs' !! q) <-> is_Some (fs !! q)).
Proof. apply (cutout_process_all names fs 0). Qed.

(** ** Monotonicity *)

Lemma foreground_le_on (m1 m2 : image) :
  binary_mask m1 -> binary_mask m2 -> shape m1 = shape m2 ->
  (forall r c, foreground m1 r c -> foreground m2 r c) ->
  le_on (rows m1) (cols m1) (raw m1) (raw m2).
Proof.
  intros Hm1 Hm2 Hshape Hsub r c Hin.
  injection Hshape as Hr Hc.
  assert (exists r' c' : nat, r = Z.of_nat r' /\ c = Z.of_nat c') as (r' & c' & -> & ->).
  { apply in_bounds_spec in Hin. exists (Z.to_nat r), (Z.to_nat c). lia. }
  destruct (raw_binary m1 Hm1 _ _ Hin) as [H0|H255].
  - rewrite H0. rewrite Hr, Hc in Hin.
    destruct (raw_binary m2 Hm2 _ _ Hin); lia.
  - assert (foreground m1 r' c') as Hfg.
    { unfold foreground. rewrite (cell_of_raw m1 r' c' (binary_mask_rectangular _ Hm1) Hin).
      by rewrite H255. }
    apply Hsub in Hfg.
    destruct (cell_in_bounds m2 r' c' 255 (binary_mask_rectangular _ Hm2) Hfg) as [_ ->].
    lia.
Qed.

Lemma clean_monotone (m1 m2 : image) (r c : nat) :
  binary_mask m1 -> binary_mask m2 -> shape m1 = shape m2 ->
  (forall r c, foreground m1 r c -> foreground m2 r c) ->
  foreground (clean m1) r c -> foreground (clean m2) r c.
Proof.
  intros Hm1 Hm2 Hshape Hsub.
  pose proof (foreground_le_on m1 m2 Hm1 Hm2 Hshape Hsub) as Hle.
  injection Hshape as Hr Hc.
  unfold foreground. rewrite !clean_unfold, !cell_tabulate, <- Hr, <- Hc.
  case_bool_decide as Hin; [|done]. intros [= Hfg]. f_equal.
  apply in_bounds_nat in Hin.
  set (offs := kernel_offsets (ones 5)) in *.
  set (h := rows m1) in *. set (w := cols m1) in *.
  assert (le_on h w
            (dilate_at h w offs (erode_at h w offs (erode_at h w offs
               (dilate_at h w offs (raw m1)))))
            (dilate_at h w offs (erode_at h w offs (erode_at h w offs
               (dilate_at h w offs (raw m2)))))) as Hmono
    by (by apply dilate_mono, erode_mono, erode_mono, dilate_mono).
  specialize (Hmono _ _ Hin).
  assert (bounded h w (raw m2)) as Hb2.
  { rewrite Hr, Hc. apply raw_bounded, binary_mask_uint8, Hm2. }
  pose proof (dilate_bounded h w offs _
                (erode_bounded h w offs _ (erode_bounded h w offs _
                   (dilate_bounded h w offs _ Hb2))) _ _ Hin) as [_ Hhi].
  lia.
Qed.

(** X16. The clean-up is monotone: if every foreground pixel of one
    binary mask is a foreground pixel of another of the same shape, the
    same holds of the cleaned masks. *)
Theorem X16_clean_monotone (m1 m2 : image) (r c : nat) :
  binary_mask m1 -> binary_mask m2 -> shape m1 = shape m2 ->
  (forall r c, foreground m1 r c -> foreground m2 r c) ->
  foreground (clean m1) r c -> foreground (clean m2) r c.
Proof. apply clean_monotone. Qed.

Lemma threshold_foreground (t : Z) (gray : image) (r c : nat) :
  foreground (threshold_binary_inv t 255 gray) r c
  <-> exists v, cell gray r c = Some v /\ v <= t.
Proof.
  unfold foreground. rewrite cell_threshold.
  destruct (cell gray r c) as [v|]; simpl.
  - destruct (Z.ltb_spec t v); split.
    + intros [=].
    + intros (v' & [= <-] & Hle). lia.
    + intros _. exists v. split; [done | lia].
    + done.
  - split; [done | by intros (v & ? & _)].
Qed.

(** X17. Raising the threshold never removes a pixel: a pixel that is
    foreground in the cleaned mask for one threshold is foreground in the
    cleaned mask for every higher threshold. *)
Theorem X17_higher_threshold_keeps_more (t t' : Z) (gray : image) (r c : nat) :
  rectangular gray -> t <= t' ->
  foreground (clean (threshold_binary_inv t 255 gray)) r c ->
  foreground (clean (threshold_binary_inv t' 255 gray)) r c.
Proof.
  intros Hrect Hle.
  destruct (threshold_inv_binary t gray Hrect) as (Hb1 & Hr1 & Hc1).
  destruct (threshold_inv_binary t' gray Hrect) as (Hb2 & Hr2 & Hc2).
  apply clean_monotone; [done | done | unfold shape; congruence |].
  intros r0 c0. rewrite !threshold_foreground.
  intros (v & Hv & Hvt). exists v. split; [done | lia].
Qed.

(** ** Instances *)

Lemma X5_clean_idempotent_any_symmetric_kernel_witness :
  symmetric (kernel_offsets (ones 3)) /\ uint8_image sample_mask /\
  morph_open (ones 3) (morph_close (ones 3)
    (morph_open (ones 3) (morph_close (ones 3) sample_mask)))
  = morph_open (ones 3) (morph_close (ones 3) sample_mask).
Proof.
  assert (uint8_image sample_mask) as Hu
    by (apply binary_mask_uint8; split; solve_mask).
  split; [exact square3_symmetric|]. split; [exact Hu|].
  exact (X5_clean_idempotent_any_symmetric_kernel (ones 3) sample_mask
           square3_symmetric Hu).
Defined.

Lemma X13_cutout_keeps_colours_witness :
  imread sample_files (source_path "business" "casual") = Some [[(10, 10, 10)]] /\
  rectangular [[(10, 10, 10)]] /\
  exists px,
    RemoveClothingBackground.remove_white_background
      sample_files (source_path "business" "casual") "out.png"
    = (<["out.png" := Picture px]> sample_files, true) /\
    shape px = shape [[(10, 10, 10)]].
Proof.
  assert (imread sample_files (source_path "business" "casual") = Some [[(10, 10, 10)]])
    as Hread by (vm_compute; reflexivity).
  assert (rectangular [[(10, 10, 10)]]) as Hrect by solve_mask.
  split; [exact Hread|]. split; [exact Hrect|].
  destruct (X13_cutout_keeps_colours sample_files _ "out.png" _ Hread Hrect)
    as (px & Hrun & Hshape & _).
  exists px. split; [exact Hrun | exact Hshape].
Defined.

Lemma X14_cutout_twice_witness :
  imread sample_files (source_path "business" "casual") = Some [[(10, 10, 10)]] /\
  rectangular [[(10, 10, 10)]] /\
  exists fs1,
    RemoveClothingBackground.remove_white_background
      sample_files (source_path "business" "casual") (source_path "business" "casual")
    = (fs1, true) /\
    RemoveClothingBackground.remove_white_background
      fs1 (source_path "business" "casual") (source_path "business" "casual")
    = (fs1, true).
Proof.
  assert (imread sample_files (source_path "business" "casual") = Some [[(10, 10, 10)]])
    as Hread by (vm_compute; reflexivity).
  assert (rectangular [[(10, 10, 10)]]) as Hrect by solve_mask.
  split; [exact Hread|]. split; [exact Hrect|].
  exact (X14_cutout_twice sample_files _ _ Hread Hrect).
Defined.

Lemma X16_clean_monotone_witness :
  binary_mask sample_mask /\ binary_mask (const_image 10 9 255) /\
  shape sample_mask = shape (const_image 10 9 255) /\
  (forall r c, foreground sample_mask r c -> foreground (const_image 10 9 255) r c) /\
  foreground (clean sample_mask) 1 1 /\
  foreground (clean (const_image 10 9 255)) 1 1.
Proof.
  assert (binary_mask sample_mask) as H1 by (split; solve_mask).
  assert (binary_mask (const_image 10 9 255)) as H2 by (split; solve_mask).
  assert (shape sample_mask = shape (const_image 10 9 255)) as Hs by reflexivity.
  assert (forall r c, foreground sample_mask r c -> foreground (const_image 10 9 255) r c)
    as Hsub.
  { intros r c Hfg.
    destruct (cell_in_bounds sample_mask r c 255 (binary_mask_rectangular _ H1) Hfg)
      as [Hin _].
    unfold foreground, const_image. rewrite cell_tabulate.
    rewrite bool_decide_eq_true_2; [done|]. by apply in_bounds_nat. }
  assert (foreground (clean sample_mask) 1 1) as Hfg by (vm_compute; reflexivity).
  split; [exact H1|]. split; [exact H2|]. split; [exact Hs|]. split; [exact Hsub|].
  split; [exact Hfg|].
  exact (X16_clean_monotone _ _ 1 1 H1 H2 Hs Hsub Hfg).
Defined.

Lemma X17_higher_threshold_keeps_more_witness :
  rectangular [[10; 230]; [231; 255]] /\ 230 <= 240 /\
  foreground (clean (threshold_binary_inv 230 255 [[10; 230]; [231; 255]])) 0 0 /\
  foreground (clean (threshold_binary_inv 240 255 [[10; 230]; [231; 255]])) 0 0.
Proof.
  assert (rectangular [[10; 230]; [231; 255]]) as Hrect by solve_mask.
  assert (230 <= 240) as Hle by lia.
  assert (foreground (clean (threshold_binary_inv 230 255 [[10; 230]; [231; 255]])) 0 0)
    as Hfg by (vm_compute; reflexivity).
  split; [exact Hrect|]. split; [exact Hle|]. split; [exact Hfg|].
  exact (X17_higher_threshold_keeps_more 230 240 _ 0 0 Hrect Hle Hfg).
Defined.

(** ** Paths *)

Lemma no_slash_app (a b : string) : no_slash (a +:+ b) = no_slash a && no_slash b.
Proof. induction a as [|c a IH]; simpl; [done|]. rewrite IH. by rewrite andb_assoc. Qed.

Lemma dirname_no_slash (name : string) : no_slash name = true -> IO.dirname name = None.
Proof.
  induction name as [|c name IH]; simpl; [done|].
  intros [Hc Hn]%andb_true_iff. rewrite IH by done.
  by destruct (Ascii.eqb c slash).
Qed.

Lemma dirname_join (dir name : string) :
  no_slash name = true -> IO.dirname (path_join dir name) = Some dir.
Proof.
  intros Hn. unfold path_join. induction dir as [|c dir IH]; simpl.
  - by rewrite dirname_no_slash.
  - by rewrite IH.
Qed.

Lemma mask_name_no_slash (style detail name : string) :
  no_slash style = true -> no_slash detail = true -> name ∈ layer_names ->
  no_slash (template_id style detail +:+ "-" +:+ name +:+ ".png") = true.
Proof.
  intros Hs Hd Hn. unfold template_id. rewrite !no_slash_app, Hs, Hd.
  unfold layer_names in Hn. rewrite !elem_of_cons, elem_of_nil in Hn.
  destruct Hn as [->|[->|[->|[]]]]; reflexivity.
Qed.

Lemma dirname_mask_path (style detail name : string) :
  no_slash style = true -> no_slash detail = true -> name ∈ layer_names ->
  IO.dirname (mask_path style detail name) = Some MASKS_DIR.
Proof. intros. unfold mask_path. by apply dirname_join, mask_name_no_slash. Qed.

Lemma dirname_source_path (style detail : string) :
  no_slash style = true -> no_slash detail = true ->
  IO.dirname (source_path style detail) = Some PUBLIC_DIR.
Proof.
  intros Hs Hd. unfold source_path. apply dirname_join.
  unfold template_id. by rewrite !no_slash_app, Hs, Hd.
Qed.

Lemma plain_names_independent (catalog : list (string * string)) :
  plain_names catalog -> independent catalog.
Proof.
  intros Hplain t t' name Ht Ht' Hname Heq.
  unfold plain_names in Hplain. rewrite Forall_forall in Hplain.
  destruct (Hplain t Ht) as [Hs Hd]. destruct (Hplain t' Ht') as [Hs' Hd'].
  apply (f_equal IO.dirname) in Heq.
  rewrite dirname_source_path, dirname_mask_path in Heq by done.
  discriminate.
Qed.

Lemma masks_dir_prefixes :
  IO.path_prefixes MASKS_DIR
  = ["public"; "public/images"; "public/images/clothing"; "public/images/clothing/masks"].
Proof. reflexivity. Qed.

Lemma mask_path_not_prefix (style detail name : string) :
  mask_path style detail name ∉ IO.path_prefixes MASKS_DIR.
Proof.
  rewrite masks_dir_prefixes. intros Hin.
  assert (String.length (mask_path style detail name) > 28)%nat as Hlen.
  { unfold mask_path, path_join. rewrite !string_length_app. simpl. lia. }
  rewrite !elem_of_cons, elem_of_nil in Hin.
  destruct Hin as [H|[H|[H|[H|[]]]]]; rewrite H in Hlen; simpl in Hlen; lia.
Qed.

(** ** Shapes without rectangularity *)

Lemma cols_lookup {A : Type} (m : list (list A)) :
  cols m = from_option length 0%nat (m !! 0%nat).
Proof. by destruct m. Qed.

Lemma shape_assign_rows (m : image) (lo hi : Z) :
  shape (assign_rows (zeros_like m) m lo hi) = shape m.
Proof.
  unfold shape. f_equal.
  - rewrite rows_assign_rows. unfold zeros_like. apply rows_tabulate.
  - destruct m as [|row rest]; [done|].
    rewrite !cols_lookup. unfold assign_rows.
    rewrite list_lookup_imap, zeros_like_lookup.
    rewrite bool_decide_eq_true_2 by (simpl; lia). simpl.
    destruct ((lo <=? Z.of_nat 0) && (Z.of_nat 0 <? hi)); [done|].
    by rewrite length_replicate.
Qed.

Lemma shape_segment (img : color_image) : shape (segment img) = shape img.
Proof.
  unfold shape, segment. destruct (shape_clean
    (threshold_binary_inv 230 255 (cvtColor_BGR2GRAY img))) as [-> ->].
  unfold threshold_binary_inv, cvtColor_BGR2GRAY, rows, cols.
  rewrite !length_fmap. f_equal.
  destruct img as [|row rest]; [done|]. simpl. by rewrite !length_fmap.
Qed.

Lemma split_layers_shape (mask : image) (ih : Z) (name : string) (m : image) :
  (name, m) ∈ split_clothing_layers mask ih -> shape m = shape mask.
Proof.
  unfold split_clothing_layers. rewrite !elem_of_cons, elem_of_nil.
  intros [H|[H|[H|[]]]]; injection H as _ ->; apply shape_assign_rows.
Qed.

Lemma imread_shape_pos (fs : gmap string file) (p : string) (img : color_image) :
  imread fs p = Some img -> (0 < rows img)%nat /\ (0 < cols img)%nat.
Proof.
  intros [Hne Hrow]%imread_nonempty. destruct img as [|row rest]; [done|].
  split; [simpl; lia|]. simpl. destruct row; [|simpl; lia].
  exfalso. apply Hrow. by left.
Qed.

(** ** Calls on a disk *)

Lemma io_save_mask_ok (d : IO.disk) (m : image) (p dir : string) :
  (0 < rows m)%nat -> (0 < cols m)%nat ->
  IO.dirname p = Some dir -> dir ∈ IO.dirs d -> p ∉ IO.dirs d ->
  IO.save_mask d m p = Returned (IO.Disk (save_mask (IO.files d) m p) (IO.dirs d)).
Proof.
  intros Hr Hc Hdir Hin Hnot. unfold IO.save_mask, IO.can_open_for_writing.
  rewrite bool_decide_eq_false_2 by lia. rewrite Hdir.
  rewrite bool_decide_eq_true_2 by done. by rewrite bool_decide_eq_false_2 by done.
Qed.

Lemma io_save_mask_returned (d d' : IO.disk) (m : image) (p : string) :
  IO.save_mask d m p = Returned d' ->
  d' = IO.Disk (save_mask (IO.files d) m p) (IO.dirs d).
Proof.
  unfold IO.save_mask. case_bool_decide; [done|].
  destruct (IO.can_open_for_writing d p); [|done]. by intros [= <-].
Qed.

Lemma io_save_layers_returned (d d' : IO.disk) style detail layers h w :
  IO.save_layers d style detail layers h w = Returned d' ->
  d' = IO.Disk (save_layers (IO.files d) style detail layers h w) (IO.dirs d).
Proof.
  revert d. induction layers as [|[name m] layers IH]; intros d.
  - simpl. intros [= <-]. by destruct d.
  - cbn [IO.save_layers]. rewrite save_layers_cons. destruct (layer_accepted name m h w); [|apply IH].
    destruct (IO.save_mask d m (mask_path style detail name)) as [d1|] eqn:Hsave; [|done].
    apply io_save_mask_returned in Hsave as ->. intros Hrest. by apply IH in Hrest.
Qed.

Lemma io_save_layers_ok (d : IO.disk) style detail layers h w :
  no_slash style = true -> no_slash detail = true -> IO.masks_ready d style detail ->
  (forall name m, (name, m) ∈ layers ->
     name ∈ layer_names /\ (0 < rows m)%nat /\ (0 < cols m)%nat) ->
  IO.save_layers d style detail layers h w
  = Returned (IO.Disk (save_layers (IO.files d) style detail layers h w) (IO.dirs d)).
Proof.
  intros Hs Hd. revert d.
  induction layers as [|[name m] layers IH]; intros d Hready Hl.
  - simpl. by destruct d.
  - cbn [IO.save_layers]. rewrite save_layers_cons.
    assert (forall name m, (name, m) ∈ layers ->
              name ∈ layer_names /\ (0 < rows m)%nat /\ (0 < cols m)%nat) as Hl'
      by (intros; apply Hl; by right).
    destruct (layer_accepted name m h w); [|by apply IH].
    destruct (Hl name m ltac:(by left)) as (Hname & Hr & Hc).
    destruct Hready as [Hdir Hfree].
    rewrite (io_save_mask_ok d m _ MASKS_DIR Hr Hc
               (dirname_mask_path _ _ _ Hs Hd Hname) Hdir (Hfree _ Hname)).
    by rewrite IH.
Qed.

Lemma io_process_not_loaded (d : IO.disk) (style detail : string) :
  imread (IO.files d) (source_path style detail) = None ->
  IO.process_clothing_image d style detail = Returned (d, false).
Proof.
  intros Hread. unfold IO.process_clothing_image, remove_background.
  destruct (IO.path_exists d (source_path style detail)); [|done]. cbn [negb].
  by rewrite Hread.
Qed.

Lemma io_process_loaded (d : IO.disk) (style detail : string) (img : color_image) :
  imread (IO.files d) (source_path style detail) = Some img ->
  IO.process_clothing_image d style detail
  = match IO.save_layers d style detail
            (split_clothing_layers (segment img) (Z.of_nat (rows img)))
            (Z.of_nat (rows img)) (Z.of_nat (cols img)) with
    | Raised => Raised
    | Returned d' => Returned (d', true)
    end.
Proof.
  intros Hread. unfold IO.process_clothing_image, remove_background, IO.path_exists.
  rewrite bool_decide_eq_true_2.
  - cbn [negb]. by rewrite Hread, head_row_length.
  - left. apply imread_present in Hread. by destruct (IO.files d !! _).
Qed.

(** A call that returns has done what the call on the file map does. *)
Lemma io_process_returned (d d' : IO.disk) (style detail : string) (ok : bool) :
  IO.process_clothing_image d style detail = Returned (d', ok) ->
  process_clothing_image (IO.files d) style detail = Returned (IO.files d', ok) /\
  IO.dirs d' = IO.dirs d.
Proof.
  destruct (imread (IO.files d) (source_path style detail)) as [img|] eqn:Hread.
  - rewrite (io_process_loaded _ _ _ _ Hread), (process_loaded _ _ _ _ Hread).
    destruct (IO.save_layers _ _ _ _ _ _) as [d1|] eqn:Hsave; [|done].
    apply io_save_layers_returned in Hsave as ->.
    generalize (save_layers (IO.files d) style detail
                  (split_clothing_layers (segment img) (Z.of_nat (rows img)))
                  (Z.of_nat (rows img)) (Z.of_nat (cols img))).
    intros fs1 Heq. injection Heq as <- <-. split; reflexivity.
  - rewrite (io_process_not_loaded _ _ _ Hread), (process_not_loaded _ _ _ Hread).
    intros Heq. injection Heq as <- <-. split; reflexivity.
Qed.

(** With the masks directory in place a call returns. *)
Lemma io_process_ok (d : IO.disk) (style detail : string) :
  no_slash style = true -> no_slash detail = true -> IO.masks_ready d style detail ->
  exists fs',
    process_clothing_image (IO.files d) style detail
    = Returned (fs', bool_decide (loadable (IO.files d) (style, detail))) /\
    IO.process_clothing_image d style detail
    = Returned (IO.Disk fs' (IO.dirs d), bool_decide (loadable (IO.files d) (style, detail))).
Proof.
  intros Hs Hd Hready. unfold loadable. cbn [fst snd].
  destruct (imread (IO.files d) (source_path style detail)) as [img|] eqn:Hread.
  - rewrite bool_decide_eq_true_2 by done.
    rewrite (io_process_loaded _ _ _ _ Hread), (process_loaded _ _ _ _ Hread).
    eexists. split; [reflexivity|].
    rewrite io_save_layers_ok; [done..|].
    intros name m Hin. split; [by eapply split_layer_names|].
    apply split_layers_shape in Hin. rewrite shape_segment in Hin.
    destruct (imread_shape_pos _ _ _ Hread) as [Hr Hc].
    unfold shape in Hin. injection Hin as -> ->. done.
  - rewrite bool_decide_eq_false_2 by (by intros [? ?]).
    rewrite (io_process_not_loaded _ _ _ Hread), (process_not_loaded _ _ _ Hread).
    exists (IO.files d). by destruct d.
Qed.

Lemma io_process_all_ok (catalog : list (string * string)) (d : IO.disk) (n : nat) :
  plain_names catalog -> MASKS_DIR ∈ IO.dirs d ->
  (forall t name, t ∈ catalog -> name ∈ layer_names ->
                  mask_path t.1 t.2 name ∉ IO.dirs d) ->
  exists fs' n',
    process_all catalog (IO.files d) n = Returned (fs', n') /\
    IO.process_all catalog d n = Returned (IO.Disk fs' (IO.dirs d), n').
Proof.
  revert d n. induction catalog as [|[style detail] rest IH]; intros d n Hplain Hdir Hfree.
  - exists (IO.files d), n. simpl. by destruct d.
  - apply Forall_cons in Hplain as [[Hs Hd] Hplain]. cbn [fst snd] in Hs, Hd.
    destruct (io_process_ok d style detail Hs Hd) as (fs1 & Hpure & Hio).
    { split; [done|]. intros name Hname. apply (Hfree (style, detail)); [by left | done]. }
    destruct (IH (IO.Disk fs1 (IO.dirs d))
                 (if bool_decide (loadable (IO.files d) (style, detail)) then S n else n)
                 Hplain Hdir) as (fs2 & n2 & Hrest & Hiorest).
    { intros t name Ht. apply Hfree. by right. }
    exists fs2, n2. simpl. rewrite Hpure, Hio. by split.
Qed.

Lemma io_create_ok (d : IO.disk) :
  (forall q, q ∈ IO.path_prefixes MASKS_DIR -> IO.files d !! q = None) ->
  IO.create_mask_directories d
  = Returned (IO.Disk (IO.files d) (IO.dirs d ∪ list_to_set (IO.path_prefixes MASKS_DIR))).
Proof.
  intros Hfree. unfold IO.create_mask_directories, IO.mkdir_parents.
  rewrite bool_decide_eq_false_2; [done|].
  rewrite Exists_exists. intros (q & Hq & Hsome). rewrite (Hfree q Hq) in Hsome.
  by destruct Hsome.
Qed.

Lemma io_create_raises (d : IO.disk) :
  is_Some (IO.files d !! MASKS_DIR) -> IO.create_mask_directories d = Raised.
Proof.
  intros Hsome. unfold IO.create_mask_directories, IO.mkdir_parents.
  rewrite bool_decide_eq_true_2; [done|].
  rewrite Exists_exists. exists MASKS_DIR. split; [|done].
  rewrite masks_dir_prefixes. do 3 right. by left.
Qed.

Lemma io_preview_ok (d : IO.disk) :
  PUBLIC_DIR ∈ IO.dirs d -> path_join PUBLIC_DIR "masks-preview.html" ∉ IO.dirs d ->
  IO.generate_preview_html d
  = Returned (IO.Disk (<[path_join PUBLIC_DIR "masks-preview.html" := Other]> (IO.files d))
                      (IO.dirs d)).
Proof.
  intros Hdir Hfree. unfold IO.generate_preview_html, IO.can_open_for_writing.
  rewrite (dirname_join PUBLIC_DIR "masks-preview.html" eq_refl).
  rewrite bool_decide_eq_true_2 by done. by rewrite bool_decide_eq_false_2 by done.
Qed.

(** [main] on an unobstructed disk, in terms of the loop on the file map. *)
Lemma io_main_with_ok (catalog : list (string * string)) (d : IO.disk) :
  plain_names catalog -> IO.unobstructed d catalog ->
  exists fs' n,
    process_all catalog (IO.files d) 0 = Returned (fs', n) /\
    IO.main_with catalog d
    = Returned (IO.Disk (<[path_join PUBLIC_DIR "masks-preview.html" := Other]> fs')
                        (IO.dirs d ∪ list_to_set (IO.path_prefixes MASKS_DIR)), n).
Proof.
  intros Hplain (Hfiles & Hmasks & Hpreview).
  set (dirs1 := IO.dirs d ∪ list_to_set (IO.path_prefixes MASKS_DIR)).
  assert (forall q, q ∈ IO.path_prefixes MASKS_DIR -> q ∈ dirs1) as Hpre
    by (intros q Hq; unfold dirs1; apply elem_of_union_r; by apply elem_of_list_to_set).
  destruct (io_process_all_ok catalog (IO.Disk (IO.files d) dirs1) 0 Hplain)
    as (fs' & n & Hpure & Hio).
  { apply Hpre. rewrite masks_dir_prefixes. do 3 right. by left. }
  { intros t name Ht Hname. simpl. unfold dirs1.
    intros [Hin|Hin%elem_of_list_to_set]%elem_of_union.
    - by apply (Hmasks t name).
    - by apply mask_path_not_prefix in Hin. }
  exists fs', n. split; [exact Hpure|].
  unfold IO.main_with. rewrite (io_create_ok d Hfiles). fold dirs1. rewrite Hio.
  rewrite io_preview_ok; [done | |].
  - apply Hpre. rewrite masks_dir_prefixes. do 2 right. by left.
  - simpl. unfold dirs1. intros [Hin|Hin%elem_of_list_to_set]%elem_of_union; [done|].
    rewrite masks_dir_prefixes in Hin. rewrite !elem_of_cons, elem_of_nil in Hin.
    destruct Hin as [H|[H|[H|[H|[]]]]]; vm_compute in H; discriminate.
Qed.

(** ** The batch on a disk *)

Lemma not_loadable_imread (fs : gmap string file) (style detail : string) :
  ~ loadable fs (style, detail) -> imread fs (source_path style detail) = None.
Proof.
  unfold loadable. cbn [fst snd]. intros Hn.
  destruct (imread fs (source_path style detail)); [|done]. exfalso. by apply Hn.
Qed.

(** C7. A template whose source image is missing or does not decode makes
    the call return a failure without raising and without touching the
    disk, and the loop goes on with the remaining templates in catalog
    order. A template whose source image loads counts as a success,
    whatever layers are accepted, once the masks directory is in place.
    And when nothing obstructs [main] (the masks directory can be created
    and no directory sits at a path to be written), it returns, and the
    count it reports is the number of templates of the catalog whose source
    image loads. Styles and details are single path components. *)
Theorem C7_batch_success_count (catalog : list (string * string)) (d : IO.disk) :
  (forall (d0 : IO.disk) (style detail : string) (rest : list (string * string)) (n : nat),
      ~ loadable (IO.files d0) (style, detail) ->
      IO.process_clothing_image d0 style detail = Returned (d0, false) /\
      IO.process_all ((style, detail) :: rest) d0 n = IO.process_all rest d0 n) /\
  (forall (d0 : IO.disk) (style detail : string) (rest : list (string * string)) (n : nat),
      loadable (IO.files d0) (style, detail) ->
      no_slash style = true -> no_slash detail = true ->
      IO.masks_ready d0 style detail ->
      exists d1,
        IO.process_clothing_image d0 style detail = Returned (d1, true) /\
        IO.process_all ((style, detail) :: rest) d0 n = IO.process_all rest d1 (S n)) /\
  (plain_names catalog -> IO.unobstructed d catalog ->
   exists d',
     IO.main_with catalog d
     = Returned (d', length (filter (loadable (IO.files d)) catalog))).
Proof.
  split; [|split].
  - intros d0 style detail rest n Hn.
    pose proof (io_process_not_loaded d0 style detail
                  (not_loadable_imread _ _ _ Hn)) as Hrun.
    split; [exact Hrun|]. cbn [IO.process_all]. by rewrite Hrun.
  - intros d0 style detail rest n Hl Hs Hd Hready.
    destruct (io_process_ok d0 style detail Hs Hd Hready) as (fs1 & _ & Hrun).
    rewrite bool_decide_eq_true_2 in Hrun by done.
    eexists. split; [exact Hrun|]. cbn [IO.process_all]. by rewrite Hrun.
  - intros Hplain Hfree.
    destruct (io_main_with_ok catalog d Hplain Hfree) as (fs' & n & Hpure & Hrun).
    destruct (process_all_spec catalog (IO.files d) 0
                (plain_names_independent _ Hplain)) as (fs1 & Hspec & _).
    rewrite Hspec in Hpure. injection Hpure as <- <-.
    eexists. exact Hrun.
Qed.

Lemma CLOTHING_IMAGES_plain : plain_names CLOTHING_IMAGES.
Proof. repeat apply Forall_cons_2; [by split..|]. apply Forall_nil_2. Qed.

Lemma sample_disk_unobstructed : IO.unobstructed sample_disk CLOTHING_IMAGES.
Proof.
  split; [|split].
  - intros q Hq. rewrite masks_dir_prefixes in Hq.
    rewrite !elem_of_cons, elem_of_nil in Hq.
    destruct Hq as [->|[->|[->|[->|[]]]]]; vm_compute; reflexivity.
  - intros t name _ _. apply not_elem_of_empty.
  - apply not_elem_of_empty.
Qed.

Lemma C7_batch_success_count_witness :
  plain_names CLOTHING_IMAGES /\ IO.unobstructed sample_disk CLOTHING_IMAGES /\
  exists d', IO.main sample_disk = Returned (d', 2%nat).
Proof.
  pose proof CLOTHING_IMAGES_plain as Hplain.
  pose proof sample_disk_unobstructed as Hfree.
  split; [exact Hplain|]. split; [exact Hfree|].
  destruct (C7_batch_success_count CLOTHING_IMAGES sample_disk) as (_ & _ & Hcount).
  destruct (Hcount Hplain Hfree) as (d' & Hrun).
  exists d'. unfold IO.main. rewrite Hrun. f_equal.
Defined.

(** X6. Whenever a call for one template returns, it has changed no
    directory and no file other than the three mask files of that
    template: its own source image is not overwritten and no file is
    deleted. The call does return when the masks directory is in place,
    no mask path of the template is a directory and the style and the
    detail are single path components. *)
Theorem X6_process_writes_only_own_masks (d : IO.disk) (style detail : string) :
  (forall (d' : IO.disk) (ok : bool),
      IO.process_clothing_image d style detail = Returned (d', ok) ->
      IO.dirs d' = IO.dirs d /\
      (forall p, (forall name, name ∈ layer_names -> p <> mask_path style detail name) ->
                 IO.files d' !! p = IO.files d !! p) /\
      IO.files d' !! source_path style detail = IO.files d !! source_path style detail /\
      (forall p, is_Some (IO.files d !! p) -> is_Some (IO.files d' !! p))) /\
  (no_slash style = true -> no_slash detail = true -> IO.masks_ready d style detail ->
   exists (d' : IO.disk) (ok : bool),
     IO.process_clothing_image d style detail = Returned (d', ok)).
Proof.
  split.
  - intros d' ok Hrun. apply io_process_returned in Hrun as [Hpure Hdirs].
    split; [exact Hdirs|].
    destruct (process_clothing_image_frame (IO.files d) style detail)
      as (fs' & ok' & Hrun' & Hframe & Hsrc & Hkeep).
    rewrite Hrun' in Hpure. injection Hpure as -> ->. done.
  - intros Hs Hd Hready.
    destruct (io_process_ok d style detail Hs Hd Hready) as (fs' & _ & Hrun). eauto.
Qed.

Lemma X6_process_writes_only_own_masks_witness :
  no_slash "business" = true /\ no_slash "casual" = true /\
  IO.masks_ready ready_disk "business" "casual" /\
  (exists (d' : IO.disk) (ok : bool),
      IO.process_clothing_image ready_disk "business" "casual" = Returned (d', ok)) /\
  IO.process_clothing_image no_masks_disk "business" "casual" = Raised.
Proof.
  assert (IO.masks_ready ready_disk "business" "casual") as Hready.
  { split; [vm_compute; tauto|].
    intros name Hname Hin. unfold layer_names in Hname.
    rewrite !elem_of_cons, elem_of_nil in Hname.
    destruct Hname as [->|[->|[->|[]]]]; vm_compute in Hin; discriminate. }
  split; [reflexivity|]. split; [reflexivity|]. split; [exact Hready|]. split.
  - exact (proj2 (X6_process_writes_only_own_masks ready_disk "business" "casual")
             eq_refl eq_refl Hready).
  - vm_compute. reflexivity.
Defined.

(** X9. [main] raises when a regular file sits where the masks directory
    should be. When nothing obstructs it, [main] returns: the masks
    directory exists afterwards, the count is at most the size of the
    catalog, and no file that was there before is deleted. *)
Theorem X9_main_returns (catalog : list (string * string)) (d : IO.disk) :
  (is_Some (IO.files d !! MASKS_DIR) -> IO.main_with catalog d = Raised) /\
  (plain_names catalog -> IO.unobstructed d catalog ->
   exists (d' : IO.disk) (n : nat),
     IO.main_with catalog d = Returned (d', n) /\
     (n <= length catalog)%nat /\
     MASKS_DIR ∈ IO.dirs d' /\
     forall p, is_Some (IO.files d !! p) -> is_Some (IO.files d' !! p)).
Proof.
  split.
  - intros Hfile. unfold IO.main_with. by rewrite io_create_raises.
  - intros Hplain Hfree.
    destruct (io_main_with_ok catalog d Hplain Hfree) as (fs' & n & Hpure & Hrun).
    destruct (process_all_keeps catalog (IO.files d) 0) as (fs1 & n1 & Hrun1 & Hn & Hkeep).
    rewrite Hrun1 in Hpure. injection Hpure as <- <-.
    eexists _, _. split; [exact Hrun|]. split; [lia|]. split.
    + cbn [IO.dirs]. apply elem_of_union_r, elem_of_list_to_set.
      rewrite masks_dir_prefixes. do 3 right. by left.
    + intros p Hp. cbn [IO.files]. rewrite lookup_insert.
      case_decide; [by eexists | by apply Hkeep].
Qed.

Lemma X9_main_returns_witness :
  is_Some (IO.files blocked_disk !! MASKS_DIR) /\
  IO.main blocked_disk = Raised /\
  plain_names CLOTHING_IMAGES /\ IO.unobstructed sample_disk CLOTHING_IMAGES /\
  exists (d' : IO.disk) (n : nat), IO.main sample_disk = Returned (d', n).
Proof.
  assert (is_Some (IO.files blocked_disk !! MASKS_DIR)) as Hfile
    by (vm_compute; by eexists).
  split; [exact Hfile|]. split.
  - exact (proj1 (X9_main_returns CLOTHING_IMAGES blocked_disk) Hfile).
  - split; [exact CLOTHING_IMAGES_plain|]. split; [exact sample_disk_unobstructed|].
    destruct (proj2 (X9_main_returns CLOTHING_IMAGES sample_disk)
                CLOTHING_IMAGES_plain sample_disk_unobstructed) as (d' & n & Hrun & _).
    exists d', n. exact Hrun.
Defined.

(** ** The threshold of the segmenter *)

Lemma cell_gray (img : color_image) (r c : nat) :
  cell (cvtColor_BGR2GRAY img) r c = bgr2gray <$> cell img r c.
Proof.
  unfold cell, cvtColor_BGR2GRAY. rewrite list_lookup_fmap.
  destruct (img !! r) as [row|]; [|done]. simpl. by rewrite list_lookup_fmap.
Qed.

Lemma cell_threshold_mask (img : color_image) (r c : nat) :
  cell (threshold_mask img) r c
  = (fun p => if 230 <? bgr2gray p then 0 else 255) <$> cell img r c.
Proof.
  unfold threshold_mask. rewrite cell_threshold, cell_gray.
  by destruct (cell img r c).
Qed.

(** C2, as the code has it. The segmenter is the clean-up of the mask that
    the threshold leaves, and the threshold is inclusive: it marks a pixel
    as foreground (255) exactly when its luminance is at most 230, and as
    background (0) when it is 231 or more. *)
Theorem C2_threshold_inclusive (img : color_image) (r c : nat) (p : bgr) :
  cell img r c = Some p ->
  segment img = clean (threshold_mask img) /\
  cell (threshold_mask img) r c
  = Some (if bool_decide (bgr2gray p <= 230) then 255 else 0) /\
  (foreground (threshold_mask img) r c <-> bgr2gray p <= 230).
Proof.
  intros Hp. split; [reflexivity|].
  unfold foreground. rewrite cell_threshold_mask, Hp. simpl.
  case_bool_decide; destruct (Z.ltb_spec 230 (bgr2gray p)); try lia.
  - split; [done|]. split; [done | done].
  - split; [done|]. split; [intros [=] | lia].
Qed.

Lemma C2_threshold_inclusive_witness :
  cell [[(10, 10, 10); (230, 230, 230)]; [(231, 231, 231); (255, 255, 255)]] 0 1
  = Some (230, 230, 230) /\
  foreground
    (threshold_mask [[(10, 10, 10); (230, 230, 230)]; [(231, 231, 231); (255, 255, 255)]])
    0 1.
Proof.
  split; [reflexivity|].
  destruct (C2_threshold_inclusive
              [[(10, 10, 10); (230, 230, 230)]; [(231, 231, 231); (255, 255, 255)]]
              0 1 (230, 230, 230) eq_refl) as (_ & _ & Hiff).
  apply Hiff. vm_compute. discriminate.
Defined.

(** C2, as stated, fails on the one-pixel image of luminance 230: the
    pixel is not strictly below the threshold, yet it is classified as
    foreground, by the threshold and by the whole segmenter. Nor does the
    mask after the clean-up follow the luminance pixel by pixel: the dark
    pixel in the middle of [speck_image] is foreground for the threshold
    and background after the clean-up. *)
Lemma C2_strict_threshold_counterexample :
  bgr2gray (230, 230, 230) = 230 /\
  cell (threshold_binary_inv 230 255 [[230]]) 0 0 = Some 255 /\
  segment [[(230, 230, 230)]] = [[255]] /\
  ~ (forall (gray : image) (r c : nat) (v : Z),
        cell gray r c = Some v ->
        (cell (threshold_binary_inv 230 255 gray) r c = Some 255 <-> v < 230)) /\
  ~ (forall (img : color_image) (r c : nat) (p : bgr),
        cell img r c = Some p ->
        (foreground (threshold_mask img) r c <-> bgr2gray p < 230)) /\
  ~ (forall (img : color_image) (r c : nat) (p : bgr),
        cell img r c = Some p ->
        (foreground (segment img) r c <-> bgr2gray p < 230)) /\
  (cell speck_image 3 3 = Some (0, 0, 0) /\
   foreground (threshold_mask speck_image) 3 3 /\
   cell (segment speck_image) 3 3 = Some 0).
Proof.
  split; [reflexivity|]. split; [reflexivity|]. split; [by vm_compute|].
  split; [|split; [|split]].
  - intros Hclaim.
    destruct (Hclaim [[230]] 0%nat 0%nat 230 eq_refl) as [Hlt _].
    specialize (Hlt eq_refl). lia.
  - intros Hclaim.
    destruct (Hclaim [[(230, 230, 230)]] 0%nat 0%nat (230, 230, 230) eq_refl) as [Hlt _].
    assert (bgr2gray (230, 230, 230) < 230) as H by (apply Hlt; reflexivity).
    vm_compute in H. discriminate.
  - intros Hclaim.
    destruct (Hclaim [[(230, 230, 230)]] 0%nat 0%nat (230, 230, 230) eq_refl) as [Hlt _].
    assert (bgr2gray (230, 230, 230) < 230) as H by (apply Hlt; vm_compute; reflexivity).
    vm_compute in H. discriminate.
  - split; [reflexivity|]. split; vm_compute; reflexivity.
Qed.

(** ** The row bands as intervals *)

Lemma cut_rows_order (h : Z) :
  0 <= h < 2 ^ 31 ->
  0 <= 5 * h / 100 /\ 5 * h / 100 <= base_end h /\
  base_end h <= 45 * h / 100 /\ 45 * h / 100 <= h.
Proof.
  intros Hh.
  destruct (base_end_quotient h Hh) as [Hb _].
  pose proof (base_end_le_top_end h ltac:(lia)) as Hle.
  pose proof (base_end_nonneg h ltac:(lia)) as Hnn.
  destruct (cut_rows_quotient h Hh) as [Ht _]. rewrite Ht in Hle.
  pose proof (Z.div_mod (5 * h) 100 ltac:(lia)) as H5.
  pose proof (Z.mod_pos_bound (5 * h) 100 ltac:(lia)) as H5r.
  pose proof (Z.div_mod (35 * h) 100 ltac:(lia)) as H35.
  pose proof (Z.mod_pos_bound (35 * h) 100 ltac:(lia)) as H35r.
  pose proof (Z.div_mod (45 * h) 100 ltac:(lia)) as H45.
  pose proof (Z.mod_pos_bound (45 * h) 100 ltac:(lia)) as H45r.
  revert Hb Hle Hnn H5 H5r H35 H35r H45 H45r.
  generalize (5 * h / 100) ((5 * h) mod 100) (35 * h / 100) ((35 * h) mod 100)
    (45 * h / 100) ((45 * h) mod 100) (base_end h).
  intros q5 r5 q35 r35 q45 r45 be. lia.
Qed.

Lemma cell_row_bound {A : Type} (m : list (list A)) (r c : nat) :
  is_Some (cell m r c) -> (r < rows m)%nat.
Proof.
  unfold cell. intros [v Hv]. destruct (m !! r) as [row|] eqn:Hrow; [|done].
  by eapply lookup_lt_Some.
Qed.

(** C3, as the code has it. For a mask of height [1 <= h < 2^31] the cut
    rows are integers: the top layer copies the mask in the rows
    [0 <= r < 45 * h / 100] and the bottom layer in the rows
    [45 * h / 100 <= r < h], which split [0, h); the base layer copies it
    in the rows [5 * h / 100 <= r < int(h * 0.35)], where [int(h * 0.35)]
    is [35 * h / 100], or possibly one less when [h] is a multiple of 20,
    and these rows lie among those of the top layer. *)
Theorem C3_band_coverage (mask : image) (ih : Z) :
  binary_mask mask -> (1 <= rows mask)%nat -> Z.of_nat (rows mask) < 2 ^ 31 ->
  let h := Z.of_nat (rows mask) in
  (exists top base bottom,
      split_clothing_layers mask ih
      = [("topLayer", top); ("baseLayer", base); ("bottom", bottom)] /\
      forall r c : nat,
        (foreground top r c
         <-> 0 <= Z.of_nat r < 45 * h / 100 /\ foreground mask r c) /\
        (foreground bottom r c
         <-> 45 * h / 100 <= Z.of_nat r < h /\ foreground mask r c) /\
        (foreground base r c
         <-> 5 * h / 100 <= Z.of_nat r < base_end h /\ foreground mask r c)) /\
  (35 * h / 100 - 1 <= base_end h <= 35 * h / 100 /\
   (h mod 20 <> 0 -> base_end h = 35 * h / 100)) /\
  (0 <= 45 * h / 100 <= h /\ 0 <= 5 * h / 100 /\ base_end h <= 45 * h / 100) /\
  (forall r, in_top_band h r = true <-> 0 <= r < 45 * h / 100) /\
  (forall r, in_bottom_band h r = true <-> 45 * h / 100 <= r < h) /\
  (forall r, in_base_band h r = true <-> 5 * h / 100 <= r < base_end h) /\
  (forall r, 0 <= r < h -> in_top_band h r = negb (in_bottom_band h r)) /\
  (forall r, in_base_band h r = true -> in_top_band h r = true).
Proof.
  intros Hmask Hrows Hbound h.
  assert (0 <= h < 2 ^ 31) as Hh by (unfold h; lia).
  destruct (cut_rows_quotient h Hh) as [Htop Hstart].
  destruct (cut_rows_order h Hh) as (H5 & H5b & Hbt & H45).
  assert (forall r, in_top_band h r = true <-> 0 <= r < 45 * h / 100) as Hti.
  { intros r. unfold in_top_band. rewrite Htop, !andb_true_iff, !Z.leb_le, !Z.ltb_lt. lia. }
  assert (forall r, in_bottom_band h r = true <-> 45 * h / 100 <= r < h) as Hbi.
  { intros r. unfold in_bottom_band.
    rewrite Htop, !andb_true_iff, !Z.leb_le, !Z.ltb_lt. lia. }
  assert (forall r, in_base_band h r = true <-> 5 * h / 100 <= r < base_end h) as Hsi.
  { intros r. unfold in_base_band.
    rewrite Hstart, !andb_true_iff, !Z.leb_le, !Z.ltb_lt. lia. }
  split; [|split; [|split; [|split; [|split; [|split; [|split]]]]]].
  - destruct (split_cells mask ih (binary_mask_rectangular _ Hmask))
      as (top & base & bottom & Heq & Hcells).
    exists top, base, bottom. split; [exact Heq|]. intros r c.
    destruct (Hcells r c) as (Ht & Hb & Hbo). fold h in Ht, Hb, Hbo.
    unfold foreground. rewrite Ht, Hb, Hbo.
    rewrite <- Hti, <- Hbi, <- Hsi.
    destruct (cell mask r c) as [v|]; simpl;
      [|repeat split; intros; try done; by destruct_and?].
    destruct (in_top_band h (Z.of_nat r)), (in_base_band h (Z.of_nat r)),
      (in_bottom_band h (Z.of_nat r));
      repeat split; intros; destruct_and?; try done.
  - apply base_end_quotient, Hh.
  - lia.
  - exact Hti.
  - exact Hbi.
  - exact Hsi.
  - intros r Hr. destruct (in_bottom_band h r) eqn:Hb; simpl.
    + apply Hbi in Hb. apply not_true_is_false. rewrite Hti. lia.
    + apply Hti. apply not_true_iff_false in Hb. rewrite Hbi in Hb. lia.
  - intros r. rewrite Hsi, Hti. lia.
Qed.

Lemma C3_band_coverage_witness :
  binary_mask sample_mask /\ (1 <= rows sample_mask)%nat /\
  Z.of_nat (rows sample_mask) < 2 ^ 31 /\
  (forall r, in_top_band 10 r = true <-> 0 <= r < 4) /\
  (forall r, in_bottom_band 10 r = true <-> 4 <= r < 10) /\
  (forall r, in_base_band 10 r = true <-> 0 <= r < 3).
Proof.
  assert (binary_mask sample_mask) as Hm by (split; solve_mask).
  assert (1 <= rows sample_mask)%nat as Hr by (vm_compute; lia).
  assert (Z.of_nat (rows sample_mask) < 2 ^ 31) as Hb by reflexivity.
  split; [exact Hm|]. split; [exact Hr|]. split; [exact Hb|].
  destruct (C3_band_coverage sample_mask 10 Hm Hr Hb)
    as (_ & _ & _ & Ht & Hbo & Hs & _).
  split; [exact Ht|]. split; [exact Hbo | exact Hs].
Defined.

(** C3, as stated, fails for the mask [sample_mask] of height 10. Row 4
    lies in [0, 0.45 h) = [0, 4.5) and holds foreground pixels of the
    mask, yet it is a row of the bottom layer and not of the top layer; and
    row 3 lies in [0.05 h, 0.35 h) = [0.5, 3.5), yet the base layer is
    background there. *)
Lemma C3_real_bands_counterexample :
  binary_mask sample_mask /\ rows sample_mask = 10%nat /\
  (exists top base bottom,
      split_clothing_layers sample_mask 10
      = [("topLayer", top); ("baseLayer", base); ("bottom", bottom)] /\
      (100 * 4 < 45 * 10 /\ foreground sample_mask 4 1 /\
       ~ foreground top 4 1 /\ foreground bottom 4 1) /\
      (5 * 10 <= 100 * 3 < 35 * 10 /\ foreground sample_mask 3 1 /\
       ~ foreground base 3 1)) /\
  ~ (forall (mask : image) (ih : Z) (top base bottom : image),
        binary_mask mask -> (1 <= rows mask)%nat ->
        split_clothing_layers mask ih
        = [("topLayer", top); ("baseLayer", base); ("bottom", bottom)] ->
        forall r c : nat,
          foreground top r c
          <-> 100 * Z.of_nat r < 45 * Z.of_nat (rows mask) /\ foreground mask r c).
Proof.
  assert (binary_mask sample_mask) as Hm by (split; solve_mask).
  split; [exact Hm|]. split; [reflexivity|]. split.
  - eexists _, _, _. split; [reflexivity|]. split.
    + split; [lia|]. split; [reflexivity|].
      split; [vm_compute; discriminate | vm_compute; reflexivity].
    + split; [lia|]. split; [reflexivity|]. vm_compute. discriminate.
  - intros Hclaim.
    destruct (Hclaim sample_mask 10 _ _ _ Hm ltac:(vm_compute; lia) eq_refl 4%nat 1%nat)
      as [_ Hback].
    assert (foreground (assign_rows (zeros_like sample_mask) sample_mask 0
                          (top_end (Z.of_nat (rows sample_mask)))) 4 1) as Hfg.
    { apply Hback. split; [vm_compute; reflexivity | reflexivity]. }
    vm_compute in Hfg. discriminate.
Qed.

(** ** A uniformly gray image: the files written *)

Lemma layer_mask_paths_NoDup (style detail : string) :
  NoDup [mask_path style detail "topLayer"; mask_path style detail "baseLayer";
         mask_path style detail "bottom"].
Proof.
  assert (forall a b, a ∈ ["topLayer"; "baseLayer"; "bottom"; "shoes"] ->
            b ∈ ["topLayer"; "baseLayer"; "bottom"; "shoes"] -> a <> b ->
            mask_path style detail a <> mask_path style detail b) as Hne
    by (intros; by apply mask_paths_distinct).
  repeat apply NoDup_cons_2; [| |apply not_elem_of_nil|apply NoDup_nil_2].
  - rewrite !elem_of_cons, elem_of_nil. intros [H|[H|[]]]; revert H; apply Hne;
      rewrite ?elem_of_cons; auto 6; discriminate.
  - rewrite !elem_of_cons, elem_of_nil. intros [H|[]]; revert H; apply Hne;
      rewrite ?elem_of_cons; auto 6; discriminate.
Qed.

Lemma insert_three {A : Type} (m : gmap string A) (p1 p2 p3 : string) (x1 x2 x3 : A) :
  NoDup [p1; p2; p3] ->
  let m' := <[p3 := x3]> (<[p2 := x2]> (<[p1 := x1]> m)) in
  m' !! p1 = Some x1 /\ m' !! p2 = Some x2 /\ m' !! p3 = Some x3 /\
  (forall p, p ∉ [p1; p2; p3] -> m' !! p = m !! p) /\
  dom m' = {[p3]} ∪ ({[p2]} ∪ ({[p1]} ∪ dom m)).
Proof.
  intros Hnd m'. unfold m'.
  apply NoDup_cons in Hnd as [H1 Hnd]. apply NoDup_cons in Hnd as [H2 _].
  rewrite !elem_of_cons, elem_of_nil in H1. rewrite !elem_of_cons, elem_of_nil in H2.
  split; [|split; [|split; [|split]]].
  - rewrite lookup_insert_ne by (intros Heq; apply H1; auto).
    rewrite lookup_insert_ne by (intros Heq; apply H1; auto).
    apply lookup_insert_eq.
  - rewrite lookup_insert_ne by (intros Heq; apply H2; auto).
    apply lookup_insert_eq.
  - apply lookup_insert_eq.
  - intros p Hp. rewrite !elem_of_cons, elem_of_nil in Hp.
    rewrite !lookup_insert_ne by (intros Heq; apply Hp; auto). done.
  - by rewrite !dom_insert_L.
Qed.

(** A call on a disk that is ready for the template does what the call on
    the file map does. *)
Lemma io_process_agrees (d : IO.disk) (style detail : string)
    (fs' : gmap string file) (ok : bool) :
  process_clothing_image (IO.files d) style detail = Returned (fs', ok) ->
  no_slash style = true -> no_slash detail = true -> IO.masks_ready d style detail ->
  IO.process_clothing_image d style detail = Returned (IO.Disk fs' (IO.dirs d), ok).
Proof.
  intros Hrun Hs Hd Hready.
  destruct (io_process_ok d style detail Hs Hd Hready) as (fs1 & Hpure & Hio).
  rewrite Hpure in Hrun. injection Hrun as <- <-. exact Hio.
Qed.

(** C8. A source image of 200 rows and 100 columns whose pixels all have
    luminance 128 is segmented to the all-foreground mask; its top layer is
    foreground exactly in rows 0 to 89, its base layer in rows 10 to 69
    (all 60 * 100 cells of its band) and its bottom layer in rows 90 to
    199; each of the three layers is accepted; the three mask paths are
    pairwise different; and the call writes the picture of each layer at
    its path and changes no other file, so that the files afterwards are
    those before and these three. On a disk whose masks directory is in
    place the call returns with exactly these files. *)
Theorem C8_mid_gray_scenario (fs : gmap string file) (style detail : string)
    (img : color_image) :
  imread fs (source_path style detail) = Some img ->
  rectangular img -> rows img = 200%nat -> cols img = 100%nat ->
  Forall (Forall (fun p => bgr2gray p = 128)) img ->
  segment img = const_image 200 100 255 /\
  split_clothing_layers (segment img) 200
  = [("topLayer", band_mask 200 100 0 90);
     ("baseLayer", band_mask 200 100 10 70);
     ("bottom", band_mask 200 100 90 200)] /\
  count_eq 255 (band_mask 200 100 10 70) = 60 * 100 /\
  (layer_accepted "topLayer" (band_mask 200 100 0 90) 200 100 = true /\
   layer_accepted "baseLayer" (band_mask 200 100 10 70) 200 100 = true /\
   layer_accepted "bottom" (band_mask 200 100 90 200) 200 100 = true) /\
  NoDup [mask_path style detail "topLayer"; mask_path style detail "baseLayer";
         mask_path style detail "bottom"] /\
  exists fs',
    process_clothing_image fs style detail = Returned (fs', true) /\
    fs' = <[mask_path style detail "bottom"
            := Picture (encode_mask (band_mask 200 100 90 200))]>
            (<[mask_path style detail "baseLayer"
               := Picture (encode_mask (band_mask 200 100 10 70))]>
               (<[mask_path style detail "topLayer"
                  := Picture (encode_mask (band_mask 200 100 0 90))]> fs)) /\
    (fs' !! mask_path style detail "topLayer"
     = Some (Picture (encode_mask (band_mask 200 100 0 90))) /\
     fs' !! mask_path style detail "baseLayer"
     = Some (Picture (encode_mask (band_mask 200 100 10 70))) /\
     fs' !! mask_path style detail "bottom"
     = Some (Picture (encode_mask (band_mask 200 100 90 200))) /\
     (forall p, p ∉ [mask_path style detail "topLayer"; mask_path style detail "baseLayer";
                     mask_path style detail "bottom"] -> fs' !! p = fs !! p) /\
     dom fs' = {[mask_path style detail "bottom"]}
               ∪ ({[mask_path style detail "baseLayer"]}
                  ∪ ({[mask_path style detail "topLayer"]} ∪ dom fs))) /\
    (forall d : IO.disk,
        IO.files d = fs -> no_slash style = true -> no_slash detail = true ->
        IO.masks_ready d style detail ->
        IO.process_clothing_image d style detail
        = Returned (IO.Disk fs' (IO.dirs d), true)).
Proof.
  intros Hread Hrect Hrows Hcols Hgray.
  assert (segment img = const_image 200 100 255) as Hseg.
  { rewrite (segment_uniform_gray img 128 Hrect Hgray), Hrows, Hcols. reflexivity. }
  pose proof (layer_mask_paths_NoDup style detail) as Hnd.
  split; [exact Hseg|]. split; [rewrite Hseg; apply mid_gray_layers|].
  split; [vm_compute; reflexivity|].
  split; [exact mid_gray_accepted|]. split; [exact Hnd|].
  eexists. split; [|split; [reflexivity|split]].
  - unfold process_clothing_image, remove_background.
    rewrite bool_decide_eq_false_2 by (by eapply imread_present).
    rewrite Hread, Hseg, head_row_length.
    unfold rows in Hrows. rewrite Hrows, Hcols.
    change (Z.of_nat 200) with 200. change (Z.of_nat 100) with 100.
    rewrite mid_gray_layers.
    destruct mid_gray_accepted as (Ht & Hb & Hbt).
    unfold save_layers. cbn [foldl]. rewrite Ht, Hb, Hbt. reflexivity.
  - apply (insert_three fs _ _ _ _ _ _ Hnd).
  - intros d Hfs Hs Hd Hready. apply io_process_agrees; [|done..].
    rewrite Hfs. unfold process_clothing_image, remove_background.
    rewrite bool_decide_eq_false_2 by (by eapply imread_present).
    rewrite Hread, Hseg, head_row_length.
    unfold rows in Hrows. rewrite Hrows, Hcols.
    change (Z.of_nat 200) with 200. change (Z.of_nat 100) with 100.
    rewrite mid_gray_layers.
    destruct mid_gray_accepted as (Ht & Hb & Hbt).
    unfold save_layers. cbn [foldl]. rewrite Ht, Hb, Hbt. reflexivity.
Qed.

Lemma C8_mid_gray_scenario_witness :
  imread gray_files (source_path "startup" "hoodie")
  = Some (replicate 200 (replicate 100 (128, 128, 128))) /\
  rectangular (replicate 200 (replicate 100 (128, 128, 128))) /\
  Forall (Forall (fun p => bgr2gray p = 128))
         (replicate 200 (replicate 100 (128, 128, 128))) /\
  segment (replicate 200 (replicate 100 (128, 128, 128))) = const_image 200 100 255.
Proof.
  assert (imread gray_files (source_path "startup" "hoodie")
          = Some (replicate 200 (replicate 100 (128, 128, 128)))) as Hread
    by (vm_compute; reflexivity).
  assert (rectangular (replicate 200 (replicate 100 (128, 128, 128)))) as Hrect
    by (apply Forall_replicate; reflexivity).
  assert (Forall (Forall (fun p => bgr2gray p = 128))
                 (replicate 200 (replicate 100 (128, 128, 128)))) as Hgray
    by (apply Forall_replicate, Forall_replicate; reflexivity).
  split; [exact Hread|]. split; [exact Hrect|]. split; [exact Hgray|].
  exact (proj1 (C8_mid_gray_scenario gray_files "startup" "hoodie" _
                  Hread Hrect eq_refl eq_refl Hgray)).
Defined.
